(** * Haptic texture controller: segmentation, lookup and MCU link

    A shallow embedding of the Python sources
    - [visual-biopsy/app_lab_version/main.py]
      ([SimpleKMeans], [TissueAnalyzer]) and
    - [visual-biopsy/linux_brain/haptic_scanner.py]
      ([MCUCommunicator], [TissueSegmenter], [HapticHistologyScanner]),
    with [HapticCalibrator] of [calibration_tool.py] as the sibling
    shutdown path.

    Conventions.  Python [int] is [Z].  The floats of the k-means code
    (centroids, distances, means) and the clock readings are idealised
    as exact rationals ([Q]), kept in lowest terms by [Qred] after every
    operation so that Python's [==] on numbers is Leibniz equality on the
    values the program builds; their rounding is not modelled.  Where
    rounding, infinities or NaN decide what the code does - the
    coordinate products of [get_density_normalized], and the evenly
    spaced initial centroids of [fit] - the floats are IEEE binary64
    values ([binary64]).  A raised exception is the [Raise] branch of
    [result].  The clock ([time.time()]) and the outcome of a serial
    write are inputs of the operations that consult them. *)

From Stdlib Require Import ZArith QArith Qround Qabs Qreduction Qcanon Lqa Lia Ascii String.
From Stdlib Require Import SpecFloat.
From stdpp Require Import base option list sorting gmap strings pretty.

Local Open Scope Z_scope.

(** ** Exceptions and results *)

Inductive exn : Set :=
| ZeroDivisionError
| ValueError
| IndexError
| KeyError
| TypeError
| OverflowError
| SerialException.

Definition exn_name (e : exn) : string :=
  match e with
  | ZeroDivisionError => "ZeroDivisionError"
  | ValueError => "ValueError"
  | IndexError => "IndexError"
  | KeyError => "KeyError"
  | TypeError => "TypeError"
  | OverflowError => "OverflowError"
  | SerialException => "SerialException"
  end.

Inductive result (A : Type) : Type :=
| Ok (a : A)
| Raise (e : exn).
Arguments Ok {A} a.
Arguments Raise {A} e.

#[global] Instance result_ret : MRet result := fun A a => Ok a.
#[global] Instance result_bind : MBind result := fun A B f r =>
  match r with
  | Ok a => f a
  | Raise e => Raise e
  end.

#[global] Instance exn_eq_dec : EqDecision exn.
Proof. solve_decision. Defined.

#[global] Instance result_eq_dec `{EqDecision A} : EqDecision (result A).
Proof. solve_decision. Defined.

(** ** Python numbers *)

#[global] Instance Qle_decision (x y : Q) : Decision (x <= y)%Q :=
  match Z_le_dec (Qnum x * QDen y) (Qnum y * QDen x) with
  | left H => left H
  | right H => right H
  end.

#[global] Instance Qlt_decision (x y : Q) : Decision (x < y)%Q :=
  match Z_lt_dec (Qnum x * QDen y) (Qnum y * QDen x) with
  | left H => left H
  | right H => right H
  end.

#[global] Instance Q_eq_decision : EqDecision Q.
Proof. solve_decision. Defined.

(** [a / b]: true division, [ZeroDivisionError] on a zero divisor. *)
Definition true_div (a b : Q) : result Q :=
  if Qeq_bool b 0 then Raise ZeroDivisionError else Ok (Qred (a / b)).

(** Truncation toward zero, as [int(x)] does on a finite float. *)
Definition py_int (x : Q) : Z := Z.quot (Qnum x) (Z.pos (Qden x)).

(** [min(l)] / [max(l)] on a list of ints; [ValueError] when empty. *)
Definition py_min (l : list Z) : result Z :=
  match l with
  | [] => Raise ValueError
  | x :: l' => Ok (foldl Z.min x l')
  end.

Definition py_max (l : list Z) : result Z :=
  match l with
  | [] => Raise ValueError
  | x :: l' => Ok (foldl Z.max x l')
  end.

(** [min(l)] on floats: the first smallest element. *)
Definition Qmin1 (m x : Q) : Q := if decide (m <= x)%Q then m else x.

Definition py_minQ (l : list Q) : result Q :=
  match l with
  | [] => Raise ValueError
  | x :: l' => Ok (foldl Qmin1 x l')
  end.

(** [l.index(m)]: position of the first element equal to [m]. *)
Fixpoint py_index (l : list Q) (m : Q) : result nat :=
  match l with
  | [] => Raise ValueError
  | x :: l' => if Qeq_bool x m then Ok O else i ← py_index l' m; Ok (S i)
  end.

(** [range(n)] *)
Definition py_range (n : Z) : list Z := seqZ 0 n.

(** ** Binary64 floats

    An IEEE binary64 value is a [spec_float]: a signed zero, a signed
    infinity, NaN, or a finite [(-1)^s * m * 2^e]; the operations are
    those of the Standard Library's specification of IEEE arithmetic at
    precision 53 and maximal exponent 1024, which round to nearest,
    ties to even. *)

Definition binary64 : Type := spec_float.
Definition prec : Z := 53.
Definition emax : Z := 1024.

(** The literals [0.0] and [1.0]. *)
Definition float_zero : binary64 := S754_zero false.
Definition float_one : binary64 := SFone prec emax.

(** The int operand of a float operation is converted to the nearest
    float; [OverflowError] when it is too large for one. *)
Definition float_of_int (z : Z) : result binary64 :=
  match binary_normalize prec emax z 0 false with
  | S754_infinity _ => Raise OverflowError
  | f => Ok f
  end.

(** [x * n] and [m + y] for floats [x], [y] and ints [n], [m]. *)
Definition float_mul_int (x : binary64) (n : Z) : result binary64 :=
  f ← float_of_int n; Ok (SFmul prec emax x f).

Definition int_mul_float (n : Z) (x : binary64) : result binary64 :=
  f ← float_of_int n; Ok (SFmul prec emax f x).

Definition int_add_float (m : Z) (y : binary64) : result binary64 :=
  f ← float_of_int m; Ok (SFadd prec emax f y).

(** [a / b] on ints: the float nearest to the quotient (the operands
    are converted first, which is exact below [2^53]);
    [ZeroDivisionError] on a zero divisor. *)
Definition int_true_div (a b : Z) : result binary64 :=
  if decide (b = 0) then Raise ZeroDivisionError
  else x ← float_of_int a; y ← float_of_int b; Ok (SFdiv prec emax x y).

(** The rational that a finite float stands for (0 for the others). *)
Definition float_value (f : binary64) : Q :=
  match f with
  | S754_finite s m e =>
      let n := if s then Z.neg m else Z.pos m in
      match e with
      | Z.neg p => n # (2 ^ p)
      | _ => inject_Z (n * 2 ^ e)
      end
  | _ => 0%Q
  end.

(** [int(f)] on a float: truncation toward zero; [OverflowError] on an
    infinity and [ValueError] on NaN. *)
Definition int_of_float (f : binary64) : result Z :=
  match f with
  | S754_infinity _ => Raise OverflowError
  | S754_nan => Raise ValueError
  | _ => Ok (py_int (float_value f))
  end.

(** [int(x_norm * dim)] *)
Definition scaled (x_norm : binary64) (dim : Z) : result Z :=
  product ← float_mul_int x_norm dim; int_of_float product.

(** [x < y] and [x <= y] on floats. *)
Definition float_lt (x y : binary64) : Prop := SFltb x y = true.
Definition float_le (x y : binary64) : Prop := SFleb x y = true.

#[global] Instance float_lt_decision (x y : binary64) : Decision (float_lt x y).
Proof. unfold float_lt. apply _. Defined.

#[global] Instance float_le_decision (x y : binary64) : Decision (float_le x y).
Proof. unfold float_le. apply _. Defined.

(** ** [SimpleKMeans] (app_lab_version/main.py) *)

Record SimpleKMeans : Type := mkSimpleKMeans {
  n_clusters : Z;
  max_iters : Z;
  centroids : option (list Q)
}.

(** [SimpleKMeans(n_clusters=3, max_iters=10)] *)
Definition SimpleKMeans_init (n iters : Z) : SimpleKMeans :=
  {| n_clusters := n; max_iters := iters; centroids := None |}.

(** [[abs(val - c) for c in centroids]] *)
Definition distances (cs : list Q) (val : Z) : list Q :=
  (fun c => Qred (Qabs (inject_Z val - c))) <$> cs.

(** [distances.index(min(distances))] *)
Definition nearest (cs : list Q) (val : Z) : result nat :=
  let ds := distances cs val in
  m ← py_minQ ds; py_index ds m.

(** One pass of [for val in data: ... clusters[cluster_idx].append(val)]. *)
Fixpoint assign_points (cs : list Q) (data : list Z)
    (clusters : list (list Z)) : result (list (list Z)) :=
  match data with
  | [] => Ok clusters
  | val :: rest =>
      cluster_idx ← nearest cs val;
      match clusters !! cluster_idx with
      | None => Raise IndexError
      | Some c => assign_points cs rest (<[cluster_idx := c ++ [val]]> clusters)
      end
  end.

(** [sum(cluster)] *)
Definition py_sum (l : list Z) : Z := foldl Z.add 0 l.

(** The body of [for i, cluster in enumerate(clusters)], from index [i]. *)
Fixpoint update_centroids (cs : list Q) (i : nat) (clusters : list (list Z))
    : result (list Q) :=
  match clusters with
  | [] => Ok []
  | cluster :: rest =>
      c ← (if decide (0 < length cluster)%nat
           then true_div (inject_Z (py_sum cluster))
                         (inject_Z (Z.of_nat (length cluster)))
           else match cs !! i with
                | Some c => Ok c
                | None => Raise IndexError
                end);
      new ← update_centroids cs (S i) rest;
      Ok (c :: new)
  end.

(** One round of the [for _ in range(self.max_iters)] loop. *)
Definition kmeans_round (n : Z) (data : list Z) (cs : list Q) : result (list Q) :=
  clusters ← assign_points cs data (replicate (Z.to_nat n) []);
  update_centroids cs 0 clusters.

(** [k] rounds; the first component is the last value assigned to
    [self.centroids], also when a round raises. *)
Fixpoint kmeans_rounds (k : nat) (n : Z) (data : list Z) (cs : list Q)
    : list Q * result unit :=
  match k with
  | O => (cs, Ok tt)
  | S k' =>
      match kmeans_round n data cs with
      | Raise e => (cs, Raise e)
      | Ok cs' => kmeans_rounds k' n data cs'
      end
  end.

(** Centroids evenly spaced across [[min_val, max_val]], in exact
    arithmetic; [initial_centroids_binary64] below is the list as
    binary64 computes it. *)
Definition initial_centroids (n min_val : Z) (step : Q) : list Q :=
  (fun i => Qred (inject_Z min_val + inject_Z i * step)) <$> py_range n.

(** [fit(self, data)]: the object after the call, and [Ok] when it
    returned ([return self]) or the exception it raised. *)
Definition fit (self : SimpleKMeans) (data : list Z) : SimpleKMeans * result unit :=
  match (min_val ← py_min data;
         max_val ← py_max data;
         step ← true_div (inject_Z (max_val - min_val))
                         (inject_Z (n_clusters self - 1));
         Ok (min_val, step)) with
  | Raise e => (self, Raise e)
  | Ok (min_val, step) =>
      let cs0 := initial_centroids (n_clusters self) min_val step in
      match kmeans_rounds (Z.to_nat (max_iters self)) (n_clusters self) data cs0 with
      | (cs, Raise e) =>
          (mkSimpleKMeans (n_clusters self) (max_iters self) (Some cs), Raise e)
      | (cs, Ok _) =>
          (mkSimpleKMeans (n_clusters self) (max_iters self)
             (Some (merge_sort Qle cs)), Ok tt)
      end
  end.

(** The first statements of [fit] in binary64: [step], and the list
    [[min_val + i * step for i in range(n_clusters)]]. *)
Definition initial_centroids_binary64 (n min_val max_val : Z)
    : result (list binary64) :=
  step ← int_true_div (max_val - min_val) (n - 1);
  mapM (fun i => p ← int_mul_float i step; int_add_float min_val p) (py_range n).


(** [predict(self, value)] *)
Definition predict (self : SimpleKMeans) (value : Z) : result nat :=
  match centroids self with
  | None => Raise TypeError
  | Some cs => nearest cs value
  end.

(** ** Python sequences *)

(** [l[i]] with Python's negative indices; [IndexError] out of range. *)
Definition py_getitem {A} (l : list A) (i : Z) : result A :=
  let j := if decide (i < 0) then i + Z.of_nat (length l) else i in
  if decide (j < 0) then Raise IndexError
  else match l !! Z.to_nat j with
       | Some a => Ok a
       | None => Raise IndexError
       end.

(** [d[k]] on a dict; [KeyError] on a missing key. *)
Definition py_dict_get `{Countable K} {V} (d : gmap K V) (k : K) : result V :=
  match d !! k with
  | Some v => Ok v
  | None => Raise KeyError
  end.

(** ** [TissueAnalyzer] (app_lab_version/main.py) *)

(** The image handed over by the decoding collaborator
    ([Image.open(...).convert('L').resize((200, 200), ...)]):
    its [size] and [list(img.getdata())]. *)
Record Image : Type := mkImage {
  size : Z * Z;
  getdata : list Z
}.

Record TissueAnalyzer : Type := mkTissueAnalyzer {
  kmeans : option SimpleKMeans;
  haptic_map : option (list (list Z));
  image_width : Z;
  image_height : Z;
  trained : bool
}.

Definition TissueAnalyzer_init : TissueAnalyzer :=
  {| kmeans := None; haptic_map := None;
     image_width := 0; image_height := 0; trained := false |}.

(** [cluster_to_density = {0: 0, 1: 128, 2: 255}] *)
Definition cluster_to_density : gmap nat Z :=
  <[2%nat := 255]> (<[1%nat := 128]> (<[0%nat := 0]> ∅)).

(** The inner [for x in range(self.image_width)] loop: one row. *)
Definition haptic_row (km : SimpleKMeans) (pixels : list Z) (width y : Z)
    : result (list Z) :=
  mapM (fun x =>
          let idx := y * width + x in
          pixel_val ← py_getitem pixels idx;
          cluster ← predict km pixel_val;
          py_dict_get cluster_to_density cluster)
       (py_range width).

(** The outer [for y in range(self.image_height)] loop; the rows appended
    so far are kept when a row raises. *)
Fixpoint haptic_rows (km : SimpleKMeans) (pixels : list Z) (width : Z)
    (ys : list Z) (rows : list (list Z)) : list (list Z) * result unit :=
  match ys with
  | [] => (rows, Ok tt)
  | y :: ys' =>
      match haptic_row km pixels width y with
      | Raise e => (rows, Raise e)
      | Ok row => haptic_rows km pixels width ys' (rows ++ [row])
      end
  end.

(** What [load_and_train] returns: the string ["success"], or
    ["error: ..."] built from the caught exception. *)
Inductive load_status : Set :=
| success
| error (e : exn).

(** [load_and_train(self, image_data)], after the decoding collaborator:
    [decoded] is the resized grayscale image, or the exception raised
    while decoding.  Every exception is caught ([except Exception]). *)
Definition load_and_train (self : TissueAnalyzer) (decoded : result Image)
    : TissueAnalyzer * load_status :=
  match decoded with
  | Raise e => (self, error e)
  | Ok img =>
      let '(w, h) := size img in
      let pixels := getdata img in
      match fit (SimpleKMeans_init 3 10) pixels with
      | (km, Raise e) =>
          (mkTissueAnalyzer (Some km) (haptic_map self) w h (trained self), error e)
      | (km, Ok _) =>
          match haptic_rows km pixels w (py_range h) [] with
          | (rows, Raise e) =>
              (mkTissueAnalyzer (Some km) (Some rows) w h (trained self), error e)
          | (rows, Ok _) =>
              (mkTissueAnalyzer (Some km) (Some rows) w h true, success)
          end
      end
  end.

(** [max(0, min(x, bound - 1))] *)
Definition clamp (x bound : Z) : Z := Z.max 0 (Z.min x (bound - 1)).

(** [get_density_at(self, x, y)] *)
Definition get_density_at (self : TissueAnalyzer) (x y : Z) : result Z :=
  match trained self, haptic_map self with
  | true, Some hm =>
      let x := clamp x (image_width self) in
      let y := clamp y (image_height self) in
      row ← py_getitem hm y;
      py_getitem row x
  | _, _ => Ok 0
  end.

(** [get_density_normalized(self, x_norm, y_norm)] *)
Definition get_density_normalized (self : TissueAnalyzer) (x_norm y_norm : binary64)
    : result Z :=
  if negb (trained self) then Ok 0
  else
    x ← scaled x_norm (image_width self);
    y ← scaled y_norm (image_height self);
    get_density_at self x y.

(** ** The serial port (pyserial, external)

    A [Serial] object is modelled by whether it is open and by the
    frames written through it, oldest first.  A write raises when the
    port is closed or when the environment makes it fail ([wire_ok]
    false); [close()] is pyserial's, which does nothing on a closed
    port. *)

Record Serial : Type := mkSerial {
  is_open : bool;
  written : list string
}.

Definition Serial_open : Serial := {| is_open := true; written := [] |}.

Definition Serial_write (s : Serial) (wire_ok : bool) (frame : string)
    : result Serial :=
  if is_open s && wire_ok
  then Ok {| is_open := true; written := written s ++ [frame] |}
  else Raise SerialException.

Definition Serial_close (s : Serial) : Serial :=
  {| is_open := false; written := written s |}.

Definition newline : string := String "010"%char EmptyString.

(** [f"D:{density}\n"] *)
Definition density_frame (density : Z) : string :=
  "D:" +:+ pretty density +:+ newline.

(** [f"M:{mode}\n"] *)
Definition mode_frame (mode : string) : string :=
  "M:" +:+ mode +:+ newline.

(** ** [MCUCommunicator] (linux_brain/haptic_scanner.py) *)

Record MCUCommunicator : Type := mkMCU {
  serial : option Serial;
  demo_mode : bool;
  last_send_time : Q;
  send_interval : Q
}.

(** [MCUCommunicator(config)] *)
Definition MCUCommunicator_init : MCUCommunicator :=
  {| serial := None; demo_mode := false;
     last_send_time := 0; send_interval := 1 # 100 |}.

(** What the environment does during [connect()]. *)
Inductive connect_env : Set :=
| open_fails          (* [serial.Serial(...)] raises *)
| ready_received      (* the port opens and "MCU_READY" arrives *)
| handshake_timeout   (* the port opens, three seconds pass *)
| read_fails.         (* the port opens, reading it raises *)

(** [connect(self)] *)
Definition connect (self : MCUCommunicator) (env : connect_env)
    : MCUCommunicator * bool :=
  match env with
  | open_fails =>
      (mkMCU (serial self) true (last_send_time self) (send_interval self), false)
  | read_fails =>
      (mkMCU (Some Serial_open) true (last_send_time self) (send_interval self), false)
  | ready_received | handshake_timeout =>
      (mkMCU (Some Serial_open) (demo_mode self)
             (last_send_time self) (send_interval self), true)
  end.

(** [send_density(self, density)] with [current_time = time.time()]. *)
Definition send_density (self : MCUCommunicator) (current_time : Q)
    (wire_ok : bool) (density : Z) : MCUCommunicator * result unit :=
  if Qlt_le_dec (current_time - last_send_time self) (send_interval self)
  then (self, Ok tt)
  else
    match serial self with
    | Some s =>
        if negb (demo_mode self) then
          match Serial_write s wire_ok (density_frame density) with
          | Ok s' =>
              (mkMCU (Some s') (demo_mode self) current_time (send_interval self),
               Ok tt)
          | Raise _ => (self, Ok tt)
          end
        else (self, Ok tt)
    | None => (self, Ok tt)
    end.

(** [set_mode(self, mode)] *)
Definition set_mode (self : MCUCommunicator) (wire_ok : bool) (mode : string)
    : MCUCommunicator * result unit :=
  match serial self with
  | Some s =>
      if negb (demo_mode self) then
        match Serial_write s wire_ok (mode_frame mode) with
        | Ok s' =>
            (mkMCU (Some s') (demo_mode self)
                   (last_send_time self) (send_interval self), Ok tt)
        | Raise _ => (self, Ok tt)
        end
      else (self, Ok tt)
  | None => (self, Ok tt)
  end.

(** [disconnect(self)] *)
Definition disconnect (self : MCUCommunicator) : MCUCommunicator * result unit :=
  match serial self with
  | Some s =>
      (mkMCU (Some (Serial_close s)) (demo_mode self)
             (last_send_time self) (send_interval self), Ok tt)
  | None => (self, Ok tt)
  end.

(** The frames this session has put on the wire, oldest first. *)
Definition wire (self : MCUCommunicator) : list string :=
  match serial self with
  | Some s => written s
  | None => []
  end.

(** One [send_density] call as the session sees it: the clock reading,
    whether the port accepts the write, and the density. *)
Record send_call : Type := mkCall {
  call_time : Q;
  call_wire_ok : bool;
  call_density : Z
}.

(** A sequence of [send_density] calls on one session. *)
Definition send_all (self : MCUCommunicator) (calls : list send_call)
    : MCUCommunicator :=
  foldl (fun m c =>
           (send_density m (call_time c) (call_wire_ok c) (call_density c)).1)
        self calls.

(** ** [HapticCalibrator] (linux_brain/calibration_tool.py) *)

(** [send_pwm(self, value)]: no [try], a failed write propagates. *)
Definition send_pwm (ser : option Serial) (wire_ok : bool) (value : Z)
    : result (option Serial) :=
  match ser with
  | Some s => s' ← Serial_write s wire_ok (density_frame value); Ok (Some s')
  | None => Ok None
  end.

(** The [finally] block of [run_all_tests]:
    [if self.serial: self.send_pwm(0); self.serial.close()]. *)
Definition calibrator_finally (ser : option Serial) (wire_ok : bool)
    : result (option Serial) :=
  match ser with
  | Some _ =>
      match send_pwm ser wire_ok 0 with
      | Ok ser' => Ok (Serial_close <$> ser')
      | Raise e => Raise e
      end
  | None => Ok None
  end.

(** ** [TissueSegmenter] (linux_brain/haptic_scanner.py) *)

(** [a.shape] of a two-dimensional array kept as its list of rows. *)
Definition shape (a : list (list Z)) : Z * Z :=
  (Z.of_nat (length a),
   match a with
   | [] => 0
   | row :: _ => Z.of_nat (length row)
   end).

(** Order on (centre, cluster id) pairs by centre, for [np.argsort]. *)
Definition by_center (a b : Q * nat) : Prop := (a.1 <= b.1)%Q.

#[global] Instance by_center_decision (a b : Q * nat) : Decision (by_center a b) :=
  Qle_decision a.1 b.1.

(** [np.argsort(centers)]: the cluster ids in ascending order of their
    centre (ties in id order). *)
Definition argsort (centers : list Q) : list nat :=
  snd <$> merge_sort by_center (zip centers (seq 0 (length centers))).

(** [self.haptic_values = {sorted_indices[0]: 0, sorted_indices[1]: 80,
    sorted_indices[2]: 255}] *)
Definition haptic_values_of (centers : list Q) : result (gmap nat Z) :=
  let sorted_indices := argsort centers in
  i0 ← py_getitem sorted_indices 0;
  i1 ← py_getitem sorted_indices 1;
  i2 ← py_getitem sorted_indices 2;
  Ok (<[i2 := 255]> (<[i1 := 80]> (<[i0 := 0]> ∅))).

(** [[self.haptic_values[label] for label in labels]] *)
Definition haptic_map_flat (haptic_values : gmap nat Z) (labels : list nat)
    : result (list Z) :=
  mapM (py_dict_get haptic_values) labels.

Record TissueSegmenter : Type := mkTissueSegmenter {
  seg_haptic_map : option (list (list Z));
  seg_haptic_values : gmap nat Z
}.

(** [get_haptic_value(self, x, y)] *)
Definition get_haptic_value (self : TissueSegmenter) (x y : Z) : result Z :=
  match seg_haptic_map self with
  | None => Ok 0
  | Some hm =>
      let '(h, w) := shape hm in
      if decide ((0 <= y ∧ y < h) ∧ (0 <= x ∧ x < w))
      then row ← py_getitem hm y; py_getitem row x
      else Ok 0
  end.

(** ** [HapticHistologyScanner] (linux_brain/haptic_scanner.py) *)

Record SystemConfig : Type := mkSystemConfig {
  haptic_mode : string;
  edge_detection_threshold : Z
}.

Record HapticHistologyScanner : Type := mkScanner {
  config : SystemConfig;
  mcu : MCUCommunicator;
  segmenter : TissueSegmenter;
  mri_image_shape : Z * Z;
  current_density : Z;
  prev_density : Z
}.

(** [process_haptic_feedback(self, mouse_x, mouse_y)]; the clock reading
    and the fate of the write are those of the nested [send_density]. *)
Definition process_haptic_feedback (self : HapticHistologyScanner)
    (current_time : Q) (wire_ok : bool) (mouse_x mouse_y : Z)
    : HapticHistologyScanner * result unit :=
  let '(h, w) := mri_image_shape self in
  if decide (¬ ((0 <= mouse_x ∧ mouse_x < w) ∧ (0 <= mouse_y ∧ mouse_y < h)))
  then (self, Ok tt)
  else
    let prev := current_density self in
    match get_haptic_value (segmenter self) mouse_x mouse_y with
    | Raise e =>
        (mkScanner (config self) (mcu self) (segmenter self)
                   (mri_image_shape self) (current_density self) prev, Raise e)
    | Ok d =>
        let '(mcu', r) := send_density (mcu self) current_time wire_ok d in
        (mkScanner (config self) mcu' (segmenter self)
                   (mri_image_shape self) d prev, r)
    end.

(** [shutdown(self)]: [self.mcu.disconnect()], then [pygame.quit()]. *)
Definition shutdown (self : HapticHistologyScanner)
    : HapticHistologyScanner * result unit :=
  let '(mcu', r) := disconnect (mcu self) in
  (mkScanner (config self) mcu' (segmenter self)
             (mri_image_shape self) (current_density self) (prev_density self), r).

(** ** Predicates used in the statements *)

(** A pixel value inside [[lo, hi]]. *)
Definition pixel_in_range (lo hi v : Z) : Prop := lo <= v <= hi.

(** A centroid inside [[lo, hi]]. *)
Definition centroid_in_range (lo hi : Z) (c : Q) : Prop :=
  (inject_Z lo <= c <= inject_Z hi)%Q.

(** The rank of a centre value: how many centres are strictly darker. *)
Definition rank_of (centers : list Q) (c : Q) : nat :=
  length (filter (fun c' => (c' < c)%Q) centers).

(** No two clusters have the same centre value. *)
Definition distinct_centers (centers : list Q) : Prop := NoDup (Qred <$> centers).

(** A cell of [TissueAnalyzer.haptic_map]: the entry of
    [cluster_to_density] for the label [predict] gives the pixel. *)
Definition cell_of (cs : list Q) (pixels : list Z) (width x y density : Z) : Prop :=
  ∃ pixel_val rank,
    py_getitem pixels (y * width + x) = Ok pixel_val
    ∧ nearest cs pixel_val = Ok rank
    ∧ cluster_to_density !! rank = Some density.

(** ** Web UI handlers and bridge state (app_lab_version/main.py) *)

Module AppLab.

(** [ui.send_message(event, payload)], as the list of messages sent. *)
Inductive ui_message : Type :=
| image_loaded (status : load_status)
| density_update (density : Z) (x y : binary64)
| mode_changed (mode : string).

(** The module's globals: [analyzer], [current_density], [current_mode],
    and the messages handed to [ui]. *)
Record App : Type := mkApp {
  analyzer : TissueAnalyzer;
  current_density : Z;
  current_mode : string;
  sent : list ui_message
}.

Definition App_init : App :=
  {| analyzer := TissueAnalyzer_init; current_density := 0;
     current_mode := "DIRECT"; sent := [] |}.

(** What [on_load_image] returns. *)
Inductive image_reply : Set :=
| trained_reply (status : load_status)
| no_image_data.

(** [on_load_image(client, data)]; the value under ['image'] is given
    as the outcome of decoding it. *)
Definition on_load_image (app : App) (data : gmap string (result Image))
    : App * image_reply :=
  match data !! "image" with
  | Some decoded =>
      let '(a, status) := load_and_train (analyzer app) decoded in
      (mkApp a (current_density app) (current_mode app)
             (sent app ++ [image_loaded status]),
       trained_reply status)
  | None => (app, no_image_data)
  end.

(** [on_get_density(client, data)]; the coordinates under ['x'] and
    ['y'] are floats, as [get_density_normalized] annotates them.  The
    handler has no [try]: what the query raises, it raises. *)
Definition on_get_density (app : App) (data : gmap string binary64)
    : App * result Z :=
  match data !! "x", data !! "y" with
  | Some x, Some y =>
      match get_density_normalized (analyzer app) x y with
      | Raise e => (app, Raise e)
      | Ok density =>
          (mkApp (analyzer app) density (current_mode app)
                 (sent app ++ [density_update density x y]),
           Ok density)
      end
  | _, _ => (app, Ok 0)
  end.

(** [on_set_mode(client, data)] *)
Definition on_set_mode (app : App) (data : gmap string string) : App * string :=
  match data !! "mode" with
  | Some mode =>
      (mkApp (analyzer app) (current_density app) mode
             (sent app ++ [mode_changed mode]),
       "Mode set to " +:+ mode)
  | None => (app, "error: no mode specified")
  end.

(** [get_current_density()] and [get_current_mode()] *)
Definition get_current_density (app : App) : Z := current_density app.
Definition get_current_mode (app : App) : string := current_mode app.

(** [load_image], [get_density], [get_density_norm]: the bridge
    functions offered to the sketch. *)
Definition load_image (app : App) (decoded : result Image) : App * load_status :=
  let '(a, status) := load_and_train (analyzer app) decoded in
  (mkApp a (current_density app) (current_mode app) (sent app), status).
Definition get_density (app : App) (x y : Z) : result Z :=
  get_density_at (analyzer app) x y.
Definition get_density_norm (app : App) (x_norm y_norm : binary64) : result Z :=
  get_density_normalized (analyzer app) x_norm y_norm.

(** One message from the web UI. *)
Inductive ui_event : Type :=
| msg_load_image (data : gmap string (result Image))
| msg_get_density (data : gmap string binary64)
| msg_set_mode (data : gmap string string).

(** The handler registered for each message; [Raise] when it raises. *)
Definition dispatch (app : App) (ev : ui_event) : App * result unit :=
  match ev with
  | msg_load_image data => ((on_load_image app data).1, Ok tt)
  | msg_get_density data =>
      let '(app', r) := on_get_density app data in
      (app', match r with Ok _ => Ok tt | Raise e => Raise e end)
  | msg_set_mode data => ((on_set_mode app data).1, Ok tt)
  end.

(** A session of messages; the handlers' outcomes are collected. *)
Fixpoint dispatch_all (app : App) (evs : list ui_event)
    : App * list (result unit) :=
  match evs with
  | [] => (app, [])
  | ev :: evs' =>
      let '(app', r) := dispatch app ev in
      let '(app'', rs) := dispatch_all app' evs' in
      (app'', r :: rs)
  end.

End AppLab.

(** ** Sequences of calls on one [MCUCommunicator] *)

Inductive mcu_call : Type :=
| do_send_density (current_time : Q) (wire_ok : bool) (density : Z)
| do_set_mode (wire_ok : bool) (mode : string)
| do_disconnect.

Definition mcu_step (self : MCUCommunicator) (c : mcu_call)
    : MCUCommunicator * result unit :=
  match c with
  | do_send_density current_time wire_ok density =>
      send_density self current_time wire_ok density
  | do_set_mode wire_ok mode => set_mode self wire_ok mode
  | do_disconnect => disconnect self
  end.

Fixpoint mcu_run (self : MCUCommunicator) (calls : list mcu_call)
    : MCUCommunicator * list (result unit) :=
  match calls with
  | [] => (self, [])
  | c :: calls' =>
      let '(self', r) := mcu_step self c in
      let '(self'', rs) := mcu_run self' calls' in
      (self'', r :: rs)
  end.

(** ** [TissueSegmenter.get_overlay_image] *)

(** [overlay[haptic_map == haptic_val] = color] *)
Definition mask_assign (hm : list (list Z)) (haptic_val : Z) (color : list Z)
    (overlay : list (list (list Z))) : list (list (list Z)) :=
  zip_with (zip_with (fun v c => if decide (v = haptic_val) then color else c))
           hm overlay.

(** [colors = {0: [0, 0, 50], 80: [0, 255, 0], 255: [255, 0, 0]}],
    in insertion order. *)
Definition overlay_colors : list (Z * list Z) :=
  [(0, [0; 0; 50]); (80, [0; 255; 0]); (255, [255; 0; 0])].

(** [np.zeros((h, w, 3))] *)
Definition zeros3 (h w : Z) : list (list (list Z)) :=
  replicate (Z.to_nat h) (replicate (Z.to_nat w) [0; 0; 0]).

(** [get_overlay_image(self)], with [self.config.display_size]. *)
Definition get_overlay_image (self : TissueSegmenter) (display_size : Z * Z)
    : list (list (list Z)) :=
  match seg_haptic_map self with
  | None => zeros3 display_size.2 display_size.1
  | Some hm =>
      let '(h, w) := shape hm in
      foldl (fun overlay '(haptic_val, color) =>
               mask_assign hm haptic_val color overlay)
            (zeros3 h w) overlay_colors
  end.

(** ** The rest of [HapticHistologyScanner]: input, metrics, main loop *)

Inductive pygame_key : Set :=
| K_ESCAPE | K_SPACE | K_1 | K_2 | K_3 | K_4 | K_other.

Inductive pygame_event : Set :=
| QUIT
| KEYDOWN (key : pygame_key)
| other_event.

(** The scanner together with its remaining attributes. *)
Record ScannerApp : Type := mkScannerApp {
  core : HapticHistologyScanner;
  running : bool;
  show_overlay : bool;
  frame_count : Z;
  fps : Q;
  last_fps_update : Q
}.

(** [_set_haptic_mode(self, mode)] *)
Definition _set_haptic_mode (self : HapticHistologyScanner) (wire_ok : bool)
    (mode : string) : HapticHistologyScanner * result unit :=
  let config' := mkSystemConfig mode (edge_detection_threshold (config self)) in
  let '(mcu', r) := set_mode (mcu self) wire_ok mode in
  (mkScanner config' mcu' (segmenter self) (mri_image_shape self)
             (current_density self) (prev_density self), r).

(** The body of [for event in pygame.event.get()]; [wire_ok] is the fate
    of the write the event may cause. *)
Definition handle_event (self : ScannerApp) (event : pygame_event)
    (wire_ok : bool) : ScannerApp :=
  let set mode :=
    mkScannerApp (_set_haptic_mode (core self) wire_ok mode).1 (running self)
                 (show_overlay self) (frame_count self) (fps self)
                 (last_fps_update self) in
  match event with
  | QUIT =>
      mkScannerApp (core self) false (show_overlay self) (frame_count self)
                   (fps self) (last_fps_update self)
  | KEYDOWN K_ESCAPE =>
      mkScannerApp (core self) false (show_overlay self) (frame_count self)
                   (fps self) (last_fps_update self)
  | KEYDOWN K_SPACE =>
      mkScannerApp (core self) (running self) (negb (show_overlay self))
                   (frame_count self) (fps self) (last_fps_update self)
  | KEYDOWN K_1 => set "DIRECT"
  | KEYDOWN K_2 => set "TEXTURE"
  | KEYDOWN K_3 => set "TUMOR_LOCK"
  | KEYDOWN K_4 => set "EDGE_DETECT"
  | KEYDOWN K_other => self
  | other_event => self
  end.

(** [handle_input(self)] on the events pending this frame. *)
Definition handle_input (self : ScannerApp) (events : list (pygame_event * bool))
    : ScannerApp :=
  foldl (fun s '(event, wire_ok) => handle_event s event wire_ok) self events.

(** [update_fps(self)] with [current_time = time.time()]. *)
Definition update_fps (self : ScannerApp) (current_time : Q)
    : ScannerApp * result unit :=
  let frame_count' := frame_count self + 1 in
  if Qlt_le_dec (current_time - last_fps_update self) 1
  then (mkScannerApp (core self) (running self) (show_overlay self) frame_count'
                     (fps self) (last_fps_update self), Ok tt)
  else
    match true_div (inject_Z frame_count') (current_time - last_fps_update self) with
    | Ok fps' =>
        (mkScannerApp (core self) (running self) (show_overlay self) 0
                      fps' current_time, Ok tt)
    | Raise e =>
        (mkScannerApp (core self) (running self) (show_overlay self) frame_count'
                      (fps self) (last_fps_update self), Raise e)
    end.

(** What the environment supplies during one pass of the main loop. *)
Record frame_input : Type := mkFrame {
  frame_events : list (pygame_event * bool);
  frame_mouse : Z * Z;
  frame_send_time : Q;
  frame_wire_ok : bool;
  frame_fps_time : Q
}.

(** One pass of the [while self.running] body (rendering and the frame
    governor are external). *)
Definition tick (self : ScannerApp) (f : frame_input) : ScannerApp * result unit :=
  let s1 := handle_input self (frame_events f) in
  let '(core', r) :=
    process_haptic_feedback (core s1) (frame_send_time f) (frame_wire_ok f)
                            (frame_mouse f).1 (frame_mouse f).2 in
  let s2 := mkScannerApp core' (running s1) (show_overlay s1) (frame_count s1)
                         (fps s1) (last_fps_update s1) in
  match r with
  | Raise e => (s2, Raise e)
  | Ok _ => update_fps s2 (frame_fps_time f)
  end.

(** [shutdown] on the whole object. *)
Definition shutdown_app (self : ScannerApp) : ScannerApp * result unit :=
  let '(core', r) := shutdown (core self) in
  (mkScannerApp core' (running self) (show_overlay self) (frame_count self)
                (fps self) (last_fps_update self), r).

(** [run(self)] after [initialize()], on the frames the environment
    supplies: [None] while the loop is still waiting for a frame, else the
    object after [shutdown()] or at the exception that left the loop. *)
Fixpoint run (self : ScannerApp) (frames : list frame_input)
    : option (ScannerApp * result unit) :=
  if running self then
    match frames with
    | [] => None
    | f :: frames' =>
        match tick self f with
        | (self', Raise e) => Some (self', Raise e)
        | (self', Ok _) => run self' frames'
        end
    end
  else Some (shutdown_app self).

(** [main()]: [app.run()], with [app.shutdown()] in the handler of any
    exception. *)
Definition main (self : ScannerApp) (frames : list frame_input)
    : option (ScannerApp * result unit) :=
  match run self frames with
  | None => None
  | Some (self', Ok _) => Some (self', Ok tt)
  | Some (self', Raise _) => Some (shutdown_app self')
  end.

(** ** The rest of [HapticCalibrator] (linux_brain/calibration_tool.py) *)

(** The fate of successive writes on the port, first attempt first; a
    port with no entry left accepts. *)
Definition next_ok (env : list bool) : bool * list bool :=
  match env with
  | [] => (true, [])
  | ok :: env' => (ok, env')
  end.

(** [self.send_pwm(value)] against such a port. *)
Definition cal_send_pwm (ser : option Serial) (env : list bool) (value : Z)
    : result unit * option Serial * list bool :=
  match ser with
  | None => (Ok tt, None, env)
  | Some _ =>
      let '(ok, env') := next_ok env in
      match send_pwm ser ok value with
      | Ok ser' => (Ok tt, ser', env')
      | Raise e => (Raise e, ser, env')
      end
  end.

(** [range(start, stop, step)]; [ValueError] when [step] is zero. *)
Definition py_range_step (start stop step : Z) : result (list Z) :=
  if decide (step = 0) then Raise ValueError
  else if decide (0 < step)
       then Ok ((fun i => start + i * step)
                  <$> seqZ 0 ((stop - start + step - 1) `div` step))
       else Ok ((fun i => start + i * step)
                  <$> seqZ 0 ((start - stop - step - 1) `div` (- step))).

(** The [for pwm in range(...)] loop of [run_sweep]. *)
Fixpoint sweep_loop (values : list Z) (ser : option Serial) (env : list bool)
    : result unit * option Serial * list bool :=
  match values with
  | [] => (Ok tt, ser, env)
  | pwm :: values' =>
      match cal_send_pwm ser env pwm with
      | (Raise e, ser', env') => (Raise e, ser', env')
      | (Ok _, ser', env') => sweep_loop values' ser' env'
      end
  end.

(** [run_sweep(self)] with [self.config.pwm_step]. *)
Definition run_sweep (pwm_step : Z) (ser : option Serial) (env : list bool)
    : result unit * option Serial * list bool :=
  match py_range_step 0 256 pwm_step with
  | Raise e => (Raise e, ser, env)
  | Ok values =>
      match sweep_loop values ser env with
      | (Raise e, ser', env') => (Raise e, ser', env')
      | (Ok _, ser', env') => cal_send_pwm ser' env' 0
      end
  end.

(** What [input("\nPWM> ")] yields: a line, already stripped and
    lower-cased, or Ctrl-C. *)
Inductive user_input : Type :=
| line (s : string)
| keyboard_interrupt.

Section interactive.
(** [int(user_input)], Python's parser of integer literals. *)
Context (py_int_of_string : string → result Z).

(** The [while True] loop of [interactive_test]: [None] while it still
    waits for input. *)
Fixpoint interactive_loop (pwm_step : Z) (inputs : list user_input)
    (ser : option Serial) (env : list bool)
    : option (result unit * option Serial * list bool) :=
  match inputs with
  | [] => None
  | keyboard_interrupt :: _ => Some (Ok tt, ser, env)
  | line s :: inputs' =>
      if decide (s = "q") then Some (Ok tt, ser, env)
      else if decide (s = "sweep") then
        match run_sweep pwm_step ser env with
        | (Raise ValueError, ser', env') =>
            interactive_loop pwm_step inputs' ser' env'
        | (Raise e, ser', env') => Some (Raise e, ser', env')
        | (Ok _, ser', env') => interactive_loop pwm_step inputs' ser' env'
        end
      else
        match py_int_of_string s with
        | Raise ValueError => interactive_loop pwm_step inputs' ser env
        | Raise e => Some (Raise e, ser, env)
        | Ok pwm =>
            if decide (0 <= pwm ∧ pwm <= 255) then
              match cal_send_pwm ser env pwm with
              | (Raise e, ser', env') => Some (Raise e, ser', env')
              | (Ok _, ser', env') => interactive_loop pwm_step inputs' ser' env'
              end
            else interactive_loop pwm_step inputs' ser env
        end
  end.

(** [interactive_test(self)] *)
Definition interactive_test (pwm_step : Z) (inputs : list user_input)
    (ser : option Serial) (env : list bool)
    : option (result unit * option Serial * list bool) :=
  match interactive_loop pwm_step inputs ser env with
  | None => None
  | Some (Raise e, ser', env') => Some (Raise e, ser', env')
  | Some (Ok _, ser', env') => Some (cal_send_pwm ser' env' 0)
  end.
End interactive.

(** ** [run_all_tests] (linux_brain/test_system.py) *)

(** The tests are external; each either returns a flag or raises, and a
    test that raises is recorded as failed. *)
Definition test_results (outcomes : list (string * result bool))
    : list (string * bool) :=
  (fun '(name, r) => (name, match r with Ok b => b | Raise _ => false end))
    <$> outcomes.

(** [run_all_tests()]: the exit code. *)
Definition run_all_tests (outcomes : list (string * result bool)) : Z :=
  let results := test_results outcomes in
  let passed := Z.of_nat (length (filter (fun p => p.2 = true) results)) in
  let total := Z.of_nat (length results) in
  if decide (passed = total) then 0 else 1.

(** ** The main loop of linux_brain/scanner.py *)

(** [f"{tissue_density}\n"]: the frame of the first prototype. *)
Definition legacy_frame (value : Z) : string := pretty value +:+ newline.

(** Steps 3 and 4 of the loop body: the pixel under the cursor, raised
    to 255 on a horizontal edge. *)
Definition scanner_density (img_cv : list (list Z)) (mouse_x mouse_y : Z)
    : result Z :=
  let '(h, w) := shape img_cv in
  row ← py_getitem img_cv mouse_y;
  tissue_density ← py_getitem row mouse_x;
  if decide (mouse_x < w - 1) then
    next_pixel ← py_getitem row (mouse_x + 1);
    let gradient := Z.abs (tissue_density - next_pixel) in
    if decide (50 < gradient) then Ok 255 else Ok tissue_density
  else Ok tissue_density.

(** Steps 1 to 5 of the loop body. *)
Definition scanner_tick (img_cv : list (list Z)) (ser : option Serial)
    (wire_ok : bool) (mouse_x mouse_y : Z) : result (option Serial) :=
  let '(h, w) := shape img_cv in
  if decide ((0 <= mouse_x ∧ mouse_x < w) ∧ (0 <= mouse_y ∧ mouse_y < h)) then
    tissue_density ← scanner_density img_cv mouse_x mouse_y;
    match ser with
    | Some s =>
        s' ← Serial_write s wire_ok (legacy_frame tissue_density);
        Ok (Some s')
    | None => Ok None
    end
  else Ok ser.

(** ** More predicates used in the statements *)

(** The three density levels of the [TissueAnalyzer] map. *)
Definition density_level (d : Z) : Prop := d = 0 ∨ d = 128 ∨ d = 255.

(** A decoded image as PIL hands it over: positive size, one pixel per
    position. *)
Definition well_formed_image (img : Image) : Prop :=
  0 < (size img).1 ∧ 0 < (size img).2
  ∧ Z.of_nat (length (getdata img)) = (size img).1 * (size img).2.

(** A two-dimensional array: every row has the width of [shape]. *)
Definition rectangular (a : list (list Z)) : Prop :=
  Forall (fun row => Z.of_nat (length row) = (shape a).2) a.

(** The session cannot write: offline, never opened, or closed. *)
Definition cannot_write (self : MCUCommunicator) : Prop :=
  demo_mode self = true
  ∨ match serial self with
    | None => True
    | Some s => is_open s = false
    end.

(** The colour [get_overlay_image] gives a haptic value. *)
Definition color_of (v : Z) : list Z :=
  if decide (v = 255) then [255; 0; 0]
  else if decide (v = 80) then [0; 255; 0]
  else if decide (v = 0) then [0; 0; 50]
  else [0; 0; 0].

(** The mode the last mode key of a frame selects, [mode] if none. *)
Fixpoint last_mode_key (mode : string) (events : list (pygame_event * bool))
    : string :=
  match events with
  | [] => mode
  | (KEYDOWN K_1, _) :: events' => last_mode_key "DIRECT" events'
  | (KEYDOWN K_2, _) :: events' => last_mode_key "TEXTURE" events'
  | (KEYDOWN K_3, _) :: events' => last_mode_key "TUMOR_LOCK" events'
  | (KEYDOWN K_4, _) :: events' => last_mode_key "EDGE_DETECT" events'
  | _ :: events' => last_mode_key mode events'
  end.

(** An event that ends the main loop. *)
Definition stops (event : pygame_event) : bool :=
  match event with
  | QUIT | KEYDOWN K_ESCAPE => true
  | _ => false
  end.

(** A web message whose image, if it carries one that decodes, is
    well formed. *)
Definition well_formed_message (ev : AppLab.ui_event) : Prop :=
  match ev with
  | AppLab.msg_load_image data =>
      match data !! "image" with
      | Some (Ok img) => well_formed_image img
      | _ => True
      end
  | _ => True
  end.

(** The mode the last mode message of a session names, [mode] if none
    does. *)
Fixpoint last_mode_message (mode : string) (evs : list AppLab.ui_event) : string :=
  match evs with
  | [] => mode
  | AppLab.msg_set_mode data :: evs' =>
      last_mode_message (default mode (data !! "mode")) evs'
  | _ :: evs' => last_mode_message mode evs'
  end.

(** Every normalized query of the analyzer answers with a density
    level, or raises what [int()] raises on a coordinate product. *)
Definition answers_levels (a : TissueAnalyzer) : Prop :=
  ∀ x_norm y_norm,
    match get_density_normalized a x_norm y_norm with
    | Ok d => density_level d
    | Raise e => e = OverflowError ∨ e = ValueError
    end.

(** The data values that a round assigns to centroid [j]: those whose
    nearest centroid (the first one on a tie) is [j], in data order. *)
Definition partition_of (cs : list Q) (data : list Z) (j : nat) : list Z :=
  filter (fun val => nearest cs val = Ok j) data.




(** The clock readings of the [send_density] calls of a sequence, and
    the number of its [set_mode] calls. *)
Definition send_times (calls : list mcu_call) : list Q :=
  omap (fun c => match c with
                 | do_send_density current_time _ _ => Some current_time
                 | _ => None
                 end) calls.

Fixpoint mode_calls (calls : list mcu_call) : nat :=
  match calls with
  | [] => O
  | do_set_mode _ _ :: calls' => S (mode_calls calls')
  | _ :: calls' => mode_calls calls'
  end.

(** A frame that starts with [D], and one that starts with [M]. *)
Definition is_density_frame (frame : string) : bool :=
  match frame with
  | String "D"%char _ => true
  | _ => false
  end.

Definition is_mode_frame (frame : string) : bool :=
  match frame with
  | String "M"%char _ => true
  | _ => false
  end.

(** A sequence of calls without its [set_mode] calls, and the modes
    that those calls name. *)
Fixpoint without_modes (calls : list mcu_call) : list mcu_call :=
  match calls with
  | [] => []
  | do_set_mode _ _ :: calls' => without_modes calls'
  | c :: calls' => c :: without_modes calls'
  end.

Fixpoint modes_of (calls : list mcu_call) : list string :=
  match calls with
  | [] => []
  | do_set_mode _ mode :: calls' => mode :: modes_of calls'
  | _ :: calls' => modes_of calls'
  end.

(** The session is connected: it is not offline and its port is open. *)
Definition connected (self : MCUCommunicator) : Prop :=
  demo_mode self = false ∧ ∃ s, serial self = Some s ∧ is_open s = true.

(** A call that leaves the port usable: any [send_density] (its write
    may fail), or a [set_mode] whose write the port accepts. *)
Definition keeps_port (c : mcu_call) : Prop :=
  match c with
  | do_send_density _ _ _ => True
  | do_set_mode wire_ok _ => wire_ok = true
  | do_disconnect => False
  end.

(** The port of the session, if it has one, is closed. *)
Definition port_released (self : MCUCommunicator) : Prop :=
  match serial self with
  | None => True
  | Some s => is_open s = false
  end.

(** * Sanity checks on concrete inputs *)

Example fit_bands :
  fit (SimpleKMeans_init 3 10) [20; 150; 240; 20; 150; 240]
  = (mkSimpleKMeans 3 10 (Some [20#1; 150#1; 240#1])%Q, Ok tt).
Proof. vm_compute. reflexivity. Qed.

Example fit_one_cluster :
  fit (SimpleKMeans_init 1 10) [80] = (SimpleKMeans_init 1 10, Raise ZeroDivisionError).
Proof. vm_compute. reflexivity. Qed.

Example fit_no_cluster :
  fit (SimpleKMeans_init 0 10) [80] = (mkSimpleKMeans 0 10 (Some []), Raise ValueError).
Proof. vm_compute. reflexivity. Qed.

Example fit_uniform :
  fit (SimpleKMeans_init 3 10) [80; 80; 80; 80]
  = (mkSimpleKMeans 3 10 (Some [80#1; 80#1; 80#1])%Q, Ok tt).
Proof. vm_compute. reflexivity. Qed.

(** * Properties *)

(** ** Order on centroids *)

#[global] Instance Qle_total : Total Qle.
Proof. intros x y. destruct (Qlt_le_dec x y); [left; lra | right; lra]. Qed.

#[global] Instance Qle_transitive : Transitive Qle.
Proof. intros x y z ??. lra. Qed.


(** ** Results *)

Lemma bind_Ok {A B} (f : A → result B) (r : result A) (b : B) :
  r ≫= f = Ok b ↔ ∃ a, r = Ok a ∧ f a = Ok b.
Proof.
  destruct r as [a|e]; simpl; split.
  - intros H. by exists a.
  - by intros (a' & [= ->] & H).
  - intros [=].
  - by intros (a' & [=] & _).
Qed.

Lemma py_getitem_Ok {A} (l : list A) (i : Z) (a : A) :
  0 <= i → l !! Z.to_nat i = Some a → py_getitem l i = Ok a.
Proof.
  intros Hi Ha. unfold py_getitem.
  destruct (decide (i < 0)) as [?|_]; [lia|]. cbv zeta.
  destruct (decide (i < 0)) as [?|_]; [lia|]. by rewrite Ha.
Qed.

(** ** Minimum, maximum and sum of pixel lists *)

Lemma foldl_min_spec (l : list Z) (x : Z) :
  foldl Z.min x l <= x ∧ Forall (Z.le (foldl Z.min x l)) l
  ∧ foldl Z.min x l ∈ x :: l.
Proof.
  revert x. induction l as [|y l IH]; intros x; simpl.
  - split; [lia|]. split; [constructor | by apply list_elem_of_singleton].
  - destruct (IH (Z.min x y)) as (Hle & Hall & Hin).
    split; [lia|]. split.
    + constructor; [lia | done].
    + apply elem_of_cons in Hin as [Hin | Hin].
      * rewrite Hin. rewrite !elem_of_cons.
        destruct (Z.min_spec x y) as [[_ ->] | [_ ->]]; auto.
      * rewrite !elem_of_cons. auto.
Qed.

Lemma foldl_max_spec (l : list Z) (x : Z) :
  x <= foldl Z.max x l ∧ Forall (fun y => y <= foldl Z.max x l) l
  ∧ foldl Z.max x l ∈ x :: l.
Proof.
  revert x. induction l as [|y l IH]; intros x; simpl.
  - split; [lia|]. split; [constructor | by apply list_elem_of_singleton].
  - destruct (IH (Z.max x y)) as (Hle & Hall & Hin).
    split; [lia|]. split.
    + constructor; [lia | done].
    + apply elem_of_cons in Hin as [Hin | Hin].
      * rewrite Hin. rewrite !elem_of_cons.
        destruct (Z.max_spec x y) as [[_ ->] | [_ ->]]; auto.
      * rewrite !elem_of_cons. auto.
Qed.

Lemma py_min_Ok (data : list Z) :
  data ≠ [] →
  ∃ m, py_min data = Ok m ∧ m ∈ data ∧ Forall (Z.le m) data.
Proof.
  destruct data as [|x l]; [done|]. intros _.
  destruct (foldl_min_spec l x) as (Hle & Hall & Hin).
  exists (foldl Z.min x l). split; [done|]. split; [done|].
  by constructor.
Qed.

Lemma py_max_Ok (data : list Z) :
  data ≠ [] →
  ∃ M, py_max data = Ok M ∧ M ∈ data ∧ Forall (fun y => y <= M) data.
Proof.
  destruct data as [|x l]; [done|]. intros _.
  destruct (foldl_max_spec l x) as (Hle & Hall & Hin).
  exists (foldl Z.max x l). split; [done|]. split; [done|].
  by constructor.
Qed.

Lemma py_min_empty : py_min [] = Raise ValueError.
Proof. done. Qed.

Lemma foldl_add_acc (l : list Z) (a : Z) : foldl Z.add a l = a + foldl Z.add 0 l.
Proof.
  revert a. induction l as [|y l IH]; intros a; simpl; [lia|].
  rewrite (IH (a + y)), (IH (0 + y)). lia.
Qed.

Lemma py_sum_cons (x : Z) (l : list Z) : py_sum (x :: l) = x + py_sum l.
Proof. unfold py_sum. simpl. by rewrite foldl_add_acc. Qed.

Lemma py_sum_bounds (lo hi : Z) (l : list Z) :
  Forall (pixel_in_range lo hi) l →
  lo * Z.of_nat (length l) <= py_sum l <= hi * Z.of_nat (length l).
Proof.
  induction 1 as [|v l Hv _ IH].
  - unfold py_sum. simpl. lia.
  - rewrite py_sum_cons. cbn [length]. unfold pixel_in_range in Hv. lia.
Qed.

(** ** Means *)

Lemma inject_Z_length_pos (l : list Z) :
  (0 < length l)%nat → (0 < inject_Z (Z.of_nat (length l)))%Q.
Proof.
  intros H. change 0%Q with (inject_Z 0). rewrite <- Zlt_Qlt. lia.
Qed.

Lemma true_div_Ok (a b : Q) :
  ¬ (b == 0)%Q → true_div a b = Ok (Qred (a / b)).
Proof.
  intros Hb. unfold true_div.
  destruct (Qeq_bool b 0) eqn:E; [|done].
  by apply Qeq_bool_eq in E.
Qed.

Lemma true_div_zero (a b : Q) :
  (b == 0)%Q → true_div a b = Raise ZeroDivisionError.
Proof.
  intros Hb. unfold true_div. by rewrite (Qeq_eq_bool _ _ Hb).
Qed.

Lemma mean_in_range (lo hi : Z) (cluster : list Z) :
  (0 < length cluster)%nat →
  Forall (pixel_in_range lo hi) cluster →
  ∃ c, true_div (inject_Z (py_sum cluster))
                (inject_Z (Z.of_nat (length cluster))) = Ok c
       ∧ centroid_in_range lo hi c.
Proof.
  intros Hlen Hall.
  pose proof (inject_Z_length_pos _ Hlen) as Hpos.
  pose proof (py_sum_bounds _ _ _ Hall) as [Hlo Hhi].
  eexists. split.
  - apply true_div_Ok. lra.
  - unfold centroid_in_range. rewrite Qred_correct.
    rewrite Zle_Qle, inject_Z_mult in Hlo, Hhi.
    split.
    + by apply Qle_shift_div_l.
    + by apply Qle_shift_div_r.
Qed.

(** ** Nearest centroid *)

Lemma foldl_Qmin1_elem (l : list Q) (x : Q) : foldl Qmin1 x l ∈ x :: l.
Proof.
  revert x. induction l as [|y l IH]; intros x; simpl.
  - by apply list_elem_of_singleton.
  - specialize (IH (Qmin1 x y)). rewrite !elem_of_cons in *.
    destruct IH as [-> | ?]; [|auto].
    unfold Qmin1. case_decide; auto.
Qed.

Lemma py_minQ_Ok (l : list Q) :
  l ≠ [] → ∃ m, py_minQ l = Ok m ∧ m ∈ l.
Proof.
  destruct l as [|x l]; [done|]. intros _.
  exists (foldl Qmin1 x l). split; [done | apply foldl_Qmin1_elem].
Qed.

Lemma py_index_Ok (l : list Q) (m : Q) :
  m ∈ l → ∃ i, py_index l m = Ok i ∧ (i < length l)%nat.
Proof.
  induction l as [|x l IH]; intros Hin.
  - by apply elem_of_nil in Hin.
  - simpl. destruct (Qeq_bool x m) eqn:E.
    + exists O. split; [done | lia].
    + apply elem_of_cons in Hin as [-> | Hin].
      * by rewrite Qeq_bool_refl in E.
      * destruct (IH Hin) as (i & -> & Hi). exists (S i). split; [done | lia].
Qed.

Lemma nearest_Ok (cs : list Q) (val : Z) :
  cs ≠ [] → ∃ i, nearest cs val = Ok i ∧ (i < length cs)%nat.
Proof.
  intros Hcs. unfold nearest.
  destruct (py_minQ_Ok (distances cs val)) as (m & -> & Hm).
  { unfold distances. by destruct cs. }
  destruct (py_index_Ok _ _ Hm) as (i & Hi & Hlt).
  exists i. split; [done|].
  unfold distances in Hlt. by rewrite length_fmap in Hlt.
Qed.

Lemma nearest_nil (val : Z) : nearest [] val = Raise ValueError.
Proof. done. Qed.

(** ** One round *)

Section round.
Context (lo hi : Z).

Lemma assign_points_Ok (cs : list Q) (data : list Z) (clusters : list (list Z)) :
  cs ≠ [] →
  (length cs <= length clusters)%nat →
  Forall (pixel_in_range lo hi) data →
  Forall (Forall (pixel_in_range lo hi)) clusters →
  ∃ clusters',
    assign_points cs data clusters = Ok clusters'
    ∧ length clusters' = length clusters
    ∧ Forall (Forall (pixel_in_range lo hi)) clusters'.
Proof.
  intros Hcs. revert clusters.
  induction data as [|val rest IH]; intros clusters Hlen Hdata Hcl; simpl.
  - by exists clusters.
  - destruct (nearest_Ok cs val Hcs) as (i & -> & Hi). simpl.
    destruct (lookup_lt_is_Some_2 clusters i) as [c Hc]; [lia|].
    rewrite Hc.
    apply Forall_cons in Hdata as [Hval Hrest].
    destruct (IH (<[i := c ++ [val]]> clusters)) as (cl' & Hcl' & Hlen' & Hall').
    + by rewrite length_insert.
    + done.
    + apply Forall_insert; [done|].
      apply Forall_app. split; [|by apply Forall_singleton].
      by eapply (proj1 (Forall_lookup _ _) Hcl).
    + exists cl'. rewrite length_insert in Hlen'. done.
Qed.

Lemma update_centroids_Ok (cs : list Q) (i : nat) (clusters : list (list Z)) :
  (i + length clusters <= length cs)%nat →
  Forall (centroid_in_range lo hi) cs →
  Forall (Forall (pixel_in_range lo hi)) clusters →
  ∃ new,
    update_centroids cs i clusters = Ok new
    ∧ length new = length clusters
    ∧ Forall (centroid_in_range lo hi) new.
Proof.
  revert i. induction clusters as [|cluster rest IH]; intros i Hlen Hcs Hcl; simpl.
  - by exists [].
  - apply Forall_cons in Hcl as [Hcluster Hrest]. simpl in Hlen.
    destruct (IH (S i)) as (new & Hnew & Hlen' & Hall'); [lia | done | done |].
    rewrite Hnew. case_decide as Hne.
    + destruct (mean_in_range lo hi cluster Hne Hcluster) as (c & -> & Hc).
      simpl. exists (c :: new). split; [done|]. split; [simpl; lia|].
      by constructor.
    + destruct (lookup_lt_is_Some_2 cs i) as [c Hc]; [lia|].
      rewrite Hc. simpl. exists (c :: new). split; [done|].
      split; [simpl; lia|]. constructor; [|done].
      by eapply (proj1 (Forall_lookup _ _) Hcs).
Qed.

Lemma kmeans_round_Ok (n : Z) (data : list Z) (cs : list Q) :
  0 < n →
  length cs = Z.to_nat n →
  Forall (pixel_in_range lo hi) data →
  Forall (centroid_in_range lo hi) cs →
  ∃ cs',
    kmeans_round n data cs = Ok cs'
    ∧ length cs' = Z.to_nat n
    ∧ Forall (centroid_in_range lo hi) cs'.
Proof.
  intros Hn Hlen Hdata Hcs. unfold kmeans_round.
  destruct (assign_points_Ok cs data (replicate (Z.to_nat n) []))
    as (clusters & -> & Hlen' & Hall).
  - intros ->. simpl in Hlen. lia.
  - rewrite length_replicate. lia.
  - done.
  - by apply Forall_replicate.
  - simpl. rewrite length_replicate in Hlen'.
    destruct (update_centroids_Ok cs 0 clusters) as (new & Hnew & ? & ?);
      [lia | done | done |].
    exists new. split; [done|]. split; [lia | done].
Qed.

Lemma kmeans_rounds_Ok (k : nat) (n : Z) (data : list Z) (cs : list Q) :
  0 < n →
  length cs = Z.to_nat n →
  Forall (pixel_in_range lo hi) data →
  Forall (centroid_in_range lo hi) cs →
  ∃ cs',
    kmeans_rounds k n data cs = (cs', Ok tt)
    ∧ length cs' = Z.to_nat n
    ∧ Forall (centroid_in_range lo hi) cs'.
Proof.
  intros Hn. revert cs. induction k as [|k IH]; intros cs Hlen Hdata Hcs; simpl.
  - by exists cs.
  - destruct (kmeans_round_Ok n data cs) as (cs1 & -> & Hlen1 & Hcs1); try done.
    by apply IH.
Qed.
End round.

(** ** Initial centroids and the whole fit *)

Lemma length_initial_centroids (n min_val : Z) (step : Q) :
  length (initial_centroids n min_val step) = Z.to_nat n.
Proof. unfold initial_centroids, py_range. by rewrite length_fmap, length_seqZ. Qed.

Lemma step_Ok (n min_val max_val : Z) :
  n ≠ 1 →
  true_div (inject_Z (max_val - min_val)) (inject_Z (n - 1))
  = Ok (Qred (inject_Z (max_val - min_val) / inject_Z (n - 1))).
Proof.
  intros Hn. apply true_div_Ok.
  change 0%Q with (inject_Z 0). rewrite inject_Z_injective. lia.
Qed.

Lemma initial_centroids_in_range (n min_val max_val : Z) :
  2 <= n → min_val <= max_val →
  Forall (centroid_in_range min_val max_val)
    (initial_centroids n min_val
       (Qred (inject_Z (max_val - min_val) / inject_Z (n - 1)))).
Proof.
  intros Hn Hle. unfold initial_centroids, py_range.
  apply Forall_fmap, Forall_forall. intros i Hi.
  apply elem_of_seqZ in Hi. unfold centroid_in_range. simpl.
  rewrite !Qred_correct.
  assert (0 <= inject_Z i)%Q as Hi0.
  { change 0%Q with (inject_Z 0). rewrite <- Zle_Qle. lia. }
  assert (inject_Z i <= inject_Z (n - 1))%Q as Hi1 by (rewrite <- Zle_Qle; lia).
  assert (0 < inject_Z (n - 1))%Q as Hd.
  { change 0%Q with (inject_Z 0). rewrite <- Zlt_Qlt. lia. }
  assert (0 <= inject_Z (max_val - min_val))%Q as HD.
  { change 0%Q with (inject_Z 0). rewrite <- Zle_Qle. lia. }
  assert (inject_Z max_val == inject_Z min_val + inject_Z (max_val - min_val))%Q
    as ->.
  { rewrite <- inject_Z_plus. f_equiv. lia. }
  set (d := inject_Z (n - 1)) in *. set (D := inject_Z (max_val - min_val)) in *.
  assert (0 <= D / d)%Q as Hq by (apply Qle_shift_div_l; lra).
  assert (inject_Z i * (D / d) <= D)%Q.
  { apply Qle_trans with (d * (D / d))%Q.
    - apply Qmult_le_compat_r; done.
    - rewrite Qmult_div_r; lra. }
  split; [|lra].
  assert (0 <= inject_Z i * (D / d))%Q by (apply Qmult_le_0_compat; done).
  lra.
Qed.

Lemma merge_sort_Qle_Sorted (cs : list Q) : Sorted Qle (merge_sort Qle cs).
Proof. apply (Sorted_merge_sort Qle). Qed.

Lemma fit_Ok (self : SimpleKMeans) (data : list Z) :
  2 <= n_clusters self → data ≠ [] →
  ∃ min_val max_val cs,
    py_min data = Ok min_val ∧ py_max data = Ok max_val
    ∧ kmeans_rounds (Z.to_nat (max_iters self)) (n_clusters self) data
        (initial_centroids (n_clusters self) min_val
           (Qred (inject_Z (max_val - min_val) / inject_Z (n_clusters self - 1))))
      = (cs, Ok tt)
    ∧ fit self data
      = (mkSimpleKMeans (n_clusters self) (max_iters self)
           (Some (merge_sort Qle cs)), Ok tt)
    ∧ length cs = Z.to_nat (n_clusters self)
    ∧ Forall (centroid_in_range min_val max_val) cs.
Proof.
  intros Hn Hdata.
  destruct (py_min_Ok data Hdata) as (lo & Hmin & Hlo_in & Hlo).
  destruct (py_max_Ok data Hdata) as (hi & Hmax & Hhi_in & Hhi).
  assert (lo <= hi) as Hle.
  { by apply (proj1 (Forall_forall _ _) Hlo). }
  assert (Forall (pixel_in_range lo hi) data) as Hrange.
  { apply Forall_forall. intros v Hv. split.
    - by apply (proj1 (Forall_forall _ _) Hlo).
    - by apply (proj1 (Forall_forall _ _) Hhi v). }
  destruct (kmeans_rounds_Ok lo hi (Z.to_nat (max_iters self)) (n_clusters self) data
              (initial_centroids (n_clusters self) lo
                 (Qred (inject_Z (hi - lo) / inject_Z (n_clusters self - 1)))))
    as (cs & Hrounds & Hlen & Hcs).
  { lia. }
  { apply length_initial_centroids. }
  { done. }
  { by apply initial_centroids_in_range. }
  exists lo, hi, cs. repeat split; try done.
  unfold fit. rewrite Hmin, Hmax. simpl.
  rewrite step_Ok by lia. simpl. by rewrite Hrounds.
Qed.

(** ** Uniform images *)

Lemma Qred_inject_Z (z : Z) : Qred (inject_Z z) = inject_Z z.
Proof. apply Qred_identity. simpl. apply Z.gcd_1_r. Qed.

Lemma Qred_eq_inject_Z (q : Q) (z : Z) : (q == inject_Z z)%Q → Qred q = inject_Z z.
Proof. intros H. rewrite (Qred_complete _ _ H). apply Qred_inject_Z. Qed.

Lemma py_min_max_uniform (data : list Z) (v : Z) :
  py_min data = Ok v → py_max data = Ok v →
  data ≠ [] ∧ Forall (eq v) data.
Proof.
  intros Hmin Hmax.
  assert (data ≠ []) as Hne by (by intros ->).
  split; [done|].
  destruct (py_min_Ok data Hne) as (lo & Hlo & _ & Hall_lo).
  destruct (py_max_Ok data Hne) as (hi & Hhi & _ & Hall_hi).
  rewrite Hmin in Hlo. rewrite Hmax in Hhi.
  injection Hlo as <-. injection Hhi as <-.
  apply Forall_forall. intros x Hx.
  pose proof (proj1 (Forall_forall _ _) Hall_lo x Hx).
  pose proof (proj1 (Forall_forall _ _) Hall_hi x Hx). simpl in *. lia.
Qed.

Lemma step_uniform (n v : Z) :
  n ≠ 1 → true_div (inject_Z (v - v)) (inject_Z (n - 1)) = Ok 0%Q.
Proof.
  intros Hn. rewrite step_Ok by done. f_equal.
  rewrite Z.sub_diag. apply (Qred_eq_inject_Z _ 0).
  unfold Qdiv. change (inject_Z 0) with 0%Q. lra.
Qed.

Lemma initial_centroids_uniform (n v : Z) :
  initial_centroids n v 0 = replicate (Z.to_nat n) (inject_Z v).
Proof.
  unfold initial_centroids, py_range.
  rewrite <- (length_seqZ 0 n). apply const_fmap.
  intros i x _. apply Qred_eq_inject_Z. lra.
Qed.

Lemma foldl_Qmin1_replicate (k : nat) (x : Q) : foldl Qmin1 x (replicate k x) = x.
Proof.
  induction k as [|k IH]; simpl; [done|].
  unfold Qmin1 at 2. case_decide; done.
Qed.

Lemma nearest_uniform (k : nat) (v : Z) :
  nearest (replicate (S k) (inject_Z v)) v = Ok O.
Proof.
  unfold nearest, distances. rewrite fmap_replicate. simpl.
  rewrite foldl_Qmin1_replicate. simpl. by rewrite Qeq_bool_refl.
Qed.

Lemma assign_points_first (cs : list Q) (data c0 : list Z) (rest : list (list Z)) :
  Forall (fun val => nearest cs val = Ok O) data →
  assign_points cs data (c0 :: rest) = Ok ((c0 ++ data) :: rest).
Proof.
  intros H. revert c0. induction H as [|val data Hval _ IH]; intros c0; simpl.
  - by rewrite app_nil_r.
  - rewrite Hval. simpl. rewrite IH. by rewrite <- app_assoc.
Qed.

Lemma update_centroids_empty (cs : list Q) (i k : nat) (c : Q) :
  (∀ j, (i <= j < i + k)%nat → cs !! j = Some c) →
  update_centroids cs i (replicate k []) = Ok (replicate k c).
Proof.
  revert i. induction k as [|k IH]; intros i Hcs; simpl; [done|].
  rewrite (Hcs i) by lia. simpl.
  rewrite (IH (S i)); [done|]. intros j Hj. apply Hcs. lia.
Qed.

Lemma py_sum_uniform (v : Z) (l : list Z) :
  Forall (eq v) l → py_sum l = v * Z.of_nat (length l).
Proof.
  induction 1 as [|x l <- _ IH].
  - unfold py_sum. simpl. lia.
  - rewrite py_sum_cons, IH. cbn [length]. lia.
Qed.

Lemma mean_uniform (v : Z) (l : list Z) :
  (0 < length l)%nat → Forall (eq v) l →
  true_div (inject_Z (py_sum l)) (inject_Z (Z.of_nat (length l))) = Ok (inject_Z v).
Proof.
  intros Hlen Hall. pose proof (inject_Z_length_pos l Hlen).
  rewrite true_div_Ok by lra. f_equal. apply Qred_eq_inject_Z.
  rewrite (py_sum_uniform v l Hall), inject_Z_mult.
  field. lra.
Qed.

Lemma kmeans_round_uniform (n v : Z) (data : list Z) :
  0 < n → data ≠ [] → Forall (eq v) data →
  kmeans_round n data (replicate (Z.to_nat n) (inject_Z v))
  = Ok (replicate (Z.to_nat n) (inject_Z v)).
Proof.
  intros Hn Hne Hall. unfold kmeans_round.
  destruct (Z.to_nat n) as [|k] eqn:Hk; [lia|].
  cbn [replicate]. rewrite assign_points_first.
  - simpl. case_decide as Hlen.
    + rewrite (mean_uniform v data Hlen Hall). simpl.
      rewrite (update_centroids_empty _ 1 k (inject_Z v)); [done|].
      intros j Hj. destruct j as [|j]; [lia|]. simpl.
      apply lookup_replicate_2. lia.
    + destruct data; [done | simpl in Hlen; lia].
  - apply Forall_forall. intros val Hval.
    rewrite <- (proj1 (Forall_forall _ _) Hall val Hval).
    apply (nearest_uniform k v).
Qed.

Lemma kmeans_rounds_uniform (k : nat) (n v : Z) (data : list Z) :
  0 < n → data ≠ [] → Forall (eq v) data →
  kmeans_rounds k n data (replicate (Z.to_nat n) (inject_Z v))
  = (replicate (Z.to_nat n) (inject_Z v), Ok tt).
Proof.
  intros Hn Hne Hall. induction k as [|k IH]; simpl; [done|].
  by rewrite kmeans_round_uniform.
Qed.

Lemma merge_sort_replicate (k : nat) (c : Q) :
  merge_sort Qle (replicate k c) = replicate k c.
Proof. symmetry. apply replicate_Permutation. by rewrite merge_sort_Permutation. Qed.


(** ** Exact initial centroids *)




(** ** The partition of a round *)




Example kmeans_round_partitions :
  partition_of [20%Q; 130%Q; 240%Q] [20; 150; 240; 30] 0 = [20; 30]
  ∧ partition_of [20%Q; 130%Q; 240%Q] [20; 150; 240; 30] 1 = [150]
  ∧ kmeans_round 3 [20; 150; 240; 30] [20%Q; 130%Q; 240%Q]
    = Ok [25%Q; 150%Q; 240%Q]
  ∧ kmeans_round 3 [20; 30] [20%Q; 130%Q; 240%Q] = Ok [25%Q; 130%Q; 240%Q].
Proof. vm_compute. repeat split. Qed.

(** ** Claims about [SimpleKMeans.fit] *)




(** Three clusters over [[20, 240]] start at 20, 130 and 240 in binary64
    as in exact arithmetic. *)
Example fit_three_clusters_start_exactly :
  initial_centroids 3 20 110 = [20%Q; 130%Q; 240%Q]
  ∧ ∃ fs,
      initial_centroids_binary64 3 20 240 = Ok fs
      ∧ Forall2 (fun f q => (float_value f == q)%Q) fs [20%Q; 130%Q; 240%Q].
Proof.
  split; [reflexivity|]. eexists. split; [vm_compute; reflexivity|].
  repeat constructor.
Qed.

(** C5.  On an image whose pixels all have one intensity [v]
    ([min == max]), [fit] with [n_clusters >= 2] does not divide by zero:
    the step is 0, the initial centroids are all [v], every round of the
    configured count leaves them all [v], and [fit] returns those
    (finite) centroids. *)
Theorem fit_uniform_image (self : SimpleKMeans) (data : list Z) (v : Z) :
  2 <= n_clusters self →
  py_min data = Ok v → py_max data = Ok v →
  let n := n_clusters self in
  let equal_centroids := replicate (Z.to_nat n) (inject_Z v) in
  true_div (inject_Z (v - v)) (inject_Z (n - 1)) = Ok 0%Q
  ∧ initial_centroids n v 0 = equal_centroids
  ∧ (∀ k, kmeans_rounds k n data equal_centroids = (equal_centroids, Ok tt))
  ∧ fit self data
    = (mkSimpleKMeans n (max_iters self) (Some equal_centroids), Ok tt).
Proof.
  intros Hn Hmin Hmax n equal_centroids. subst n equal_centroids.
  destruct (py_min_max_uniform data v Hmin Hmax) as [Hne Hall].
  assert (∀ k, kmeans_rounds k (n_clusters self) data
                 (replicate (Z.to_nat (n_clusters self)) (inject_Z v))
               = (replicate (Z.to_nat (n_clusters self)) (inject_Z v), Ok tt))
    as Hrounds.
  { intros k. apply kmeans_rounds_uniform; [lia | done | done]. }
  split. { apply step_uniform. lia. }
  split. { apply initial_centroids_uniform. }
  split; [done|].
  unfold fit. rewrite Hmin, Hmax. simpl.
  rewrite step_uniform by lia. simpl.
  rewrite initial_centroids_uniform, Hrounds.
  by rewrite merge_sort_replicate.
Qed.

Lemma fit_uniform_image_witness :
  true_div (inject_Z (80 - 80)) (inject_Z (3 - 1)) = Ok 0%Q
  ∧ initial_centroids 3 80 0 = replicate (Z.to_nat 3) (inject_Z 80)
  ∧ (∀ k, kmeans_rounds k 3 [80; 80; 80; 80] (replicate (Z.to_nat 3) (inject_Z 80))
          = (replicate (Z.to_nat 3) (inject_Z 80), Ok tt))
  ∧ fit (SimpleKMeans_init 3 10) [80; 80; 80; 80]
    = (mkSimpleKMeans 3 10 (Some (replicate (Z.to_nat 3) (inject_Z 80))), Ok tt).
Proof.
  apply (fit_uniform_image (SimpleKMeans_init 3 10) [80; 80; 80; 80] 80).
  - simpl. lia.
  - reflexivity.
  - reflexivity.
Defined.

(** The centroid list left by [fit] is sorted. *)
Lemma fit_sorted (self : SimpleKMeans) (data : list Z) :
  2 <= n_clusters self → data ≠ [] →
  ∃ cs, fit self data
        = (mkSimpleKMeans (n_clusters self) (max_iters self) (Some cs), Ok tt)
        ∧ Sorted Qle cs ∧ length cs = Z.to_nat (n_clusters self).
Proof.
  intros Hn Hdata.
  destruct (fit_Ok self data Hn Hdata) as (lo & hi & cs & _ & _ & _ & Hfit & Hlen & _).
  exists (merge_sort Qle cs). split; [done|]. split.
  - apply merge_sort_Qle_Sorted.
  - by rewrite merge_sort_Permutation.
Qed.

(** ** Degenerate cluster counts *)

Lemma initial_centroids_nonpos (n min_val : Z) (step : Q) :
  n <= 0 → initial_centroids n min_val step = [].
Proof. intros Hn. unfold initial_centroids, py_range. by rewrite seqZ_nil. Qed.

Lemma kmeans_rounds_no_centroids (k : nat) (n : Z) (data : list Z) :
  data ≠ [] → kmeans_rounds (S k) n data [] = ([], Raise ValueError).
Proof. destruct data as [|val rest]; [done|]. intros _. reflexivity. Qed.

Lemma load_and_train_three_clusters (self : TissueAnalyzer) (img : Image)
    (a : TissueAnalyzer) (st : load_status) :
  load_and_train self (Ok img) = (a, st) →
  ∃ km, kmeans a = Some km ∧ n_clusters km = 3 ∧ max_iters km = 10.
Proof.
  unfold load_and_train. destruct (size img) as [w h].
  assert (∀ km r, fit (SimpleKMeans_init 3 10) (getdata img) = (km, r) →
                  n_clusters km = 3 ∧ max_iters km = 10) as Hfit.
  { intros km r. unfold fit.
    destruct (_ ≫= _) as [[min_val step]|e]; [|by intros [= <- _]].
    destruct (kmeans_rounds _ _ _ _) as [cs [[]|e]]; by intros [= <- _]. }
  destruct (fit _ _) as [km [[]|e]] eqn:E.
  - destruct (Hfit _ _ eq_refl) as [??].
    destruct (haptic_rows _ _ _ _ _) as [rows [[]|e]];
      intros [= <- _]; by exists km.
  - destruct (Hfit _ _ eq_refl) as [??]. intros [= <- _]. by exists km.
Qed.

(** C2 (as amended).  No [InvalidConfiguration] exists in the code.  On
    non-empty data, [fit] with [n_clusters == 1] raises
    [ZeroDivisionError] (the step size is undefined) and leaves the
    model untouched; with [n_clusters <= 0] and at least one round it
    raises [ValueError] (the minimum of an empty distance list);
    [load_and_train] always builds its model with three clusters and
    ten rounds. *)
Theorem fit_degenerate_cluster_count (self : SimpleKMeans) (data : list Z) :
  data ≠ [] → n_clusters self < 2 →
  (n_clusters self = 1 → fit self data = (self, Raise ZeroDivisionError))
  ∧ (n_clusters self <= 0 → 0 < max_iters self →
     fit self data
     = (mkSimpleKMeans (n_clusters self) (max_iters self) (Some []),
        Raise ValueError))
  ∧ (∀ analyzer img analyzer' st,
       load_and_train analyzer (Ok img) = (analyzer', st) →
       ∃ km, kmeans analyzer' = Some km ∧ n_clusters km = 3 ∧ max_iters km = 10).
Proof.
  intros Hdata Hn.
  destruct (py_min_Ok data Hdata) as (lo & Hmin & _).
  destruct (py_max_Ok data Hdata) as (hi & Hmax & _).
  split; [|split].
  - intros H1. unfold fit. rewrite Hmin, Hmax, H1. cbn [mbind result_bind].
    by rewrite true_div_zero.
  - intros H0 Hiters. unfold fit. rewrite Hmin, Hmax. simpl.
    rewrite step_Ok by lia. simpl.
    rewrite initial_centroids_nonpos by done.
    destruct (Z.to_nat (max_iters self)) as [|k] eqn:Hk; [lia|].
    by rewrite kmeans_rounds_no_centroids.
  - intros analyzer img analyzer' st. apply load_and_train_three_clusters.
Qed.

Lemma fit_degenerate_cluster_count_witness :
  (n_clusters (SimpleKMeans_init 1 10) = 1 →
   fit (SimpleKMeans_init 1 10) [80; 90]
   = (SimpleKMeans_init 1 10, Raise ZeroDivisionError))
  ∧ (n_clusters (SimpleKMeans_init 1 10) <= 0 →
     0 < max_iters (SimpleKMeans_init 1 10) →
     fit (SimpleKMeans_init 1 10) [80; 90]
     = (mkSimpleKMeans (n_clusters (SimpleKMeans_init 1 10))
          (max_iters (SimpleKMeans_init 1 10)) (Some []), Raise ValueError))
  ∧ (∀ analyzer img analyzer' st,
       load_and_train analyzer (Ok img) = (analyzer', st) →
       ∃ km, kmeans analyzer' = Some km ∧ n_clusters km = 3 ∧ max_iters km = 10).
Proof.
  apply (fit_degenerate_cluster_count (SimpleKMeans_init 1 10) [80; 90]).
  - discriminate.
  - simpl. lia.
Defined.

(** C2 as the specification states it fails: with one cluster the code
    raises [ZeroDivisionError], which is no configuration error. *)
Lemma fit_one_cluster_is_not_invalid_configuration :
  ∃ e, (fit (SimpleKMeans_init 1 10) [80; 90]).2 = Raise e
       ∧ exn_name e = "ZeroDivisionError"
       ∧ exn_name e ≠ "InvalidConfiguration".
Proof. exists ZeroDivisionError. repeat split. discriminate. Qed.

(** ** Rank-ordered density tables *)

Lemma cluster_to_density_table (rank : nat) :
  cluster_to_density !! rank = [0; 128; 255] !! rank.
Proof.
  destruct rank as [|[|[|rank]]]; try reflexivity.
  unfold cluster_to_density.
  by rewrite !lookup_insert_ne, lookup_empty by lia.
Qed.

Lemma haptic_values_of_three (a b c : Q) :
  ¬ (a == b)%Q → ¬ (a == c)%Q → ¬ (b == c)%Q →
  ∃ hv, haptic_values_of [a; b; c] = Ok hv
        ∧ ∀ i ci, [a; b; c] !! i = Some ci →
                  hv !! i = [0; 80; 255] !! rank_of [a; b; c] ci.
Proof.
  intros Hab Hac Hbc.
  unfold haptic_values_of, argsort, rank_of. cbn.
  unfold by_center. cbn [fst].
  destruct (decide (a <= b)%Q); cbn; unfold by_center; cbn [fst];
    repeat (case_decide; cbn; unfold by_center; cbn [fst]); try lra;
    (eexists; split; [reflexivity|]);
    intros [|[|[|i]]] ci [= <-];
    repeat (case_decide; try lra); reflexivity.
Qed.

Lemma rank_of_Permutation (centers centers' : list Q) (c : Q) :
  centers ≡ₚ centers' → rank_of centers c = rank_of centers' c.
Proof. intros H. unfold rank_of. by rewrite H. Qed.

(** ** Building the haptic map *)

Lemma mapM_Ok {A B} (f : A → result B) (l : list A) (k : list B) :
  mapM f l = Ok k ↔ Forall2 (fun x y => f x = Ok y) l k.
Proof.
  revert k. induction l as [|x l IH]; intros k; simpl.
  - split.
    + intros [= <-]. constructor.
    + intros H. by inversion H.
  - split.
    + intros H. apply bind_Ok in H as (y & Hy & H).
      apply bind_Ok in H as (k' & Hk' & [= <-]).
      constructor; [done | by apply IH].
    + intros H. inversion H as [|? y ? k' Hy Hk']; subst.
      rewrite Hy. simpl. apply IH in Hk'. by rewrite Hk'.
Qed.

Lemma haptic_rows_Ok (km : SimpleKMeans) (pixels : list Z) (width : Z)
    (ys : list Z) (rows rows' : list (list Z)) :
  haptic_rows km pixels width ys rows = (rows', Ok tt) →
  ∃ new, rows' = rows ++ new
         ∧ Forall2 (fun y row => haptic_row km pixels width y = Ok row) ys new.
Proof.
  revert rows. induction ys as [|y ys IH]; intros rows; simpl.
  - intros [= <-]. exists []. by rewrite app_nil_r.
  - destruct (haptic_row km pixels width y) as [row|e] eqn:Hrow; [|done].
    intros H. apply IH in H as (new & -> & Hnew).
    exists (row :: new). rewrite <- app_assoc. split; [done|].
    by constructor.
Qed.

Lemma fit_returns_sorted (self km : SimpleKMeans) (data : list Z) :
  fit self data = (km, Ok tt) →
  ∃ cs, centroids km = Some cs ∧ Sorted Qle cs.
Proof.
  unfold fit.
  destruct (_ ≫= _) as [[min_val step]|e]; [|done].
  destruct (kmeans_rounds _ _ _ _) as [cs [[]|e]]; [|done].
  intros [= <-]. exists (merge_sort Qle cs). split; [done|].
  apply merge_sort_Qle_Sorted.
Qed.

Lemma haptic_row_cells (km : SimpleKMeans) (cs : list Q) (pixels : list Z)
    (width y : Z) (row : list Z) :
  centroids km = Some cs →
  haptic_row km pixels width y = Ok row →
  length row = Z.to_nat width
  ∧ ∀ x, 0 <= x < width →
         ∃ density, row !! Z.to_nat x = Some density
                    ∧ cell_of cs pixels width x y density.
Proof.
  intros Hcs Hrow. unfold haptic_row in Hrow. apply mapM_Ok in Hrow.
  split.
  - rewrite <- (Forall2_length _ _ _ Hrow). unfold py_range. apply length_seqZ.
  - intros x Hx.
    destruct (Forall2_lookup_l _ _ _ (Z.to_nat x) x Hrow) as (d & Hd & Hcell).
    { unfold py_range. rewrite lookup_seqZ_lt by lia. f_equal. lia. }
    exists d. split; [done|].
    apply bind_Ok in Hcell as (pixel_val & Hpix & Hcell).
    apply bind_Ok in Hcell as (rank & Hrank & Hd').
    exists pixel_val, rank. split; [done|]. split.
    + unfold predict in Hrank. by rewrite Hcs in Hrank.
    + unfold py_dict_get in Hd'. by destruct (cluster_to_density !! rank) as [?|]; simplify_eq.
Qed.

Lemma load_and_train_success (self a : TissueAnalyzer) (img : Image) :
  load_and_train self (Ok img) = (a, success) →
  ∃ km cs hm,
    a = mkTissueAnalyzer (Some km) (Some hm) (size img).1 (size img).2 true
    ∧ centroids km = Some cs ∧ Sorted Qle cs
    ∧ length hm = Z.to_nat (size img).2
    ∧ ∀ y, 0 <= y < (size img).2 →
           ∃ row, hm !! Z.to_nat y = Some row
                  ∧ length row = Z.to_nat (size img).1
                  ∧ ∀ x, 0 <= x < (size img).1 →
                         ∃ density,
                           row !! Z.to_nat x = Some density
                           ∧ cell_of cs (getdata img) (size img).1 x y density.
Proof.
  unfold load_and_train. destruct (size img) as [w h]. simpl.
  destruct (fit _ _) as [km [[]|e]] eqn:Hfit; [|done].
  destruct (haptic_rows _ _ _ _ _) as [hm [[]|e]] eqn:Hrows; [|done].
  intros [= <-].
  destruct (fit_returns_sorted _ _ _ Hfit) as (cs & Hcs & Hsorted).
  apply haptic_rows_Ok in Hrows as (new & -> & Hnew). simpl in *.
  exists km, cs, new. split; [done|]. split; [done|]. split; [done|].
  split.
  - rewrite <- (Forall2_length _ _ _ Hnew). unfold py_range. apply length_seqZ.
  - intros y Hy.
    destruct (Forall2_lookup_l _ _ _ (Z.to_nat y) y Hnew) as (row & Hrow & Hcells).
    { unfold py_range. rewrite lookup_seqZ_lt by lia. f_equal. lia. }
    exists row. split; [done|].
    by apply (haptic_row_cells km cs (getdata img) w y row).
Qed.

Lemma distinct_centers_three (a b c : Q) :
  distinct_centers [a; b; c] → ¬ (a == b)%Q ∧ ¬ (a == c)%Q ∧ ¬ (b == c)%Q.
Proof.
  unfold distinct_centers. simpl. intros H.
  apply NoDup_cons in H as [Ha H]. apply NoDup_cons in H as [Hb _].
  rewrite !elem_of_cons in Ha. rewrite elem_of_cons in Hb.
  repeat split; intros E; apply Qred_complete in E; tauto.
Qed.

Lemma haptic_values_of_rank (centers : list Q) :
  length centers = 3%nat → distinct_centers centers →
  ∃ hv, haptic_values_of centers = Ok hv
        ∧ ∀ i ci, centers !! i = Some ci →
                  hv !! i = [0; 80; 255] !! rank_of centers ci.
Proof.
  destruct centers as [|a [|b [|c [|]]]]; try done. intros _ Hd.
  destruct (distinct_centers_three a b c Hd) as (? & ? & ?).
  by apply haptic_values_of_three.
Qed.

Lemma argsort_Permutation (centers : list Q) :
  argsort centers ≡ₚ seq 0 (length centers).
Proof.
  unfold argsort. rewrite merge_sort_Permutation.
  by rewrite snd_zip by (by rewrite length_seq).
Qed.

Lemma haptic_values_of_long (centers : list Q) :
  (3 < length centers)%nat →
  ∃ hv,
    haptic_values_of centers = Ok hv
    ∧ ∀ k id, (3 <= k)%nat → argsort centers !! k = Some id →
              (id < length centers)%nat
              ∧ hv !! id = None
              ∧ haptic_map_flat hv [id] = Raise KeyError.
Proof.
  intros Hlen. pose proof (argsort_Permutation centers) as Hperm.
  assert (length (argsort centers) = length centers) as Hlen'.
  { by rewrite Hperm, length_seq. }
  assert (NoDup (argsort centers)) as Hnodup.
  { rewrite Hperm. apply NoDup_seq. }
  destruct (lookup_lt_is_Some_2 (argsort centers) 0) as [i0 H0]; [lia|].
  destruct (lookup_lt_is_Some_2 (argsort centers) 1) as [i1 H1]; [lia|].
  destruct (lookup_lt_is_Some_2 (argsort centers) 2) as [i2 H2]; [lia|].
  exists (<[i2 := 255]> (<[i1 := 80]> (<[i0 := 0]> ∅))).
  split.
  - unfold haptic_values_of.
    rewrite (py_getitem_Ok _ 0 i0), (py_getitem_Ok _ 1 i1), (py_getitem_Ok _ 2 i2);
      (done || lia).
  - intros k id Hk Hid.
    assert (id ≠ i0)
      by (intros ->; pose proof (NoDup_lookup _ _ _ _ Hnodup Hid H0); lia).
    assert (id ≠ i1)
      by (intros ->; pose proof (NoDup_lookup _ _ _ _ Hnodup Hid H1); lia).
    assert (id ≠ i2)
      by (intros ->; pose proof (NoDup_lookup _ _ _ _ Hnodup Hid H2); lia).
    assert ((<[i2 := 255]> (<[i1 := 80]> (<[i0 := 0]> ∅)) : gmap nat Z) !! id = None)
      as Hnone.
    { by rewrite !lookup_insert_ne, lookup_empty. }
    split; [|split; [done|]].
    + assert (id ∈ seq 0 (length centers)) as Hin.
      { rewrite <- Hperm. by eapply list_elem_of_lookup_2. }
      apply elem_of_seq in Hin. lia.
    + unfold haptic_map_flat. simpl. unfold py_dict_get. by rewrite Hnone.
Qed.

(** C8 (as amended).  For [n_clusters >= 2] and non-empty data the
    centroid list left by [fit] is sorted in non-decreasing order (index
    0 is the darkest cluster).  The density tables are fixed at three
    entries, and pixel labels are mapped to them by ascending centroid
    rank when there are three clusters: [load_and_train] always fits
    three, and a cell of its map holds entry [rank] of the table 0, 128,
    255, where [rank] is the pixel's label among the sorted centroids;
    [TissueSegmenter.train] with three distinct centres gives cluster [i]
    entry [rank] of the table 0, 80, 255, where [rank] counts the centres
    darker than centre [i], so the density of a cluster does not change
    when the clusters come out of the fit in another order.  With fewer
    than three centres [train] raises [IndexError]; with more than three
    the clusters of rank 3 and above get no density, and a pixel
    labelled with one raises [KeyError]. *)
Theorem centroids_sorted_and_ranked (self : SimpleKMeans) (data : list Z)
    (analyzer analyzer' : TissueAnalyzer) (img : Image) (centers : list Q) :
  2 <= n_clusters self → data ≠ [] →
  load_and_train analyzer (Ok img) = (analyzer', success) →
  length centers = 3%nat → distinct_centers centers →
  (∃ cs, fit self data
         = (mkSimpleKMeans (n_clusters self) (max_iters self) (Some cs), Ok tt)
         ∧ Sorted Qle cs)
  ∧ (∃ km cs hm,
       kmeans analyzer' = Some km ∧ n_clusters km = 3
       ∧ centroids km = Some cs ∧ Sorted Qle cs
       ∧ haptic_map analyzer' = Some hm
       ∧ ∀ x y,
           0 <= x < image_width analyzer' → 0 <= y < image_height analyzer' →
           ∃ row density pixel_val rank,
             hm !! Z.to_nat y = Some row ∧ row !! Z.to_nat x = Some density
             ∧ py_getitem (getdata img) (y * image_width analyzer' + x) = Ok pixel_val
             ∧ nearest cs pixel_val = Ok rank
             ∧ [0; 128; 255] !! rank = Some density)
  ∧ (∃ hv,
       haptic_values_of centers = Ok hv
       ∧ (∀ i ci, centers !! i = Some ci →
                  hv !! i = [0; 80; 255] !! rank_of centers ci)
       ∧ (∀ centers' hv' i i' c,
            centers ≡ₚ centers' → haptic_values_of centers' = Ok hv' →
            centers !! i = Some c → centers' !! i' = Some c →
            hv !! i = hv' !! i'))
  ∧ (∀ few, (length few < 3)%nat → haptic_values_of few = Raise IndexError)
  ∧ (∀ many,
       (3 < length many)%nat →
       ∃ hv,
         haptic_values_of many = Ok hv
         ∧ ∀ k id, (3 <= k)%nat → argsort many !! k = Some id →
                   (id < length many)%nat
                   ∧ hv !! id = None
                   ∧ haptic_map_flat hv [id] = Raise KeyError).
Proof.
  intros Hn Hdata Htrain Hlen Hdistinct. split; [|split; [|split; [|split]]].
  - destruct (fit_sorted self data Hn Hdata) as (cs & Hfit & Hsorted & _).
    by exists cs.
  - destruct (load_and_train_three_clusters _ _ _ _ Htrain) as (km' & Hkm' & Hthree & _).
    destruct (load_and_train_success _ _ _ Htrain)
      as (km & cs & hm & -> & Hcs & Hsorted & _ & Hcells).
    simpl in Hkm'. injection Hkm' as <-.
    exists km, cs, hm. simpl. repeat (split; [done|]).
    intros x y Hx Hy.
    destruct (Hcells y Hy) as (row & Hrow & _ & Hrow_cells).
    destruct (Hrow_cells x Hx) as (density & Hd & pixel_val & rank & Hpix & Hrank & Htab).
    exists row, density, pixel_val, rank.
    by rewrite <- cluster_to_density_table.
  - destruct (haptic_values_of_rank centers Hlen Hdistinct) as (hv & Hhv & Hrank).
    exists hv. split; [done|]. split; [done|].
    intros centers' hv' i i' c Hperm Hhv' Hi Hi'.
    destruct (haptic_values_of_rank centers') as (hv'' & Hhv'' & Hrank').
    + by rewrite <- Hperm.
    + unfold distinct_centers. by rewrite <- Hperm.
    + rewrite Hhv' in Hhv''. injection Hhv'' as <-.
      rewrite (Hrank i c Hi), (Hrank' i' c Hi').
      by rewrite (rank_of_Permutation _ _ c Hperm).
  - intros [|a [|b [|c l]]] Hfew; simpl in Hfew; try lia; [reflexivity..|].
    unfold haptic_values_of, argsort. cbn. unfold by_center. cbn [fst].
    by destruct (decide (a <= b)%Q).
  - apply haptic_values_of_long.
Qed.

Lemma centroids_sorted_and_ranked_witness :
  let self := SimpleKMeans_init 3 10 in
  let data := [20; 150; 240; 20; 150; 240] in
  let img := mkImage (2, 2) [10; 200; 100; 10] in
  let analyzer' := (load_and_train TissueAnalyzer_init (Ok img)).1 in
  let centers := [240 # 1; 20 # 1; 150 # 1]%Q in
  (∃ cs, fit self data
         = (mkSimpleKMeans (n_clusters self) (max_iters self) (Some cs), Ok tt)
         ∧ Sorted Qle cs)
  ∧ (∃ km cs hm,
       kmeans analyzer' = Some km ∧ n_clusters km = 3
       ∧ centroids km = Some cs ∧ Sorted Qle cs
       ∧ haptic_map analyzer' = Some hm
       ∧ ∀ x y,
           0 <= x < image_width analyzer' → 0 <= y < image_height analyzer' →
           ∃ row density pixel_val rank,
             hm !! Z.to_nat y = Some row ∧ row !! Z.to_nat x = Some density
             ∧ py_getitem (getdata img) (y * image_width analyzer' + x) = Ok pixel_val
             ∧ nearest cs pixel_val = Ok rank
             ∧ [0; 128; 255] !! rank = Some density)
  ∧ (∃ hv,
       haptic_values_of centers = Ok hv
       ∧ (∀ i ci, centers !! i = Some ci →
                  hv !! i = [0; 80; 255] !! rank_of centers ci)
       ∧ (∀ centers' hv' i i' c,
            centers ≡ₚ centers' → haptic_values_of centers' = Ok hv' →
            centers !! i = Some c → centers' !! i' = Some c →
            hv !! i = hv' !! i'))
  ∧ (∀ few, (length few < 3)%nat → haptic_values_of few = Raise IndexError)
  ∧ (∀ many,
       (3 < length many)%nat →
       ∃ hv,
         haptic_values_of many = Ok hv
         ∧ ∀ k id, (3 <= k)%nat → argsort many !! k = Some id →
                   (id < length many)%nat
                   ∧ hv !! id = None
                   ∧ haptic_map_flat hv [id] = Raise KeyError).
Proof.
  intros self data img analyzer' centers.
  apply (centroids_sorted_and_ranked self data TissueAnalyzer_init analyzer' img centers).
  - simpl. lia.
  - discriminate.
  - vm_compute. reflexivity.
  - reflexivity.
  - apply (bool_decide_unpack _). vm_compute. exact I.
Defined.

(** C8 as the specification states it fails for cluster counts other
    than three.  With two clusters [fit] leaves two sorted centroids,
    but [train]'s table needs [sorted_indices[2]] and raises
    [IndexError]; with four clusters the brightest one (rank 3) has no
    entry in either table, so its pixels raise [KeyError] instead of
    getting the highest density. *)
Lemma rank_table_has_three_entries :
  (∃ cs,
     fit (SimpleKMeans_init 2 10) [20; 240; 30; 230]
     = (mkSimpleKMeans 2 10 (Some cs), Ok tt)
     ∧ cs = [25%Q; 235%Q]
     ∧ haptic_values_of cs = Raise IndexError)
  ∧ (∃ cs hv,
       fit (SimpleKMeans_init 4 10) [20; 90; 150; 240]
       = (mkSimpleKMeans 4 10 (Some cs), Ok tt)
       ∧ cs = [20%Q; 90%Q; 150%Q; 240%Q]
       ∧ predict (mkSimpleKMeans 4 10 (Some cs)) 240 = Ok 3%nat
       ∧ py_dict_get cluster_to_density 3%nat = Raise KeyError
       ∧ haptic_values_of cs = Ok hv
       ∧ argsort cs !! 3%nat = Some 3%nat
       ∧ hv !! 3%nat = None
       ∧ haptic_map_flat hv [0; 3]%nat = Raise KeyError).
Proof.
  split.
  - eexists. split; [vm_compute; reflexivity|]. split; reflexivity.
  - eexists _, _. split; [vm_compute; reflexivity|].
    split; [reflexivity|]. split; [reflexivity|]. split; [reflexivity|].
    split; [vm_compute; reflexivity|]. split; [reflexivity|].
    split; reflexivity.
Qed.

(** ** Spatial lookup *)

Lemma clamp_range (x bound : Z) : 0 < bound → 0 <= clamp x bound < bound.
Proof. unfold clamp. lia. Qed.



Lemma get_density_at_trained (self analyzer : TissueAnalyzer) (img : Image) (x y : Z) :
  load_and_train self (Ok img) = (analyzer, success) →
  0 < (size img).1 → 0 < (size img).2 →
  ∃ hm row density,
    haptic_map analyzer = Some hm
    ∧ hm !! Z.to_nat (clamp y (image_height analyzer)) = Some row
    ∧ row !! Z.to_nat (clamp x (image_width analyzer)) = Some density
    ∧ get_density_at analyzer x y = Ok density.
Proof.
  intros Htrain Hw Hh.
  destruct (load_and_train_success _ _ _ Htrain)
    as (km & cs & hm & -> & _ & _ & _ & Hcells). simpl.
  pose proof (clamp_range y _ Hh) as Hy. pose proof (clamp_range x _ Hw) as Hx.
  destruct (Hcells _ Hy) as (row & Hrow & _ & Hrow_cells).
  destruct (Hrow_cells _ Hx) as (density & Hd & _).
  exists hm, row, density. repeat (split; [done|]).
  unfold get_density_at. simpl.
  rewrite (py_getitem_Ok hm _ row) by (lia || done). simpl.
  by apply py_getitem_Ok; [lia|].
Qed.





(** Truncation toward zero. *)
Lemma py_int_truncates (q : Q) :
  py_int q = if decide (0 <= q)%Q then Qfloor q else Qceiling q.
Proof.
  destruct q as [n d]. unfold py_int, Qceiling, Qfloor. simpl.
  case_decide as Hq; unfold Qle in Hq; simpl in Hq.
  - apply Z.quot_div_nonneg; lia.
  - rewrite <- (Z.opp_involutive n) at 1. rewrite Z.quot_opp_l by lia.
    f_equal. apply Z.quot_div_nonneg; lia.
Qed.

Lemma py_int_Qred (q : Q) : py_int (Qred q) = py_int q.
Proof.
  rewrite !py_int_truncates.
  pose proof (Qred_correct q) as E.
  rewrite (Qfloor_comp _ _ E), (Qceiling_comp _ _ E).
  destruct (decide (0 <= Qred q)%Q), (decide (0 <= q)%Q); try done; lra.
Qed.

(** ** Normalized lookup *)












Lemma int_of_float_raises (f : binary64) (e : exn) :
  int_of_float f = Raise e →
  (e = OverflowError ∧ ∃ s, f = S754_infinity s)
  ∨ (e = ValueError ∧ f = S754_nan).
Proof. destruct f; simpl; intros H; simplify_eq; eauto. Qed.

Lemma get_density_normalized_trained (self : TissueAnalyzer) (x_norm y_norm : binary64) :
  trained self = true →
  get_density_normalized self x_norm y_norm
  = (x ← scaled x_norm (image_width self);
     y ← scaled y_norm (image_height self);
     get_density_at self x y).
Proof. intros H. unfold get_density_normalized. by rewrite H. Qed.

Lemma load_and_train_trained (self analyzer : TissueAnalyzer) (img : Image) :
  load_and_train self (Ok img) = (analyzer, success) →
  trained analyzer = true
  ∧ image_width analyzer = (size img).1
  ∧ image_height analyzer = (size img).2.
Proof.
  intros H. destruct (load_and_train_success _ _ _ H) as (km & cs & hm & -> & _).
  done.
Qed.



(** [0.5 * 2] is [1.0] and [-0.75 * 2] is [-1.5], which truncates to -1
    and is clamped to row 0. *)
Example normalized_query_on_trained_map :
  let analyzer :=
    (load_and_train TissueAnalyzer_init (Ok (mkImage (2, 2) [10; 200; 100; 10]))).1 in
  let half := S754_finite false 4503599627370496 (-53) in
  let minus_three_quarters := S754_finite true 6755399441055744 (-53) in
  scaled half 2 = Ok 1
  ∧ scaled minus_three_quarters 2 = Ok (-1)
  ∧ get_density_normalized analyzer float_one float_one = Ok 0
  ∧ get_density_normalized analyzer half minus_three_quarters = Ok 255
  ∧ get_density_at analyzer 1 0 = Ok 255.
Proof. vm_compute. repeat split. Qed.

(** The product is rounded before it is truncated: [0.015 * 200] is
    [3.0] in binary64, so column 3 is read, although the exact product
    of that float and 200 lies below 3.  An infinite or NaN product
    makes [int()], and with it the query, raise. *)
Example normalized_query_rounds_the_product :
  let row := [0; 0; 0; 255] ++ replicate 196 128 in
  let analyzer := mkTissueAnalyzer None (Some [row]) 200 1 true in
  ∃ x_norm huge,
    int_true_div 15 1000 = Ok x_norm
    ∧ float_of_int (10 ^ 308) = Ok huge
    ∧ scaled x_norm 200 = Ok 3
    ∧ py_int (float_value x_norm * 200) = 2
    ∧ get_density_normalized analyzer x_norm float_zero = Ok 255
    ∧ scaled huge 200 = Raise OverflowError
    ∧ get_density_normalized analyzer huge float_zero = Raise OverflowError
    ∧ get_density_normalized analyzer float_zero S754_nan = Raise ValueError.
Proof.
  eexists _, _. split; [vm_compute; reflexivity|].
  split; [vm_compute; reflexivity|]. vm_compute. repeat split.
Qed.

(** ** Control loop *)

(** C9.  On a tick whose cursor lies outside the image bounds
    [process_haptic_feedback] returns at once: the scanner, with its
    current and previous density and its MCU session, is unchanged, so no
    density frame is put on the wire. *)
Theorem out_of_bounds_tick_is_skipped (self : HapticHistologyScanner)
    (current_time : Q) (wire_ok : bool) (mouse_x mouse_y : Z) :
  ¬ ((0 <= mouse_x ∧ mouse_x < (mri_image_shape self).2)
     ∧ (0 <= mouse_y ∧ mouse_y < (mri_image_shape self).1)) →
  let self' := (process_haptic_feedback self current_time wire_ok mouse_x mouse_y).1 in
  process_haptic_feedback self current_time wire_ok mouse_x mouse_y = (self, Ok tt)
  ∧ current_density self' = current_density self
  ∧ prev_density self' = prev_density self
  ∧ wire (mcu self') = wire (mcu self).
Proof.
  intros Hout.
  assert (process_haptic_feedback self current_time wire_ok mouse_x mouse_y
          = (self, Ok tt)) as E.
  { unfold process_haptic_feedback. destruct (mri_image_shape self) as [h w].
    simpl in Hout. by rewrite decide_True. }
  simpl. by rewrite E.
Qed.

Lemma out_of_bounds_tick_is_skipped_witness :
  let self :=
    mkScanner (mkSystemConfig "TEXTURE" 50)
      (connect MCUCommunicator_init ready_received).1
      (mkTissueSegmenter (Some [[0; 80]; [255; 80]]) ∅) (2, 2) 80 255 in
  let self' := (process_haptic_feedback self 1000 true 2 1).1 in
  process_haptic_feedback self 1000 true 2 1 = (self, Ok tt)
  ∧ current_density self' = current_density self
  ∧ prev_density self' = prev_density self
  ∧ wire (mcu self') = wire (mcu self).
Proof.
  intros self.
  apply (out_of_bounds_tick_is_skipped self 1000 true 2 1).
  simpl. lia.
Defined.

Example in_bounds_tick_sends :
  let self :=
    mkScanner (mkSystemConfig "TEXTURE" 50)
      (connect MCUCommunicator_init ready_received).1
      (mkTissueSegmenter (Some [[0; 80]; [255; 80]]) ∅) (2, 2) 80 255 in
  let self' := (process_haptic_feedback self 1000 true 0 1).1 in
  current_density self' = 255 ∧ prev_density self' = 80
  ∧ wire (mcu self') = [density_frame 255].
Proof. vm_compute. repeat split. Qed.

(** ** Shutdown *)

Lemma disconnect_returns (self : MCUCommunicator) : (disconnect self).2 = Ok tt.
Proof. unfold disconnect. by destruct (serial self). Qed.

Lemma disconnect_idempotent (self : MCUCommunicator) :
  disconnect (disconnect self).1 = ((disconnect self).1, Ok tt).
Proof. by destruct self as [[s|] ? ? ?]. Qed.

Lemma disconnect_never_connected :
  disconnect MCUCommunicator_init = (MCUCommunicator_init, Ok tt).
Proof. reflexivity. Qed.

Lemma disconnect_writes_nothing (self : MCUCommunicator) :
  wire (disconnect self).1 = wire self.
Proof. by destruct self as [[s|] ? ? ?]. Qed.

(** C1.  [disconnect] (and [shutdown], which calls it) can be repeated
    and is safe on a session that never connected, but it writes
    nothing: after a connected session has sent density 255, the last
    frame on the wire at release is [D:255], not the motor-off frame
    [D:0].  The calibration tool's shutdown path, on the same port, does
    end with [D:0]. *)
Theorem shutdown_omits_motor_off_frame :
  let connected := (connect MCUCommunicator_init ready_received).1 in
  let running := (send_density connected 1000 true 255).1 in
  let scanner :=
    mkScanner (mkSystemConfig "TEXTURE" 50) running
      (mkTissueSegmenter None ∅) (2, 2) 255 0 in
  let closed := (shutdown scanner).1 in
  (shutdown scanner).2 = Ok tt
  ∧ shutdown closed = (closed, Ok tt)
  ∧ disconnect MCUCommunicator_init = (MCUCommunicator_init, Ok tt)
  ∧ (is_open <$> serial (mcu closed)) = Some false
  ∧ last (wire (mcu closed)) = Some (density_frame 255)
  ∧ last (wire (mcu closed)) ≠ Some (density_frame 0)
  ∧ (∀ self, wire (disconnect self).1 = wire self)
  ∧ (∀ self, disconnect (disconnect self).1 = ((disconnect self).1, Ok tt))
  ∧ (∃ s, calibrator_finally (serial running) true = Ok (Some s)
          ∧ is_open s = false
          ∧ last (written s) = Some (density_frame 0)).
Proof.
  intros connected running scanner closed.
  split; [reflexivity|]. split; [reflexivity|]. split; [reflexivity|].
  split; [reflexivity|]. split; [reflexivity|].
  split; [by vm_compute|].
  split; [apply disconnect_writes_nothing|].
  split; [apply disconnect_idempotent|].
  eexists. split; [reflexivity|]. split; reflexivity.
Qed.

(** ** Write failures *)

(** C3 (as amended).  When the wire write raises during [send_density]
    on a connected, non-offline session, the exception does not
    propagate and the session is left exactly as it was: it is not
    demoted to offline and the last-send time does not advance, so a
    later send attempts the write again and, the port accepting it, puts
    its frame on the wire. *)
Theorem write_failure_is_absorbed (self : MCUCommunicator) (s : Serial)
    (current_time : Q) (density : Z) :
  serial self = Some s → demo_mode self = false →
  (send_interval self <= current_time - last_send_time self)%Q →
  let after := (send_density self current_time false density).1 in
  send_density self current_time false density = (self, Ok tt)
  ∧ demo_mode after = false
  ∧ last_send_time after = last_send_time self
  ∧ (∀ later density',
       is_open s = true →
       (send_interval self <= later - last_send_time self)%Q →
       wire (send_density after later true density').1
       = wire self ++ [density_frame density']).
Proof.
  intros Hs Hdemo Hdue.
  assert (send_density self current_time false density = (self, Ok tt)) as E.
  { unfold send_density. destruct (Qlt_le_dec _ _) as [Hlt|_]; [lra|].
    rewrite Hs, Hdemo. simpl. unfold Serial_write.
    by rewrite andb_false_r. }
  simpl. rewrite E. simpl. repeat (split; [done|]).
  intros later density' Hopen Hdue'. unfold send_density.
  destruct (Qlt_le_dec _ _) as [Hlt|_]; [lra|].
  rewrite Hs, Hdemo. simpl. unfold Serial_write. rewrite Hopen. simpl.
  unfold wire. by rewrite Hs.
Qed.

Lemma write_failure_is_absorbed_witness :
  let self := (connect MCUCommunicator_init ready_received).1 in
  let after := (send_density self 1000 false 255).1 in
  send_density self 1000 false 255 = (self, Ok tt)
  ∧ demo_mode after = false
  ∧ last_send_time after = last_send_time self
  ∧ (∀ later density',
       is_open Serial_open = true →
       (send_interval self <= later - last_send_time self)%Q →
       wire (send_density after later true density').1
       = wire self ++ [density_frame density']).
Proof.
  intros self.
  apply (write_failure_is_absorbed self Serial_open 1000 255).
  - reflexivity.
  - reflexivity.
  - vm_compute. discriminate.
Defined.

(** C3 as the specification states it fails: after a failed write the
    session is not offline, and the next send reaches the wire. *)
Lemma failed_write_does_not_demote :
  let connected := (connect MCUCommunicator_init ready_received).1 in
  let failed := (send_density connected 1000 false 255).1 in
  (send_density connected 1000 false 255).2 = Ok tt
  ∧ demo_mode failed = false
  ∧ wire failed = []
  ∧ wire (send_density failed 1001 true 7).1 = [density_frame 7]
  ∧ (send_density failed 1001 true 7).1 ≠ failed.
Proof. vm_compute. repeat split. discriminate. Qed.

(** ** Rate limiting *)

(** A call either leaves the session as it is, or it is due, writes one
    frame and records its time. *)
Lemma send_density_step (self : MCUCommunicator) (c : send_call) :
  let self' :=
    (send_density self (call_time c) (call_wire_ok c) (call_density c)).1 in
  self' = self
  ∨ ((send_interval self <= call_time c - last_send_time self)%Q
     ∧ last_send_time self' = call_time c
     ∧ send_interval self' = send_interval self
     ∧ length (wire self') = S (length (wire self))).
Proof.
  unfold send_density.
  destruct (Qlt_le_dec _ _) as [Hlt|Hdue]; [by left|].
  destruct (serial self) as [s|] eqn:Hs; [|by left].
  destruct (demo_mode self); [by left|]. simpl.
  unfold Serial_write. destruct (is_open s && call_wire_ok c); [|by left].
  right. simpl. repeat (split; [done|]).
  unfold wire. rewrite Hs. simpl. rewrite length_app. simpl. lia.
Qed.

Lemma send_density_dropped (self : MCUCommunicator) (current_time : Q)
    (wire_ok : bool) (density : Z) :
  (current_time - last_send_time self < send_interval self)%Q →
  send_density self current_time wire_ok density = (self, Ok tt).
Proof.
  intros Hsoon. unfold send_density.
  destruct (Qlt_le_dec _ _) as [_|Hdue]; [done | lra].
Qed.

Lemma send_all_cons (self : MCUCommunicator) (c : send_call) (calls : list send_call) :
  send_all self (c :: calls)
  = send_all (send_density self (call_time c) (call_wire_ok c) (call_density c)).1
      calls.
Proof. done. Qed.

(** Frames written by a run, counted from the last send before it: [n]
    frames need [n] whole intervals. *)
Lemma send_all_gap (until : Q) (calls : list send_call) (self : MCUCommunicator) :
  (0 < send_interval self)%Q →
  Forall (fun c => (call_time c <= until)%Q) calls →
  ∃ n : nat,
    length (wire (send_all self calls)) = (length (wire self) + n)%nat
    ∧ (n = O
       ∨ (inject_Z (Z.of_nat n) * send_interval self
          <= until - last_send_time self)%Q).
Proof.
  intros Hpos Hcalls. revert self Hpos.
  induction Hcalls as [|c calls Hc _ IH]; intros self Hpos.
  - exists O. split; [simpl; lia | by left].
  - rewrite send_all_cons.
    destruct (send_density_step self c) as [-> | (Hdue & Hlast & Hint & Hlen)].
    + by apply IH.
    + destruct (IH _ ltac:(by rewrite Hint)) as (n & Hn & Hgap).
      exists (S n). split; [lia|]. right.
      rewrite Nat2Z.inj_succ, <- Z.add_1_r, inject_Z_plus.
      rewrite Hint, Hlast in Hgap.
      change (inject_Z 1) with 1%Q.
      destruct Hgap as [-> | Hgap]; [change (inject_Z (Z.of_nat 0)) with 0%Q|]; lra.
Qed.

(** Frames written by a run whose calls all fall in [[since, until]]. *)
Lemma send_all_bound (since until : Q) (calls : list send_call)
    (self : MCUCommunicator) :
  (0 < send_interval self)%Q → (since <= until)%Q →
  Forall (fun c => (since <= call_time c <= until)%Q) calls →
  ∃ n : nat,
    length (wire (send_all self calls)) = (length (wire self) + n)%nat
    ∧ (inject_Z (Z.of_nat n) - 1 <= (until - since) / send_interval self)%Q.
Proof.
  intros Hpos Hspan Hcalls. revert self Hpos.
  induction Hcalls as [|c calls Hc Hrest IH]; intros self Hpos.
  - exists O. split; [simpl; lia|].
    apply Qle_shift_div_l; [done|]. change (inject_Z (Z.of_nat 0)) with 0%Q. lra.
  - rewrite send_all_cons.
    destruct (send_density_step self c) as [-> | (Hdue & Hlast & Hint & Hlen)].
    + by apply IH.
    + destruct (send_all_gap until calls
                  (send_density self (call_time c) (call_wire_ok c) (call_density c)).1)
        as (n & Hn & Hgap).
      { by rewrite Hint. }
      { eapply Forall_impl; [exact Hrest|]. simpl. intros c' Hc'. lra. }
      exists (S n). split; [lia|].
      rewrite Nat2Z.inj_succ, <- Z.add_1_r, inject_Z_plus.
      change (inject_Z 1) with 1%Q.
      apply Qle_shift_div_l; [done|].
      rewrite Hint, Hlast in Hgap.
      destruct Hgap as [-> | Hgap]; [change (inject_Z (Z.of_nat 0)) with 0%Q|]; lra.
Qed.

Lemma sorted_times_span (t0 : Q) (ts : list Q) :
  Sorted Qle (t0 :: ts) →
  Forall (fun t => (t0 <= t <= default t0 (last ts))%Q) (t0 :: ts).
Proof.
  intros Hs. apply Sorted_StronglySorted in Hs; [|apply _].
  revert t0 Hs. induction ts as [|t1 ts IH]; intros t0 Hs.
  - simpl. repeat constructor; lra.
  - apply StronglySorted_cons in Hs as [Hhd Htl].
    specialize (IH t1 Htl).
    assert (default t0 (last (t1 :: ts)) = default t1 (last ts)) as ->.
    { rewrite last_cons. by destruct (last ts). }
    pose proof (proj1 (Forall_cons _ _ _) IH) as [[_ Hlast] _].
    apply Forall_cons in Hhd as [Hle _].
    constructor; [lra|].
    eapply Forall_impl; [exact IH|]. simpl. intros t [? ?]. lra.
Qed.

(** C4.  [send_density] is rate-limited by [send_interval] (10 ms for a
    new session): over any sequence of calls with non-decreasing clock
    readings spanning elapsed time [T], at most [floor(T/interval) + 1]
    frames are written, and a call arriving sooner than the interval
    after the last successful send returns without writing or changing
    anything. *)
Theorem send_density_rate_limited (self : MCUCommunicator) (first : send_call)
    (rest : list send_call) :
  (0 < send_interval self)%Q →
  Sorted Qle (call_time <$> first :: rest) →
  let elapsed :=
    (call_time (default first (last rest)) - call_time first)%Q in
  Z.of_nat (length (wire (send_all self (first :: rest))))
  - Z.of_nat (length (wire self))
  <= Qfloor (elapsed / send_interval self) + 1
  ∧ (∀ current_time wire_ok density,
       (current_time - last_send_time self < send_interval self)%Q →
       send_density self current_time wire_ok density = (self, Ok tt))
  ∧ (∀ env, send_interval (connect MCUCommunicator_init env).1 = (1 # 100)%Q).
Proof.
  intros Hpos Hsorted elapsed. subst elapsed.
  split; [|split].
  - assert (Sorted Qle (call_time first :: (call_time <$> rest))) as Hspan
      by exact Hsorted.
    apply sorted_times_span in Hspan. rewrite fmap_last in Hspan.
    change (call_time first :: (call_time <$> rest))
      with (call_time <$> first :: rest) in Hspan.
    rewrite Forall_fmap in Hspan.
    assert (default (call_time first) (call_time <$> last rest)
            = call_time (default first (last rest))) as E.
    { by destruct (last rest). }
    rewrite E in Hspan.
    destruct (send_all_bound (call_time first)
                (call_time (default first (last rest))) (first :: rest) self)
      as (n & Hn & Hbound); [done | | done |].
    { apply Forall_cons in Hspan as [[_ ?] _]. done. }
    rewrite Hn.
    apply Qfloor_resp_le in Hbound.
    assert (inject_Z (Z.of_nat n) - 1 == inject_Z (Z.of_nat n - 1))%Q as E'.
    { unfold Z.sub. rewrite inject_Z_plus, inject_Z_opp.
      change (inject_Z 1) with 1%Q. lra. }
    rewrite (Qfloor_comp _ _ E'), Qfloor_Z in Hbound. lia.
  - apply send_density_dropped.
  - by intros [].
Qed.

Lemma send_density_rate_limited_witness :
  let self := (connect MCUCommunicator_init ready_received).1 in
  let first := mkCall 1000 true 0 in
  let rest := [mkCall (1000 + (1 # 200)) true 80;
               mkCall (1000 + (1 # 100)) true 255;
               mkCall (1000 + (3 # 200)) true 80] in
  let elapsed :=
    (call_time (default first (last rest)) - call_time first)%Q in
  Z.of_nat (length (wire (send_all self (first :: rest))))
  - Z.of_nat (length (wire self))
  <= Qfloor (elapsed / send_interval self) + 1
  ∧ (∀ current_time wire_ok density,
       (current_time - last_send_time self < send_interval self)%Q →
       send_density self current_time wire_ok density = (self, Ok tt))
  ∧ (∀ env, send_interval (connect MCUCommunicator_init env).1 = (1 # 100)%Q).
Proof.
  intros self first rest.
  apply (send_density_rate_limited self first rest).
  - reflexivity.
  - apply (bool_decide_unpack _). vm_compute. exact I.
Defined.

Example rate_limited_burst :
  let self := (connect MCUCommunicator_init ready_received).1 in
  wire (send_all self [mkCall 1000 true 0;
                       mkCall (1000 + (1 # 200)) true 80;
                       mkCall (1000 + (1 # 100)) true 255;
                       mkCall (1000 + (3 # 200)) true 80])
  = [density_frame 0; density_frame 255].
Proof. vm_compute. reflexivity. Qed.

(** * Further properties of the code *)

(** ** Training on a well-formed image *)

Lemma mapM_total {A B} (f : A → result B) (l : list A) :
  (∀ x, x ∈ l → ∃ y, f x = Ok y) → ∃ k, mapM f l = Ok k.
Proof.
  induction l as [|x l IH]; intros Hf.
  - by exists [].
  - destruct (Hf x) as [y Hy]; [apply elem_of_cons; by left|].
    destruct IH as [k Hk].
    { intros x' Hx'. apply Hf. apply elem_of_cons. by right. }
    exists (y :: k). simpl. rewrite Hy. simpl. by rewrite Hk.
Qed.

Lemma haptic_rows_total (km : SimpleKMeans) (pixels : list Z) (width : Z)
    (ys : list Z) (rows : list (list Z)) :
  (∀ y, y ∈ ys → ∃ row, haptic_row km pixels width y = Ok row) →
  ∃ new, haptic_rows km pixels width ys rows = (rows ++ new, Ok tt).
Proof.
  revert rows. induction ys as [|y ys IH]; intros rows Hrows; simpl.
  - exists []. by rewrite app_nil_r.
  - destruct (Hrows y) as [row Hrow]; [apply elem_of_cons; by left|].
    rewrite Hrow. destruct (IH (rows ++ [row])) as [new Hnew].
    { intros y' Hy'. apply Hrows. apply elem_of_cons. by right. }
    exists (row :: new). by rewrite Hnew, <- app_assoc.
Qed.

Lemma py_getitem_in_range {A} (l : list A) (i : Z) :
  0 <= i < Z.of_nat (length l) → ∃ a, py_getitem l i = Ok a.
Proof.
  intros Hi. destruct (lookup_lt_is_Some_2 l (Z.to_nat i)) as [a Ha]; [lia|].
  exists a. apply py_getitem_Ok; [lia | done].
Qed.

Lemma cluster_to_density_level (rank : nat) :
  (rank < 3)%nat →
  ∃ d, cluster_to_density !! rank = Some d ∧ density_level d.
Proof.
  intros Hr. destruct rank as [|[|[|rank]]]; [| | |lia].
  - exists 0. split; [done | by left].
  - exists 128. split; [done | right; by left].
  - exists 255. split; [done | right; by right].
Qed.

Lemma cluster_to_density_is_level (rank : nat) (d : Z) :
  cluster_to_density !! rank = Some d → density_level d.
Proof.
  rewrite cluster_to_density_table.
  destruct rank as [|[|[|rank]]]; intros [= <-];
    [by left | right; by left | right; by right].
Qed.

Lemma haptic_row_total (km : SimpleKMeans) (cs : list Q) (pixels : list Z)
    (width height y : Z) :
  centroids km = Some cs → length cs = 3%nat →
  0 <= width → Z.of_nat (length pixels) = width * height →
  0 <= y < height →
  ∃ row, haptic_row km pixels width y = Ok row.
Proof.
  intros Hcs Hlen Hw Hpix Hy. unfold haptic_row. apply mapM_total.
  intros x Hx. unfold py_range in Hx. apply elem_of_seqZ in Hx.
  destruct (py_getitem_in_range pixels (y * width + x)) as [p Hp]; [nia|].
  rewrite Hp. simpl. unfold predict. rewrite Hcs.
  destruct (nearest_Ok cs p) as (rank & -> & Hrank); [by destruct cs|].
  simpl. unfold py_dict_get.
  destruct (cluster_to_density_level rank) as (d & -> & _); [lia|].
  by exists d.
Qed.

Lemma load_and_train_succeeds (self : TissueAnalyzer) (img : Image) :
  well_formed_image img →
  ∃ analyzer, load_and_train self (Ok img) = (analyzer, success).
Proof.
  intros (Hw & Hh & Hpix).
  unfold load_and_train. destruct (size img) as [w h] eqn:Hsize. simpl in *.
  destruct (fit_sorted (SimpleKMeans_init 3 10) (getdata img))
    as (cs & Hfit & _ & Hlen).
  - simpl. lia.
  - intros E. rewrite E in Hpix. simpl in Hpix. nia.
  - rewrite Hfit. unfold SimpleKMeans_init. cbn [n_clusters max_iters].
    destruct (haptic_rows_total (mkSimpleKMeans 3 10 (Some cs)) (getdata img) w
                (py_range h) []) as [new Hnew].
    + intros y Hy. unfold py_range in Hy. apply elem_of_seqZ in Hy.
      apply (haptic_row_total _ cs _ w h); simpl; try done; lia.
    + rewrite Hnew. by eexists.
Qed.

Lemma scaled_raises (x_norm : binary64) (dim : Z) (e : exn) :
  scaled x_norm dim = Raise e → e = OverflowError ∨ e = ValueError.
Proof.
  unfold scaled, float_mul_int, float_of_int.
  destruct (binary_normalize prec emax dim 0 false); cbn [mbind result_bind];
    try (intros H; apply int_of_float_raises in H; tauto).
  intros [= <-]. by left.
Qed.

Lemma get_density_normalized_cases (self : TissueAnalyzer) (x_norm y_norm : binary64) :
  trained self = true →
  match scaled x_norm (image_width self), scaled y_norm (image_height self) with
  | Ok x, Ok y =>
      get_density_normalized self x_norm y_norm = get_density_at self x y
  | Raise e, _ | Ok _, Raise e =>
      get_density_normalized self x_norm y_norm = Raise e
      ∧ (e = OverflowError ∨ e = ValueError)
  end.
Proof.
  intros Ht. rewrite (get_density_normalized_trained _ _ _ Ht).
  destruct (scaled x_norm (image_width self)) as [x|e] eqn:Hx.
  - destruct (scaled y_norm (image_height self)) as [y|e] eqn:Hy; [done|].
    split; [done | by eapply scaled_raises].
  - split; [done | by eapply scaled_raises].
Qed.

Lemma trained_answers_levels (self analyzer : TissueAnalyzer) (img : Image) :
  load_and_train self (Ok img) = (analyzer, success) →
  0 < (size img).1 → 0 < (size img).2 →
  (∀ x y, ∃ d, get_density_at analyzer x y = Ok d ∧ density_level d)
  ∧ answers_levels analyzer.
Proof.
  intros Ha Hw Hh.
  assert (∀ x y, ∃ d, get_density_at analyzer x y = Ok d ∧ density_level d) as Hat.
  { intros x y.
    destruct (get_density_at_trained self analyzer img x y Ha Hw Hh)
      as (hm & row & d & Hhm & Hrow & Hd & Hget).
    exists d. split; [done|].
    destruct (load_and_train_success _ _ _ Ha)
      as (km & cs & hm' & -> & _ & _ & _ & Hcells).
    simpl in *. injection Hhm as <-.
    destruct (Hcells _ (clamp_range y _ Hh)) as (row' & Hrow' & _ & Hrow_cells).
    rewrite Hrow in Hrow'. injection Hrow' as <-.
    destruct (Hrow_cells _ (clamp_range x _ Hw)) as (d' & Hd' & _ & rank & _ & _ & Htab).
    rewrite Hd in Hd'. injection Hd' as <-.
    by eapply cluster_to_density_is_level. }
  split; [done|].
  destruct (load_and_train_trained _ _ _ Ha) as (Ht & _).
  intros x_norm y_norm.
  pose proof (get_density_normalized_cases analyzer x_norm y_norm Ht) as H.
  destruct (scaled x_norm _) as [x|e]; [destruct (scaled y_norm _) as [y|e]|].
  - rewrite H. by destruct (Hat x y) as (d & -> & ?).
  - by destruct H as [-> ?].
  - by destruct H as [-> ?].
Qed.

(** X1.  Training never fails on a well-formed image.  Afterwards
    [get_density_at] answers one of the three density levels at any
    integer coordinates, and [get_density_normalized] answers the level
    of [get_density_at] at [int(x_norm * width)], [int(y_norm * height)]
    whenever those two exist; when [int()] raises on a product (it is
    infinite or NaN, or the dimension has no float) the query raises
    that [OverflowError] or [ValueError]. *)
Theorem load_and_train_well_formed (self : TissueAnalyzer) (img : Image) :
  well_formed_image img →
  ∃ analyzer,
    load_and_train self (Ok img) = (analyzer, success)
    ∧ trained analyzer = true
    ∧ image_width analyzer = (size img).1
    ∧ image_height analyzer = (size img).2
    ∧ (∀ x y, ∃ d, get_density_at analyzer x y = Ok d ∧ density_level d)
    ∧ (∀ x_norm y_norm,
         match scaled x_norm (size img).1, scaled y_norm (size img).2 with
         | Ok x, Ok y =>
             ∃ d, get_density_normalized analyzer x_norm y_norm = Ok d
                  ∧ get_density_at analyzer x y = Ok d
                  ∧ density_level d
         | Raise e, _ | Ok _, Raise e =>
             get_density_normalized analyzer x_norm y_norm = Raise e
             ∧ (e = OverflowError ∨ e = ValueError)
         end).
Proof.
  intros Hwf. destruct (load_and_train_succeeds self img Hwf) as [a Ha].
  destruct Hwf as (Hw & Hh & _).
  destruct (trained_answers_levels self a img Ha Hw Hh) as [Hat _].
  destruct (load_and_train_trained _ _ _ Ha) as (Ht & Ewidth & Eheight).
  exists a. repeat (split; [done|]).
  intros x_norm y_norm.
  pose proof (get_density_normalized_cases a x_norm y_norm Ht) as H.
  rewrite Ewidth, Eheight in H.
  destruct (scaled x_norm _) as [x|e]; [destruct (scaled y_norm _) as [y|e]|];
    [|done..].
  destruct (Hat x y) as (d & Hd & Hlevel). exists d. by rewrite H.
Qed.

Lemma load_and_train_well_formed_witness :
  let img := mkImage (2, 2) [10; 200; 100; 10] in
  ∃ analyzer,
    load_and_train TissueAnalyzer_init (Ok img) = (analyzer, success)
    ∧ trained analyzer = true
    ∧ image_width analyzer = (size img).1
    ∧ image_height analyzer = (size img).2
    ∧ (∀ x y, ∃ d, get_density_at analyzer x y = Ok d ∧ density_level d)
    ∧ (∀ x_norm y_norm,
         match scaled x_norm (size img).1, scaled y_norm (size img).2 with
         | Ok x, Ok y =>
             ∃ d, get_density_normalized analyzer x_norm y_norm = Ok d
                  ∧ get_density_at analyzer x y = Ok d
                  ∧ density_level d
         | Raise e, _ | Ok _, Raise e =>
             get_density_normalized analyzer x_norm y_norm = Raise e
             ∧ (e = OverflowError ∨ e = ValueError)
         end).
Proof.
  intros img. apply (load_and_train_well_formed TissueAnalyzer_init img).
  repeat split; simpl; lia.
Defined.

(** ** Labels follow intensity *)

Lemma foldl_Qmin1_le (l : list Q) (x : Q) :
  (foldl Qmin1 x l <= x)%Q ∧ Forall (Qle (foldl Qmin1 x l)) l.
Proof.
  revert x. induction l as [|y l IH]; intros x; simpl.
  - split; [lra | constructor].
  - destruct (IH (Qmin1 x y)) as [Hle Hall].
    assert (Qmin1 x y <= x ∧ Qmin1 x y <= y)%Q as [??].
    { unfold Qmin1. case_decide; split; lra. }
    split; [lra|]. constructor; [lra | done].
Qed.

Lemma py_minQ_le (l : list Q) (m : Q) : py_minQ l = Ok m → Forall (Qle m) l.
Proof.
  destruct l as [|x l]; [done|]. intros [= <-].
  destruct (foldl_Qmin1_le l x) as [??]. by constructor.
Qed.

Lemma py_index_first (l : list Q) (m : Q) (i : nat) :
  py_index l m = Ok i →
  ∃ x, l !! i = Some x ∧ (x == m)%Q
       ∧ ∀ k y, (k < i)%nat → l !! k = Some y → ¬ (y == m)%Q.
Proof.
  revert i. induction l as [|x l IH]; intros i; simpl; [done|].
  destruct (Qeq_bool x m) eqn:E.
  - intros [= <-]. exists x. split; [done|]. split; [by apply Qeq_bool_eq|].
    intros k y Hk. lia.
  - intros H. apply bind_Ok in H as (i' & Hi' & [= <-]).
    destruct (IH i' Hi') as (x' & Hx' & Hm & Hfirst).
    exists x'. split; [done|]. split; [done|].
    intros [|k] y Hk Hy; simpl in Hy.
    + injection Hy as <-. by apply Qeq_bool_neq.
    + apply (Hfirst k y); [lia | done].
Qed.

(** The label of a value: the first centroid at least distance. *)
Lemma nearest_first_closest (cs : list Q) (val : Z) (i : nat) :
  nearest cs val = Ok i →
  ∃ ci, cs !! i = Some ci
        ∧ (∀ k ck, cs !! k = Some ck →
                   (Qabs (inject_Z val - ci) <= Qabs (inject_Z val - ck))%Q)
        ∧ (∀ k ck, (k < i)%nat → cs !! k = Some ck →
                   (Qabs (inject_Z val - ci) < Qabs (inject_Z val - ck))%Q).
Proof.
  unfold nearest. intros H. apply bind_Ok in H as (m & Hm & Hi).
  pose proof (py_minQ_le _ _ Hm) as Hle.
  destruct (py_index_first _ _ _ Hi) as (di & Hdi & Hdim & Hfirst).
  unfold distances in *. rewrite list_lookup_fmap in Hdi.
  destruct (cs !! i) as [ci|] eqn:Hci; [|done]. injection Hdi as <-.
  rewrite Qred_correct in Hdim.
  assert (∀ k ck, cs !! k = Some ck → (m <= Qabs (inject_Z val - ck))%Q) as Hall.
  { intros k ck Hck.
    rewrite <- (Qred_correct (Qabs (inject_Z val - ck))).
    apply (proj1 (Forall_lookup _ _) Hle k). by rewrite list_lookup_fmap, Hck. }
  exists ci. split; [done|]. split.
  - intros k ck Hck. rewrite Hdim. by eapply Hall.
  - intros k ck Hk Hck. rewrite Hdim.
    pose proof (Hall k ck Hck) as Hge.
    assert (¬ (Qred (Qabs (inject_Z val - ck)) == m)%Q) as Hne.
    { apply (Hfirst k); [done|]. by rewrite list_lookup_fmap, Hck. }
    rewrite Qred_correct in Hne.
    apply Qle_lteq in Hge as [?|E]; [done|]. by symmetry in E.
Qed.

Lemma sorted_lookup_le (cs : list Q) (k i : nat) (ck ci : Q) :
  Sorted Qle cs → (k < i)%nat →
  cs !! k = Some ck → cs !! i = Some ci → (ck <= ci)%Q.
Proof.
  intros Hs. apply Sorted_StronglySorted in Hs; [|apply _].
  revert k i. induction Hs as [|c cs Hs IH Hc]; intros k i Hki Hk Hi; [done|].
  destruct i as [|i]; [lia|]. simpl in Hi.
  destruct k as [|k]; simpl in Hk.
  - injection Hk as <-. apply (proj1 (Forall_lookup _ _) Hc i ci Hi).
  - apply (IH k i); [lia | done | done].
Qed.

Lemma nearest_monotone (cs : list Q) (v v' : Z) (i j : nat) :
  Sorted Qle cs → v <= v' →
  nearest cs v = Ok i → nearest cs v' = Ok j → (i <= j)%nat.
Proof.
  intros Hs Hv Hi Hj.
  destruct (decide (i <= j)%nat) as [|Hlt]; [done|]. exfalso.
  destruct (nearest_first_closest _ _ _ Hi) as (ci & Hci & _ & Hfirst).
  destruct (nearest_first_closest _ _ _ Hj) as (cj & Hcj & Hmin & _).
  pose proof (Hfirst j cj ltac:(lia) Hcj) as H1.
  pose proof (Hmin i ci Hci) as H2.
  pose proof (sorted_lookup_le cs j i cj ci Hs ltac:(lia) Hcj Hci) as Hc.
  rewrite Zle_Qle in Hv.
  revert H1 H2.
  apply (Qabs_case (inject_Z v - ci)); intros ?;
    apply (Qabs_case (inject_Z v - cj)); intros ?;
    apply (Qabs_case (inject_Z v' - cj)); intros ?;
    apply (Qabs_case (inject_Z v' - ci)); intros ?; lra.
Qed.

(** X2.  After [fit], [predict] is monotone: a brighter value never gets the
    label of a darker cluster. *)
Theorem predict_monotone (self km : SimpleKMeans) (data : list Z)
    (v v' : Z) (i j : nat) :
  fit self data = (km, Ok tt) → v <= v' →
  predict km v = Ok i → predict km v' = Ok j → (i <= j)%nat.
Proof.
  intros Hfit Hv Hi Hj.
  destruct (fit_returns_sorted _ _ _ Hfit) as (cs & Hcs & Hs).
  unfold predict in *. rewrite Hcs in *.
  by eapply nearest_monotone.
Qed.

Lemma predict_monotone_witness :
  let km := (fit (SimpleKMeans_init 3 10) [20; 150; 240; 20; 150; 240]).1 in
  predict km 60 = Ok 0%nat ∧ predict km 200 = Ok 2%nat ∧ (0 <= 2)%nat.
Proof.
  intros km. split; [by vm_compute|]. split; [by vm_compute|].
  apply (predict_monotone (SimpleKMeans_init 3 10) km
           [20; 150; 240; 20; 150; 240] 60 200 0 2).
  - vm_compute. reflexivity.
  - lia.
  - vm_compute. reflexivity.
  - vm_compute. reflexivity.
Defined.

Lemma cluster_to_density_monotone (i j : nat) (d d' : Z) :
  (i <= j)%nat →
  cluster_to_density !! i = Some d → cluster_to_density !! j = Some d' → d <= d'.
Proof.
  rewrite !cluster_to_density_table. intros Hij.
  destruct i as [|[|[|i]]], j as [|[|[|j]]]; try lia; try done;
    intros [= <-] [= <-]; lia.
Qed.

Lemma get_density_at_cell (self analyzer : TissueAnalyzer) (img : Image) (x y : Z) :
  load_and_train self (Ok img) = (analyzer, success) →
  0 <= x < (size img).1 → 0 <= y < (size img).2 →
  ∃ cs d, (∃ km, kmeans analyzer = Some km ∧ centroids km = Some cs)
          ∧ Sorted Qle cs
          ∧ get_density_at analyzer x y = Ok d
          ∧ cell_of cs (getdata img) (size img).1 x y d.
Proof.
  intros Htrain Hx Hy.
  destruct (load_and_train_success _ _ _ Htrain)
    as (km & cs & hm & -> & Hcs & Hs & _ & Hcells).
  destruct (Hcells y Hy) as (row & Hrow & _ & Hrow_cells).
  destruct (Hrow_cells x Hx) as (d & Hd & Hcell).
  exists cs, d. split; [by exists km|]. split; [done|]. split; [|done].
  unfold get_density_at. simpl.
  replace (clamp x (size img).1) with x by (unfold clamp; lia).
  replace (clamp y (size img).2) with y by (unfold clamp; lia).
  rewrite (py_getitem_Ok hm y row) by (lia || done). simpl.
  by apply py_getitem_Ok; [lia|].
Qed.

(** X3.  In a trained map density follows intensity: of two positions, the one
    whose pixel is at least as bright has at least the density of the
    other. *)
Theorem density_follows_intensity (self analyzer : TissueAnalyzer) (img : Image)
    (x y x' y' p p' : Z) :
  load_and_train self (Ok img) = (analyzer, success) →
  0 <= x < (size img).1 → 0 <= y < (size img).2 →
  0 <= x' < (size img).1 → 0 <= y' < (size img).2 →
  py_getitem (getdata img) (y * (size img).1 + x) = Ok p →
  py_getitem (getdata img) (y' * (size img).1 + x') = Ok p' →
  p <= p' →
  ∃ d d', get_density_at analyzer x y = Ok d
          ∧ get_density_at analyzer x' y' = Ok d'
          ∧ d <= d'.
Proof.
  intros Htrain Hx Hy Hx' Hy' Hp Hp' Hle.
  destruct (get_density_at_cell _ _ _ x y Htrain Hx Hy)
    as (cs & d & (km & Hkm & Hcs) & Hs & Hd & q & rank & Hq & Hrank & Htab).
  destruct (get_density_at_cell _ _ _ x' y' Htrain Hx' Hy')
    as (cs' & d' & (km' & Hkm' & Hcs') & _ & Hd' & q' & rank' & Hq' & Hrank' & Htab').
  rewrite Hkm in Hkm'. injection Hkm' as <-.
  rewrite Hcs in Hcs'. injection Hcs' as <-.
  rewrite Hp in Hq. injection Hq as <-.
  rewrite Hp' in Hq'. injection Hq' as <-.
  exists d, d'. split; [done|]. split; [done|].
  eapply cluster_to_density_monotone; [|done|done].
  by eapply nearest_monotone.
Qed.

Lemma density_follows_intensity_witness :
  let img := mkImage (2, 2) [10; 200; 100; 10] in
  let analyzer := (load_and_train TissueAnalyzer_init (Ok img)).1 in
  ∃ d d', get_density_at analyzer 0 1 = Ok d
          ∧ get_density_at analyzer 1 0 = Ok d'
          ∧ d <= d'.
Proof.
  intros img analyzer.
  apply (density_follows_intensity TissueAnalyzer_init analyzer img 0 1 1 0 100 200).
  - vm_compute. reflexivity.
  - simpl. lia.
  - simpl. lia.
  - simpl. lia.
  - simpl. lia.
  - reflexivity.
  - reflexivity.
  - lia.
Defined.

(** ** Web UI sessions *)

Lemma dispatch_all_cons (app : AppLab.App) (ev : AppLab.ui_event)
    (evs : list AppLab.ui_event) :
  AppLab.dispatch_all app (ev :: evs)
  = ((AppLab.dispatch_all (AppLab.dispatch app ev).1 evs).1,
     (AppLab.dispatch app ev).2 :: (AppLab.dispatch_all (AppLab.dispatch app ev).1 evs).2).
Proof.
  cbn [AppLab.dispatch_all]. destruct (AppLab.dispatch app ev) as [app' r].
  cbn [fst snd]. by destruct (AppLab.dispatch_all app' evs).
Qed.

Lemma untrained_answers_levels (a : TissueAnalyzer) :
  trained a = false → answers_levels a.
Proof.
  intros Ht x_norm y_norm. unfold get_density_normalized.
  rewrite Ht. by left.
Qed.

Lemma load_and_train_answers_levels (a : TissueAnalyzer) (decoded : result Image) :
  answers_levels a →
  match decoded with Ok img => well_formed_image img | Raise _ => True end →
  answers_levels (load_and_train a decoded).1.
Proof.
  intros Ha Hwf. destruct decoded as [img|e]; [|done].
  destruct (load_and_train_succeeds a img Hwf) as [a' Ha'].
  destruct Hwf as (Hw & Hh & _).
  destruct (trained_answers_levels a a' img Ha' Hw Hh) as [_ H].
  by rewrite Ha'.
Qed.

(** What a handler of the session may do: return, or, on a density
    request that carries both coordinates, raise what [int()] raises. *)
Lemma dispatch_keeps_levels (app : AppLab.App) (ev : AppLab.ui_event) :
  well_formed_message ev →
  answers_levels (AppLab.analyzer app) →
  density_level (AppLab.current_density app) →
  ((AppLab.dispatch app ev).2 = Ok tt
   ∨ ∃ e data x y,
       (AppLab.dispatch app ev).2 = Raise e
       ∧ (e = OverflowError ∨ e = ValueError)
       ∧ ev = AppLab.msg_get_density data
       ∧ data !! "x" = Some x ∧ data !! "y" = Some y
       ∧ get_density_normalized (AppLab.analyzer app) x y = Raise e
       ∧ (AppLab.dispatch app ev).1 = app)
  ∧ answers_levels (AppLab.analyzer (AppLab.dispatch app ev).1)
  ∧ density_level (AppLab.current_density (AppLab.dispatch app ev).1).
Proof.
  intros Hwf Ha Hd. destruct ev as [data|data|data]; simpl.
  - unfold AppLab.on_load_image. simpl in Hwf.
    destruct (data !! "image") as [decoded|]; [|by split; [left|]].
    pose proof (load_and_train_answers_levels (AppLab.analyzer app) decoded Ha) as H.
    destruct (load_and_train (AppLab.analyzer app) decoded) as [a' st]. simpl in *.
    split; [by left|]. split; [|done]. apply H. by destruct decoded.
  - unfold AppLab.on_get_density.
    destruct (data !! "x") as [x|] eqn:Hx; [|by split; [left|]].
    destruct (data !! "y") as [y|] eqn:Hy; [|by split; [left|]].
    pose proof (Ha x y) as Hxy.
    destruct (get_density_normalized (AppLab.analyzer app) x y) as [d|e] eqn:Hget.
    + by split; [left|].
    + split; [|done]. right. by exists e, data, x, y.
  - unfold AppLab.on_set_mode. split; [by left|]. by destruct (data !! "mode").
Qed.

(** X4.  Over any session of web messages whose images are well formed
    or fail to decode, the density the sketch polls is always one of the
    three levels 0, 128, 255.  Image loads and mode changes never raise;
    a density request raises only what [int()] raises on a coordinate
    product ([OverflowError] or [ValueError]), and only when it carries
    both coordinates. *)
Theorem web_session_density_levels (evs : list AppLab.ui_event) :
  Forall well_formed_message evs →
  let '(app, outcomes) := AppLab.dispatch_all AppLab.App_init evs in
  Forall2 (fun ev outcome =>
             outcome = Ok tt
             ∨ ((outcome = Raise OverflowError ∨ outcome = Raise ValueError)
                ∧ ∃ data, ev = AppLab.msg_get_density data
                          ∧ is_Some (data !! "x") ∧ is_Some (data !! "y")))
          evs outcomes
  ∧ density_level (AppLab.get_current_density app)
  ∧ answers_levels (AppLab.analyzer app).
Proof.
  intros Hevs.
  assert (∀ app,
            answers_levels (AppLab.analyzer app) →
            density_level (AppLab.current_density app) →
            Forall2 (fun ev outcome =>
                       outcome = Ok tt
                       ∨ ((outcome = Raise OverflowError ∨ outcome = Raise ValueError)
                          ∧ ∃ data, ev = AppLab.msg_get_density data
                                    ∧ is_Some (data !! "x") ∧ is_Some (data !! "y")))
                    evs (AppLab.dispatch_all app evs).2
            ∧ density_level (AppLab.current_density (AppLab.dispatch_all app evs).1)
            ∧ answers_levels (AppLab.analyzer (AppLab.dispatch_all app evs).1))
    as Hinv.
  { induction Hevs as [|ev evs Hev _ IH]; intros app Ha Hd.
    - simpl. split; [constructor | done].
    - rewrite dispatch_all_cons. simpl.
      destruct (dispatch_keeps_levels app ev Hev Ha Hd) as (Hr & Ha' & Hd').
      destruct (IH _ Ha' Hd') as (Hrs & ? & ?).
      split; [|done]. constructor; [|done].
      destruct Hr as [-> | (e & data & x & y & -> & He & -> & Hx & Hy & _)];
        [by left|].
      right. split; [destruct He as [-> | ->]; auto|].
      exists data. rewrite Hx, Hy. by split; [|split]. }
  destruct (Hinv AppLab.App_init) as (? & ? & ?).
  - by apply untrained_answers_levels.
  - by left.
  - by destruct (AppLab.dispatch_all AppLab.App_init evs).
Qed.

Lemma web_session_density_levels_witness :
  let half := S754_finite false 4503599627370496 (-53) in
  let evs :=
    [AppLab.msg_get_density {[ "x" := half; "y" := half ]};
     AppLab.msg_load_image {[ "image" := Ok (mkImage (2, 2) [10; 200; 100; 10]) ]};
     AppLab.msg_get_density {[ "x" := half; "y" := float_zero ]};
     AppLab.msg_get_density {[ "x" := S754_infinity false; "y" := float_zero ]};
     AppLab.msg_get_density {[ "x" := float_zero ]};
     AppLab.msg_load_image {[ "image" := Raise ValueError ]};
     AppLab.msg_set_mode {[ "mode" := "TEXTURE" ]}] in
  let '(app, outcomes) := AppLab.dispatch_all AppLab.App_init evs in
  Forall2 (fun ev outcome =>
             outcome = Ok tt
             ∨ ((outcome = Raise OverflowError ∨ outcome = Raise ValueError)
                ∧ ∃ data, ev = AppLab.msg_get_density data
                          ∧ is_Some (data !! "x") ∧ is_Some (data !! "y")))
          evs outcomes
  ∧ density_level (AppLab.get_current_density app)
  ∧ answers_levels (AppLab.analyzer app).
Proof.
  intros half evs. apply (web_session_density_levels evs).
  repeat constructor; vm_compute; lia.
Defined.

Example web_session_polls_last_density :
  let half := S754_finite false 4503599627370496 (-53) in
  let evs :=
    [AppLab.msg_load_image {[ "image" := Ok (mkImage (2, 2) [10; 200; 100; 10]) ]};
     AppLab.msg_get_density {[ "x" := half; "y" := float_zero ]};
     AppLab.msg_get_density {[ "x" := S754_nan; "y" := float_zero ]};
     AppLab.msg_get_density {[ "x" := float_zero ]}] in
  AppLab.dispatch_all AppLab.App_init evs
  = ((AppLab.dispatch_all AppLab.App_init evs).1,
     [Ok tt; Ok tt; Raise ValueError; Ok tt])
  ∧ AppLab.get_current_density (AppLab.dispatch_all AppLab.App_init evs).1 = 255.
Proof. vm_compute. split; reflexivity. Qed.

Lemma dispatch_mode (app : AppLab.App) (ev : AppLab.ui_event) :
  AppLab.current_mode (AppLab.dispatch app ev).1
  = last_mode_message (AppLab.current_mode app) [ev].
Proof.
  destruct ev as [data|data|data]; simpl.
  - unfold AppLab.on_load_image. destruct (data !! "image"); [|done].
    by destruct (load_and_train _ _).
  - unfold AppLab.on_get_density.
    destruct (data !! "x"); [|done]. destruct (data !! "y"); [|done].
    by destruct (get_density_normalized _ _ _).
  - unfold AppLab.on_set_mode. by destruct (data !! "mode").
Qed.

(** X5.  The mode the sketch polls after a session is the one named by the
    last mode message that carries a ['mode'] key, whatever string that
    is; messages without the key, image loads and density requests leave
    it alone. *)
Theorem web_session_mode (app : AppLab.App) (evs : list AppLab.ui_event) :
  AppLab.get_current_mode (AppLab.dispatch_all app evs).1
  = last_mode_message (AppLab.get_current_mode app) evs.
Proof.
  revert app. induction evs as [|ev evs IH]; intros app; [done|].
  rewrite dispatch_all_cons. cbn [fst]. rewrite IH.
  unfold AppLab.get_current_mode. rewrite dispatch_mode.
  by destruct ev.
Qed.

(** ** Sessions that cannot write *)

Lemma mcu_run_cons (self : MCUCommunicator) (c : mcu_call) (calls : list mcu_call) :
  mcu_run self (c :: calls)
  = ((mcu_run (mcu_step self c).1 calls).1,
     (mcu_step self c).2 :: (mcu_run (mcu_step self c).1 calls).2).
Proof.
  cbn [mcu_run]. destruct (mcu_step self c) as [self' r].
  cbn [fst snd]. by destruct (mcu_run self' calls).
Qed.

Lemma mcu_step_returns (self : MCUCommunicator) (c : mcu_call) :
  (mcu_step self c).2 = Ok tt.
Proof.
  destruct c as [t ok d|ok mode|]; simpl.
  - unfold send_density. destruct (Qlt_le_dec _ _); [done|].
    destruct (serial self) as [s|]; [|done].
    destruct (demo_mode self); [done|]. simpl.
    by destruct (Serial_write _ _ _).
  - unfold set_mode. destruct (serial self) as [s|]; [|done].
    destruct (demo_mode self); [done|]. simpl.
    by destruct (Serial_write _ _ _).
  - apply disconnect_returns.
Qed.

Lemma mcu_step_cannot_write (self : MCUCommunicator) (c : mcu_call) :
  cannot_write self →
  wire (mcu_step self c).1 = wire self ∧ cannot_write (mcu_step self c).1.
Proof.
  unfold cannot_write. intros Hcw.
  destruct self as [[s|] dm t i]; simpl in *.
  - destruct c as [t' ok d|ok mode|]; simpl.
    + unfold send_density. simpl. destruct (Qlt_le_dec _ _); [done|].
      destruct dm; simpl; [done|]. destruct Hcw as [?|Hclosed]; [done|].
      unfold Serial_write. rewrite Hclosed. simpl. split; [done|]. by right.
    + unfold set_mode. simpl.
      destruct dm; simpl; [done|]. destruct Hcw as [?|Hclosed]; [done|].
      unfold Serial_write. rewrite Hclosed. simpl. split; [done|]. by right.
    + split; [done|]. by right.
  - destruct c as [t' ok d|ok mode|]; simpl.
    + unfold send_density. simpl. destruct (Qlt_le_dec _ _); split; done || by right.
    + split; [done | by right].
    + split; [done | by right].
Qed.

Lemma mcu_run_cannot_write (self : MCUCommunicator) (calls : list mcu_call) :
  cannot_write self →
  wire (mcu_run self calls).1 = wire self
  ∧ Forall (eq (Ok tt)) (mcu_run self calls).2
  ∧ cannot_write (mcu_run self calls).1.
Proof.
  revert self. induction calls as [|c calls IH]; intros self Hcw.
  - simpl. split; [done|]. split; [constructor | done].
  - rewrite mcu_run_cons. simpl.
    destruct (mcu_step_cannot_write self c Hcw) as [Hw Hcw'].
    destruct (IH _ Hcw') as (Hw' & Hrs & ?).
    split; [congruence|]. split; [|done].
    constructor; [by rewrite mcu_step_returns | done].
Qed.

(** X6.  When [connect] does not end with a healthy port (the open fails, or
    reading the handshake raises), the session is offline for good:
    whatever densities and modes are sent, every call returns normally
    and nothing reaches the wire. *)
Theorem offline_session_is_silent (self : MCUCommunicator) (env : connect_env)
    (calls : list mcu_call) :
  env = open_fails ∨ env = read_fails →
  (connect self env).2 = false
  ∧ demo_mode (connect self env).1 = true
  ∧ wire (mcu_run (connect self env).1 calls).1 = wire (connect self env).1
  ∧ Forall (eq (Ok tt)) (mcu_run (connect self env).1 calls).2.
Proof.
  intros Henv.
  assert (cannot_write (connect self env).1) as Hcw.
  { left. by destruct Henv as [-> | ->]. }
  destruct (mcu_run_cannot_write _ calls Hcw) as (? & ? & _).
  by destruct Henv as [-> | ->].
Qed.

Lemma offline_session_is_silent_witness :
  let calls := [do_set_mode true "TEXTURE"; do_send_density 1000 true 255;
                do_send_density 1001 true 80; do_disconnect] in
  (connect MCUCommunicator_init open_fails).2 = false
  ∧ demo_mode (connect MCUCommunicator_init open_fails).1 = true
  ∧ wire (mcu_run (connect MCUCommunicator_init open_fails).1 calls).1
    = wire (connect MCUCommunicator_init open_fails).1
  ∧ Forall (eq (Ok tt)) (mcu_run (connect MCUCommunicator_init open_fails).1 calls).2.
Proof.
  intros calls.
  apply (offline_session_is_silent MCUCommunicator_init open_fails calls).
  by left.
Defined.

(** X7.  After [disconnect] nothing more is written: later sends and mode
    changes find the port closed, their failure is absorbed, and the wire
    keeps the frames it had. *)
Theorem closed_session_is_silent (self : MCUCommunicator) (calls : list mcu_call) :
  wire (mcu_run (disconnect self).1 calls).1 = wire self
  ∧ Forall (eq (Ok tt)) (mcu_run (disconnect self).1 calls).2
  ∧ port_released (mcu_run (disconnect self).1 calls).1.
Proof.
  assert (cannot_write (disconnect self).1) as Hcw.
  { right. by destruct self as [[s|] ???]. }
  destruct (mcu_run_cannot_write _ calls Hcw) as (Hw & Hrs & _).
  split; [by rewrite Hw, disconnect_writes_nothing|]. split; [done|].
  assert (∀ m c, port_released m → port_released (mcu_step m c).1) as Hstep.
  { intros [[s|] dm t i] c; unfold port_released; simpl; intros Hc.
    - destruct c as [t' ok d|ok mode|]; simpl; [| |done].
      + unfold send_density. simpl. destruct (Qlt_le_dec _ _); [done|].
        destruct dm; simpl; [done|]. unfold Serial_write. by rewrite Hc.
      + unfold set_mode. simpl.
        destruct dm; simpl; [done|]. unfold Serial_write. by rewrite Hc.
    - destruct c as [t' ok d|ok mode|]; simpl; [|done|done].
      unfold send_density. simpl. by destruct (Qlt_le_dec _ _). }
  assert (port_released (disconnect self).1) as Hrel.
  { by destruct self as [[s|] ???]. }
  revert Hrel. generalize (disconnect self).1. clear -Hstep.
  induction calls as [|c calls IH]; intros m Hm; [done|].
  rewrite mcu_run_cons. simpl. apply IH. by apply Hstep.
Qed.

Example closed_session_keeps_wire :
  let self := (send_density (connect MCUCommunicator_init ready_received).1
                            1000 true 255).1 in
  wire (mcu_run (disconnect self).1
          [do_send_density 2000 true 0; do_set_mode true "DIRECT"]).1
  = [density_frame 255].
Proof. vm_compute. reflexivity. Qed.

(** ** Mode changes and the density rate limit *)

(** A call other than a due [send_density] keeps the limiter's state and
    adds at most its own mode frame. *)
Lemma mcu_step_limiter (self : MCUCommunicator) (c : mcu_call) :
  let self' := (mcu_step self c).1 in
  match c with
  | do_send_density current_time _ _ =>
      self' = self
      ∨ ((send_interval self <= current_time - last_send_time self)%Q
         ∧ last_send_time self' = current_time
         ∧ send_interval self' = send_interval self
         ∧ length (wire self') = S (length (wire self)))
  | do_set_mode _ _ =>
      last_send_time self' = last_send_time self
      ∧ send_interval self' = send_interval self
      ∧ (length (wire self') = length (wire self)
         ∨ length (wire self') = S (length (wire self)))
  | do_disconnect =>
      last_send_time self' = last_send_time self
      ∧ send_interval self' = send_interval self
      ∧ length (wire self') = length (wire self)
  end.
Proof.
  destruct c as [t ok d|ok mode|]; simpl.
  - apply (send_density_step self (mkCall t ok d)).
  - unfold set_mode. destruct (serial self) as [s|] eqn:Hs; [|auto].
    destruct (demo_mode self); [auto|]. simpl.
    unfold Serial_write. destruct (is_open s && ok); [|auto]. simpl.
    split; [done|]. split; [done|]. right.
    unfold wire. rewrite Hs. simpl. rewrite length_app. simpl. lia.
  - by destruct self as [[s|] ???].
Qed.

Lemma mcu_run_gap (until : Q) (calls : list mcu_call) (self : MCUCommunicator) :
  (0 < send_interval self)%Q →
  Forall (fun t => (t <= until)%Q) (send_times calls) →
  ∃ n m : nat,
    length (wire (mcu_run self calls).1) = (length (wire self) + n + m)%nat
    ∧ (m <= mode_calls calls)%nat
    ∧ (n = O
       ∨ (inject_Z (Z.of_nat n) * send_interval self
          <= until - last_send_time self)%Q).
Proof.
  revert self. induction calls as [|c calls IH]; intros self Hpos Htimes.
  - exists O, O. simpl. split; [lia|]. split; [lia | by left].
  - rewrite mcu_run_cons. cbn [fst].
    pose proof (mcu_step_limiter self c) as Hstep.
    destruct c as [t ok d|ok mode|]; cbn [send_times omap mode_calls mcu_step] in *; cbv zeta in Hstep.
    + apply Forall_cons in Htimes as [Ht Htimes].
      destruct Hstep as [-> | (Hdue & Hlast & Hint & Hlen)]; [by apply IH|].
      destruct (IH _ ltac:(by rewrite Hint) Htimes) as (n & m & Hn & Hm & Hgap).
      exists (S n), m. split; [lia|]. split; [done|]. right.
      rewrite Nat2Z.inj_succ, <- Z.add_1_r, inject_Z_plus.
      change (inject_Z 1) with 1%Q. rewrite Hint, Hlast in Hgap.
      destruct Hgap as [-> | Hgap]; [change (inject_Z (Z.of_nat 0)) with 0%Q|]; lra.
    + destruct Hstep as (Hlast & Hint & Hlen).
      destruct (IH _ ltac:(by rewrite Hint) Htimes) as (n & m & Hn & Hm & Hgap).
      rewrite Hint, Hlast in Hgap.
      destruct Hlen as [Hlen | Hlen].
      * exists n, m. split; [lia|]. split; [lia | done].
      * exists n, (S m). split; [lia|]. split; [lia | done].
    + destruct Hstep as (Hlast & Hint & Hlen).
      destruct (IH _ ltac:(by rewrite Hint) Htimes) as (n & m & Hn & Hm & Hgap).
      rewrite Hint, Hlast in Hgap.
      exists n, m. split; [lia|]. done.
Qed.

Lemma mcu_run_bound (since until : Q) (calls : list mcu_call)
    (self : MCUCommunicator) :
  (0 < send_interval self)%Q → (since <= until)%Q →
  Forall (fun t => (since <= t <= until)%Q) (send_times calls) →
  ∃ n m : nat,
    length (wire (mcu_run self calls).1) = (length (wire self) + n + m)%nat
    ∧ (m <= mode_calls calls)%nat
    ∧ (inject_Z (Z.of_nat n) - 1 <= (until - since) / send_interval self)%Q.
Proof.
  intros Hpos Hspan. revert self Hpos.
  induction calls as [|c calls IH]; intros self Hpos Htimes.
  - exists O, O. simpl. split; [lia|]. split; [lia|].
    apply Qle_shift_div_l; [done|]. change (inject_Z (Z.of_nat 0)) with 0%Q. lra.
  - rewrite mcu_run_cons. cbn [fst].
    pose proof (mcu_step_limiter self c) as Hstep.
    destruct c as [t ok d|ok mode|]; cbn [send_times omap mode_calls mcu_step] in *; cbv zeta in Hstep.
    + apply Forall_cons in Htimes as [Ht Htimes].
      destruct Hstep as [-> | (Hdue & Hlast & Hint & Hlen)]; [by apply IH|].
      destruct (mcu_run_gap until calls (send_density self t ok d).1)
        as (n & m & Hn & Hm & Hgap).
      { simpl. by rewrite Hint. }
      { eapply Forall_impl; [exact Htimes|]. simpl. intros t' Ht'. lra. }
      simpl in Hn, Hgap. exists (S n), m. split; [simpl; lia|]. split; [done|].
      rewrite Nat2Z.inj_succ, <- Z.add_1_r, inject_Z_plus.
      change (inject_Z 1) with 1%Q.
      apply Qle_shift_div_l; [done|].
      rewrite Hint, Hlast in Hgap.
      destruct Hgap as [-> | Hgap]; [change (inject_Z (Z.of_nat 0)) with 0%Q|]; lra.
    + destruct Hstep as (Hlast & Hint & Hlen).
      destruct (IH _ ltac:(by rewrite Hint) Htimes) as (n & m & Hn & Hm & Hbound).
      rewrite Hint in Hbound.
      destruct Hlen as [Hlen | Hlen].
      * exists n, m. split; [lia|]. split; [lia | done].
      * exists n, (S m). split; [lia|]. split; [lia | done].
    + destruct Hstep as (Hlast & Hint & Hlen).
      destruct (IH _ ltac:(by rewrite Hint) Htimes) as (n & m & Hn & Hm & Hbound).
      rewrite Hint in Hbound.
      exists n, m. split; [lia|]. done.
Qed.

(** Over calls whose [send_density] clock readings are non-decreasing
    and span [T], the wire grows by at most [floor(T/interval) + 1]
    frames plus one per [set_mode] call. *)
Lemma mcu_run_frames_bound (self : MCUCommunicator)
    (calls : list mcu_call) (first : Q) (rest : list Q) :
  (0 < send_interval self)%Q →
  send_times calls = first :: rest →
  Sorted Qle (first :: rest) →
  Z.of_nat (length (wire (mcu_run self calls).1)) - Z.of_nat (length (wire self))
  <= Qfloor ((default first (last rest) - first) / send_interval self) + 1
     + Z.of_nat (mode_calls calls).
Proof.
  intros Hpos Htimes Hsorted.
  pose proof (sorted_times_span _ _ Hsorted) as Hspan.
  destruct (mcu_run_bound first (default first (last rest)) calls self)
    as (n & m & Hn & Hm & Hbound); [done | | by rewrite Htimes |].
  { apply Forall_cons in Hspan as [[_ ?] _]. done. }
  rewrite Hn. apply Qfloor_resp_le in Hbound.
  assert (inject_Z (Z.of_nat n) - 1 == inject_Z (Z.of_nat n - 1))%Q as E.
  { unfold Z.sub. rewrite inject_Z_plus, inject_Z_opp.
    change (inject_Z 1) with 1%Q. lra. }
  rewrite (Qfloor_comp _ _ E), Qfloor_Z in Hbound. lia.
Qed.

(** Runs from two connected sessions with the same limiter state, one
    with and one without the [set_mode] calls. *)
Lemma mcu_run_modes_aside (calls : list mcu_call) (w w' : list string) (t i : Q) :
  Forall keeps_port calls →
  let m := mkMCU (Some (mkSerial true w)) false t i in
  let m' := mkMCU (Some (mkSerial true w')) false t i in
  ∃ new,
    wire (mcu_run m calls).1 = w ++ new
    ∧ filter is_mode_frame new = mode_frame <$> modes_of calls
    ∧ wire (mcu_run m' (without_modes calls)).1 = w' ++ filter is_density_frame new
    ∧ last_send_time (mcu_run m calls).1
      = last_send_time (mcu_run m' (without_modes calls)).1.
Proof.
  revert w w' t. induction calls as [|c calls IH]; intros w w' t Hcalls; cbv zeta.
  - exists []. simpl. by rewrite !app_nil_r.
  - apply Forall_cons in Hcalls as [Hc Hcalls].
    destruct c as [tc ok d|ok mode|]; [| |done].
    + cbn [without_modes modes_of]. rewrite !mcu_run_cons. cbn [fst mcu_step].
      unfold send_density. cbn [last_send_time send_interval serial demo_mode negb].
      destruct (Qlt_le_dec (tc - t) i) as [Hlim|Hdue]; cbn [fst].
      * by apply IH.
      * unfold Serial_write. cbn [is_open andb written].
        destruct ok; cbn [fst].
        -- destruct (IH (w ++ [density_frame d]) (w' ++ [density_frame d]) tc Hcalls)
             as (new & Hw & Hm & Hw' & Ht).
           exists (density_frame d :: new).
           rewrite Hw, Hw', Ht, <- !app_assoc. done.
        -- by apply IH.
    + simpl in Hc. subst ok. cbn [without_modes modes_of].
      rewrite mcu_run_cons. cbn [fst mcu_step].
      unfold set_mode. cbn [serial demo_mode negb]. unfold Serial_write.
      cbn [is_open andb written fst last_send_time send_interval].
      destruct (IH (w ++ [mode_frame mode]) w' t Hcalls) as (new & Hw & Hm & Hw' & Ht).
      exists (mode_frame mode :: new).
      rewrite Hw, Hw', Ht, <- !app_assoc. split; [done|].
      split; [|done]. rewrite filter_cons_True by done. by rewrite Hm.
Qed.

(** X8.  Mode changes are not rate-limited and do not spend the density
    budget.  On a connected session, over any interleaving of
    [send_density] calls (at any clock readings, their writes may fail)
    and [set_mode] calls that the port accepts, every [set_mode] call
    puts its [M:] frame on the wire, in call order, and the [D:] frames
    written and the limiter's [last_send_time] are exactly those of the
    same run without the [set_mode] calls. *)
Theorem mode_frames_do_not_delay_density (self : MCUCommunicator)
    (calls : list mcu_call) :
  connected self → Forall keeps_port calls →
  ∃ new,
    wire (mcu_run self calls).1 = wire self ++ new
    ∧ filter is_mode_frame new = mode_frame <$> modes_of calls
    ∧ wire (mcu_run self (without_modes calls)).1
      = wire self ++ filter is_density_frame new
    ∧ last_send_time (mcu_run self calls).1
      = last_send_time (mcu_run self (without_modes calls)).1.
Proof.
  intros [Hdemo (s & Hs & Hopen)] Hcalls.
  destruct self as [ser demo t i]. simpl in *. subst ser demo.
  destruct s as [o w]. simpl in Hopen. subst o.
  apply (mcu_run_modes_aside calls w w t i Hcalls).
Qed.

Lemma mode_frames_do_not_delay_density_witness :
  let self := (connect MCUCommunicator_init ready_received).1 in
  let calls := [do_send_density 1000 true 0; do_set_mode true "TEXTURE";
                do_send_density (1000 + (1 # 200)) true 80;
                do_set_mode true "DIRECT";
                do_send_density (1000 + (1 # 100)) false 128;
                do_send_density (1000 + (1 # 100)) true 255] in
  ∃ new,
    wire (mcu_run self calls).1 = wire self ++ new
    ∧ filter is_mode_frame new = mode_frame <$> modes_of calls
    ∧ wire (mcu_run self (without_modes calls)).1
      = wire self ++ filter is_density_frame new
    ∧ last_send_time (mcu_run self calls).1
      = last_send_time (mcu_run self (without_modes calls)).1.
Proof.
  intros self calls. apply (mode_frames_do_not_delay_density self calls).
  - split; [reflexivity|]. eexists. split; reflexivity.
  - repeat constructor.
Defined.

Example interleaved_modes_on_the_wire :
  let self := (connect MCUCommunicator_init ready_received).1 in
  wire (mcu_run self [do_send_density 1000 true 0; do_set_mode true "TEXTURE";
                      do_send_density (1000 + (1 # 200)) true 80;
                      do_set_mode true "DIRECT";
                      do_send_density (1000 + (1 # 100)) true 255]).1
  = [density_frame 0; mode_frame "TEXTURE"; mode_frame "DIRECT"; density_frame 255].
Proof. vm_compute. reflexivity. Qed.

(** ** Frames *)

Lemma string_length_app (s t : string) :
  String.length (s +:+ t) = (String.length s + String.length t)%nat.
Proof. induction s as [|c s IH]; simpl; [done | by rewrite IH]. Qed.

Lemma string_app_inj_r (s1 s2 t : string) : s1 +:+ t = s2 +:+ t → s1 = s2.
Proof.
  revert s2. induction s1 as [|c s1 IH]; intros [|c' s2] H; simpl in H.
  - done.
  - apply (f_equal String.length) in H.
    rewrite !string_length_app in H. simpl in H. lia.
  - apply (f_equal String.length) in H.
    rewrite !string_length_app in H. simpl in H. lia.
  - injection H as -> H. f_equal. by apply IH.
Qed.

(** X9.  Frames can be told apart: two densities with the same frame are the
    same density, two modes with the same frame are the same mode, and a
    density frame is never a mode frame. *)
Theorem frames_are_unambiguous (d d' : Z) (mode mode' : string) :
  (density_frame d = density_frame d' → d = d')
  ∧ (mode_frame mode = mode_frame mode' → mode = mode')
  ∧ density_frame d ≠ mode_frame mode.
Proof.
  split; [|split].
  - unfold density_frame. intros H. apply (inj (String.app _)) in H.
    apply string_app_inj_r in H. by apply (inj pretty).
  - unfold mode_frame. intros H. apply (inj (String.app _)) in H.
    by apply string_app_inj_r in H.
  - unfold density_frame, mode_frame. simpl. discriminate.
Qed.

(** ** The scanner's main loop *)

Lemma set_haptic_mode_config (self : HapticHistologyScanner) (wire_ok : bool)
    (mode : string) :
  haptic_mode (config (_set_haptic_mode self wire_ok mode).1) = mode.
Proof. unfold _set_haptic_mode. by destruct (set_mode _ _ _). Qed.

Lemma handle_event_mode (self : ScannerApp) (event : pygame_event) (wire_ok : bool) :
  haptic_mode (config (core (handle_event self event wire_ok)))
  = last_mode_key (haptic_mode (config (core self))) [(event, wire_ok)].
Proof.
  destruct event as [|[]|]; cbn [handle_event core last_mode_key]; try done;
    apply set_haptic_mode_config.
Qed.

Lemma last_mode_key_cons (mode : string) (e : pygame_event * bool)
    (events : list (pygame_event * bool)) :
  last_mode_key mode (e :: events)
  = last_mode_key (last_mode_key mode [e]) events.
Proof. by destruct e as [[|[]|] ok]. Qed.

Lemma handle_input_mode (self : ScannerApp) (events : list (pygame_event * bool)) :
  haptic_mode (config (core (handle_input self events)))
  = last_mode_key (haptic_mode (config (core self))) events.
Proof.
  unfold handle_input. revert self.
  induction events as [|[event ok] events IH]; intros self; [done|].
  cbn [foldl]. rewrite IH, handle_event_mode. symmetry. apply last_mode_key_cons.
Qed.

Lemma process_haptic_feedback_config (self : HapticHistologyScanner)
    (current_time : Q) (wire_ok : bool) (mouse_x mouse_y : Z) :
  config (process_haptic_feedback self current_time wire_ok mouse_x mouse_y).1
  = config self.
Proof.
  unfold process_haptic_feedback. destruct (mri_image_shape self) as [h w].
  case_decide; [done|].
  destruct (get_haptic_value _ _ _); [|done].
  by destruct (send_density _ _ _ _).
Qed.

Lemma update_fps_core (self : ScannerApp) (current_time : Q) :
  core (update_fps self current_time).1 = core self
  ∧ running (update_fps self current_time).1 = running self.
Proof.
  unfold update_fps. destruct (Qlt_le_dec _ _); [done|].
  by destruct (true_div _ _).
Qed.

Lemma tick_core (self : ScannerApp) (f : frame_input) :
  core (tick self f).1
  = (process_haptic_feedback (core (handle_input self (frame_events f)))
       (frame_send_time f) (frame_wire_ok f) (frame_mouse f).1 (frame_mouse f).2).1
  ∧ running (tick self f).1 = running (handle_input self (frame_events f)).
Proof.
  unfold tick. destruct (process_haptic_feedback _ _ _ _ _) as [core' [[]|e]]; simpl.
  - by destruct (update_fps_core
                   (mkScannerApp core' (running (handle_input self (frame_events f)))
                      (show_overlay (handle_input self (frame_events f)))
                      (frame_count (handle_input self (frame_events f)))
                      (fps (handle_input self (frame_events f)))
                      (last_fps_update (handle_input self (frame_events f))))
                   (frame_fps_time f)) as [-> ->].
  - done.
Qed.

(** X10.  The loop never switches modes by itself: after a pass, the mode is
    the one selected by the last of the keys 1 to 4 pressed during it
    (the mode it had, if none was), whether or not the MCU is connected
    and whether or not the mode frame could be written. *)
Theorem mode_follows_keys (self : ScannerApp) (f : frame_input) :
  haptic_mode (config (core (tick self f).1))
  = last_mode_key (haptic_mode (config (core self))) (frame_events f).
Proof.
  destruct (tick_core self f) as [-> _].
  by rewrite process_haptic_feedback_config, handle_input_mode.
Qed.

Example mode_keys_in_one_frame :
  let self :=
    mkScannerApp
      (mkScanner (mkSystemConfig "TEXTURE" 50)
         (connect MCUCommunicator_init open_fails).1
         (mkTissueSegmenter (Some [[0; 80]; [255; 80]]) ∅) (2, 2) 0 0)
      true true 0 0 0 in
  let f := mkFrame [(KEYDOWN K_3, true); (KEYDOWN K_SPACE, true);
                    (KEYDOWN K_1, false); (other_event, true)]
                   (1, 0) 1000 true 1000 in
  haptic_mode (config (core (tick self f).1)) = "DIRECT"
  ∧ show_overlay (tick self f).1 = false
  ∧ current_density (core (tick self f).1) = 80.
Proof. vm_compute. repeat split. Qed.

(** ** Frame-rate metric *)

(** X11.  [update_fps] never divides by zero, and the rate it publishes is at
    most the number of frames counted since the last update. *)
Theorem update_fps_is_safe (self : ScannerApp) (current_time : Q) :
  0 <= frame_count self →
  (update_fps self current_time).2 = Ok tt
  ∧ ((current_time - last_fps_update self < 1)%Q →
     frame_count (update_fps self current_time).1 = frame_count self + 1
     ∧ fps (update_fps self current_time).1 = fps self
     ∧ last_fps_update (update_fps self current_time).1 = last_fps_update self)
  ∧ ((1 <= current_time - last_fps_update self)%Q →
     frame_count (update_fps self current_time).1 = 0
     ∧ last_fps_update (update_fps self current_time).1 = current_time
     ∧ (fps (update_fps self current_time).1
        == inject_Z (frame_count self + 1)
           / (current_time - last_fps_update self))%Q
     ∧ (0 <= fps (update_fps self current_time).1
        <= inject_Z (frame_count self + 1))%Q).
Proof.
  intros Hcount. unfold update_fps.
  destruct (Qlt_le_dec _ _) as [Hlt|Hge].
  - split; [done|]. split; [done|]. intros ?. lra.
  - rewrite true_div_Ok by lra. simpl. split; [done|]. split; [intros ?; lra|].
    intros _. split; [done|]. split; [done|].
    rewrite Qred_correct. split; [done|].
    assert (0 <= inject_Z (frame_count self + 1))%Q as Hn.
    { change 0%Q with (inject_Z 0). rewrite <- Zle_Qle. lia. }
    split.
    + apply Qle_shift_div_l; lra.
    + apply Qle_shift_div_r; [lra|]. nra.
Qed.

Lemma update_fps_is_safe_witness :
  let self :=
    mkScannerApp
      (mkScanner (mkSystemConfig "TEXTURE" 50) MCUCommunicator_init
         (mkTissueSegmenter None ∅) (2, 2) 0 0)
      true true 89 60 1000 in
  (update_fps self (2003 # 2)).2 = Ok tt
  ∧ (((2003 # 2) - last_fps_update self < 1)%Q →
     frame_count (update_fps self (2003 # 2)).1 = frame_count self + 1
     ∧ fps (update_fps self (2003 # 2)).1 = fps self
     ∧ last_fps_update (update_fps self (2003 # 2)).1 = last_fps_update self)
  ∧ ((1 <= (2003 # 2) - last_fps_update self)%Q →
     frame_count (update_fps self (2003 # 2)).1 = 0
     ∧ last_fps_update (update_fps self (2003 # 2)).1 = (2003 # 2)%Q
     ∧ (fps (update_fps self (2003 # 2)).1
        == inject_Z (frame_count self + 1)
           / ((2003 # 2) - last_fps_update self))%Q
     ∧ (0 <= fps (update_fps self (2003 # 2)).1
        <= inject_Z (frame_count self + 1))%Q).
Proof.
  intros self. apply (update_fps_is_safe self (2003 # 2)). simpl. lia.
Defined.

Example update_fps_publishes_rate :
  let self :=
    mkScannerApp
      (mkScanner (mkSystemConfig "TEXTURE" 50) MCUCommunicator_init
         (mkTissueSegmenter None ∅) (2, 2) 0 0)
      true true 89 60 1000 in
  let self' := (update_fps self (2003 # 2)).1 in
  frame_count self' = 0 ∧ fps self' = 60%Q ∧ last_fps_update self' = (2003 # 2)%Q.
Proof. vm_compute. repeat split. Qed.

(** ** Leaving the loop *)

Lemma handle_event_running (self : ScannerApp) (event : pygame_event) (ok : bool) :
  running (handle_event self event ok) = running self && negb (stops event).
Proof.
  destruct event as [|[]|]; simpl; by rewrite ?andb_false_r, ?andb_true_r.
Qed.

Lemma handle_input_running (self : ScannerApp) (events : list (pygame_event * bool)) :
  running (handle_input self events)
  = running self && negb (existsb (fun e => stops e.1) events).
Proof.
  unfold handle_input. revert self.
  induction events as [|[event ok] events IH]; intros self.
  - simpl. by rewrite andb_true_r.
  - cbn [foldl existsb fst]. rewrite IH, handle_event_running.
    rewrite negb_orb. by rewrite andb_assoc.
Qed.

Lemma shutdown_app_released (self : ScannerApp) :
  (shutdown_app self).2 = Ok tt
  ∧ port_released (mcu (core (shutdown_app self).1)).
Proof.
  unfold shutdown_app, shutdown, port_released.
  by destruct (core self) as [c [[s|] ???] ????].
Qed.

Lemma run_returns_released (self s : ScannerApp) (frames : list frame_input) :
  run self frames = Some (s, Ok tt) → port_released (mcu (core s)).
Proof.
  revert self. induction frames as [|f frames IH]; intros self; simpl.
  - destruct (running self); [done|]. intros [= H].
    pose proof (shutdown_app_released self) as [_ Hrel].
    destruct (shutdown_app self) as [s' r]. simpl in *. by simplify_eq.
  - destruct (running self).
    + destruct (tick self f) as [self' [[]|e]]; [apply IH | done].
    + intros [= H].
      pose proof (shutdown_app_released self) as [_ Hrel].
      destruct (shutdown_app self) as [s' r]. simpl in *. by simplify_eq.
Qed.

Lemma run_stops (self : ScannerApp) (frames : list frame_input) :
  Exists (fun f => existsb (fun e => stops e.1) (frame_events f) = true) frames →
  is_Some (run self frames).
Proof.
  intros Hstop. revert self.
  induction Hstop as [f frames Hf | f frames _ IH]; intros self; simpl.
  - destruct (running self) eqn:Hrun; [|by eexists].
    destruct (tick self f) as [self' [[]|e]] eqn:Htick; [|by eexists].
    destruct (tick_core self f) as [_ Hrun'].
    rewrite Htick, handle_input_running, Hf, andb_false_r in Hrun'. simpl in Hrun'.
    destruct frames; simpl; rewrite Hrun'; by eexists.
  - destruct (running self); [|by eexists].
    destruct (tick self f) as [self' [[]|e]]; [apply IH | by eexists].
Qed.

(** X12.  A window-close or Escape event in any frame is enough for
    [main] to end, and however it ends (the loop left by a quit event, or
    a pass that raised) it ends after [shutdown]: it reports no error and
    the serial port, if there is one, is closed. *)
Theorem main_always_releases_the_port (self : ScannerApp) (frames : list frame_input) :
  Exists (fun f => existsb (fun e => stops e.1) (frame_events f) = true) frames →
  (∃ s, main self frames = Some (s, Ok tt) ∧ port_released (mcu (core s)))
  ∧ (∀ frames' s r, main self frames' = Some (s, r) →
                    r = Ok tt ∧ port_released (mcu (core s))).
Proof.
  intros Hstop.
  assert (∀ frames' s r, main self frames' = Some (s, r) →
                         r = Ok tt ∧ port_released (mcu (core s))) as Hall.
  { intros frames' s r. unfold main.
    destruct (run self frames') as [[s' [[]|e]]|] eqn:Hrun; [| |done].
    - intros [= <- <-]. split; [done|]. by eapply run_returns_released.
    - intros [= H]. pose proof (shutdown_app_released s') as [Hr Hrel].
      rewrite H in Hr, Hrel. done. }
  split; [|done].
  destruct (run_stops self frames Hstop) as [[s r] Hrun].
  assert (is_Some (main self frames)) as [[s' r'] Hmain].
  { unfold main. rewrite Hrun. destruct r; by eexists. }
  destruct (Hall _ _ _ Hmain) as [-> ?]. by exists s'.
Qed.

Lemma main_always_releases_the_port_witness :
  let self :=
    mkScannerApp
      (mkScanner (mkSystemConfig "TEXTURE" 50)
         (connect MCUCommunicator_init ready_received).1
         (mkTissueSegmenter (Some [[0; 80]; [255; 80]]) ∅) (2, 2) 0 0)
      true true 0 0 0 in
  let frames :=
    [mkFrame [] (0, 1) 1000 true 1000;
     mkFrame [(KEYDOWN K_SPACE, true); (KEYDOWN K_ESCAPE, true)] (1, 0) 1001 true 1001;
     mkFrame [] (0, 0) 1002 true 1002] in
  (∃ s, main self frames = Some (s, Ok tt) ∧ port_released (mcu (core s)))
  ∧ (∀ frames' s r, main self frames' = Some (s, r) →
                    r = Ok tt ∧ port_released (mcu (core s))).
Proof.
  intros self frames. apply (main_always_releases_the_port self frames).
  apply Exists_cons_tl, Exists_cons_hd. reflexivity.
Defined.

Example main_quits_on_escape :
  let self :=
    mkScannerApp
      (mkScanner (mkSystemConfig "TEXTURE" 50)
         (connect MCUCommunicator_init ready_received).1
         (mkTissueSegmenter (Some [[0; 80]; [255; 80]]) ∅) (2, 2) 0 0)
      true true 0 0 0 in
  let frames :=
    [mkFrame [] (0, 1) 1000 true 1000;
     mkFrame [(KEYDOWN K_ESCAPE, true)] (1, 0) 1001 true 1001;
     mkFrame [] (0, 0) 1002 true 1002] in
  (fun o => wire (mcu (core o.1)) ) <$> main self frames
  = Some [density_frame 255; density_frame 80].
Proof. vm_compute. reflexivity. Qed.

(** ** The segmentation overlay *)

Lemma zip_with_replicate_r {A B C} (f : A → B → C) (l : list A) (n : nat) (b : B) :
  length l = n → zip_with f l (replicate n b) = (fun a => f a b) <$> l.
Proof.
  intros <-. induction l as [|a l IH]; simpl; [done | by rewrite IH].
Qed.

Lemma zip_with_fmap_r' {A B C D} (f : A → C → D) (g : B → C) (l : list A) (k : list B) :
  zip_with f l (g <$> k) = zip_with (fun a b => f a (g b)) l k.
Proof.
  revert k. induction l as [|a l IH]; intros [|b k]; simpl; [done..|].
  by rewrite IH.
Qed.

Lemma zip_with_diag' {A C} (f : A → A → C) (l : list A) :
  zip_with f l l = (fun a => f a a) <$> l.
Proof. induction l as [|a l IH]; simpl; [done | by rewrite IH]. Qed.

Lemma mask_assign_fmap (hm : list (list Z)) (haptic_val : Z) (color : list Z)
    (g : Z → list Z) :
  mask_assign hm haptic_val color (fmap (M:=list) g <$> hm)
  = fmap (M:=list) (fun v => if decide (v = haptic_val) then color else g v) <$> hm.
Proof.
  unfold mask_assign. rewrite zip_with_fmap_r', zip_with_diag'.
  apply list_fmap_ext. intros _ row _.
  by rewrite zip_with_fmap_r', zip_with_diag'.
Qed.

(** X13.  On a rectangular haptic map the overlay has the shape of the map and
    colours each cell by its haptic value alone: 0 dark blue, 80 green,
    255 red, anything else black. *)
Theorem overlay_colours_by_value (self : TissueSegmenter) (hm : list (list Z))
    (display_size : Z * Z) :
  seg_haptic_map self = Some hm → rectangular hm →
  get_overlay_image self display_size = fmap (M:=list) color_of <$> hm.
Proof.
  intros Hhm Hrect. unfold get_overlay_image. rewrite Hhm.
  unfold rectangular in Hrect. destruct (shape hm) as [h w] eqn:Hshape.
  assert (zeros3 h w = fmap (M:=list) (fun _ : Z => [0; 0; 0]) <$> hm) as ->.
  { unfold zeros3, shape in *. injection Hshape as <- Hw. simpl in Hrect.
    rewrite Nat2Z.id. symmetry. apply const_fmap.
    intros i row Hrow.
    pose proof (proj1 (Forall_lookup _ _) Hrect i row Hrow) as Hlen.
    simpl in Hlen.
    rewrite (const_fmap (fun _ : Z => [0; 0; 0]) row [0; 0; 0]) by done.
    f_equal. lia. }
  unfold overlay_colors. cbn [foldl].
  rewrite !mask_assign_fmap.
  apply list_fmap_ext. intros _ row _. apply list_fmap_ext. intros _ v _.
  unfold color_of. repeat case_decide; done || lia.
Qed.

Lemma overlay_colours_by_value_witness :
  get_overlay_image (mkTissueSegmenter (Some [[0; 80]; [255; 7]]) ∅) (600, 600)
  = fmap (M:=list) color_of <$> [[0; 80]; [255; 7]].
Proof.
  apply (overlay_colours_by_value _ [[0; 80]; [255; 7]] (600, 600)).
  - reflexivity.
  - repeat constructor.
Defined.

(** ** A pass with the cursor on the image *)

Lemma rectangular_cell (hm : list (list Z)) (x y : Z) :
  rectangular hm →
  0 <= y < (shape hm).1 → 0 <= x < (shape hm).2 →
  ∃ row d, hm !! Z.to_nat y = Some row ∧ row !! Z.to_nat x = Some d.
Proof.
  intros Hrect Hy Hx. unfold shape in Hy. simpl in Hy.
  destruct (lookup_lt_is_Some_2 hm (Z.to_nat y)) as [row Hrow]; [lia|].
  pose proof (proj1 (Forall_lookup _ _) Hrect _ _ Hrow) as Hlen. cbv beta in Hlen.
  destruct (lookup_lt_is_Some_2 row (Z.to_nat x)) as [d Hd]; [lia|].
  by exists row, d.
Qed.

(** X14.  With a rectangular haptic map the size of the image, a pass whose
    cursor is on the image never raises: the density becomes the map's
    cell under the cursor, the previous density is the one it replaces,
    the mode is untouched, and the wire gains either nothing (rate limit,
    offline or failed write) or exactly that density's frame. *)
Theorem in_bounds_tick_reads_the_map (self : HapticHistologyScanner)
    (hm : list (list Z)) (current_time : Q) (wire_ok : bool) (mouse_x mouse_y : Z) :
  seg_haptic_map (segmenter self) = Some hm → rectangular hm →
  shape hm = mri_image_shape self →
  0 <= mouse_x < (mri_image_shape self).2 →
  0 <= mouse_y < (mri_image_shape self).1 →
  let out := process_haptic_feedback self current_time wire_ok mouse_x mouse_y in
  ∃ row d,
    hm !! Z.to_nat mouse_y = Some row ∧ row !! Z.to_nat mouse_x = Some d
    ∧ out.2 = Ok tt
    ∧ current_density out.1 = d
    ∧ prev_density out.1 = current_density self
    ∧ config out.1 = config self
    ∧ (wire (mcu out.1) = wire (mcu self)
       ∨ wire (mcu out.1) = wire (mcu self) ++ [density_frame d]).
Proof.
  intros Hhm Hrect Hshape Hx Hy out. subst out.
  rewrite <- Hshape in Hx, Hy.
  destruct (rectangular_cell hm mouse_x mouse_y Hrect Hy Hx) as (row & d & Hrow & Hd).
  exists row, d. split; [done|]. split; [done|].
  unfold process_haptic_feedback. rewrite <- Hshape.
  destruct (shape hm) as [h w] eqn:Hsh. simpl in Hx, Hy.
  rewrite decide_False by (intros Hout; apply Hout; lia).
  assert (get_haptic_value (segmenter self) mouse_x mouse_y = Ok d) as ->.
  { unfold get_haptic_value. rewrite Hhm, Hsh.
    rewrite decide_True by lia.
    rewrite (py_getitem_Ok hm mouse_y row) by (lia || done). simpl.
    apply py_getitem_Ok; [lia | done]. }
  pose proof (mcu_step_returns (mcu self) (do_send_density current_time wire_ok d)) as Hr.
  pose proof (send_density_step (mcu self) (mkCall current_time wire_ok d)) as Hstep.
  simpl in Hr, Hstep.
  destruct (send_density (mcu self) current_time wire_ok d) as [mcu' r] eqn:Hsend.
  simpl in *. subst r. repeat (split; [done|]).
  destruct Hstep as [-> | (_ & _ & _ & _)]; [by left|].
  revert Hsend. unfold send_density.
  destruct (Qlt_le_dec _ _); [intros [= <-]; by left|].
  destruct (serial (mcu self)) as [s|] eqn:Hs; [|intros [= <-]; by left].
  destruct (demo_mode (mcu self)); simpl; [intros [= <-]; by left|].
  unfold Serial_write. destruct (is_open s && wire_ok); [|intros [= <-]; by left].
  intros [= <-]. right. unfold wire. by rewrite Hs.
Qed.

Lemma in_bounds_tick_reads_the_map_witness :
  let self :=
    mkScanner (mkSystemConfig "EDGE_DETECT" 50)
      (connect MCUCommunicator_init ready_received).1
      (mkTissueSegmenter (Some [[0; 80]; [255; 80]]) ∅) (2, 2) 80 0 in
  let out := process_haptic_feedback self 1000 true 0 1 in
  ∃ row d,
    [[0; 80]; [255; 80]] !! Z.to_nat 1 = Some row ∧ row !! Z.to_nat 0 = Some d
    ∧ out.2 = Ok tt
    ∧ current_density out.1 = d
    ∧ prev_density out.1 = current_density self
    ∧ config out.1 = config self
    ∧ (wire (mcu out.1) = wire (mcu self)
       ∨ wire (mcu out.1) = wire (mcu self) ++ [density_frame d]).
Proof.
  intros self.
  apply (in_bounds_tick_reads_the_map self [[0; 80]; [255; 80]] 1000 true 0 1).
  - reflexivity.
  - repeat constructor.
  - reflexivity.
  - simpl. lia.
  - simpl. lia.
Defined.

(** ** Cluster ids and haptic values in [train] *)

Lemma haptic_values_of_three_keys (a b c : Q) :
  ∃ hv, haptic_values_of [a; b; c] = Ok hv
        ∧ (∀ i, (3 <= i)%nat → hv !! i = None)
        ∧ (∀ i, (i < 3)%nat → ∃ d, hv !! i = Some d ∧ (d = 0 ∨ d = 80 ∨ d = 255))
        ∧ (∀ i j d, hv !! i = Some d → hv !! j = Some d → i = j).
Proof.
  unfold haptic_values_of, argsort. cbn.
  unfold by_center. cbn [fst].
  destruct (decide (a <= b)%Q); cbn; unfold by_center; cbn [fst];
    repeat (case_decide; cbn; unfold by_center; cbn [fst]);
    (eexists; split; [reflexivity|]);
    (split; [intros i Hi; by rewrite !lookup_insert_ne, lookup_empty by lia|]);
    (split; [intros [|[|[|i]]] Hi; [eexists; split; [reflexivity | auto]..| lia]|]);
    intros i j d Hi Hj;
    (destruct (decide (i < 3)%nat);
     [|rewrite !lookup_insert_ne, lookup_empty in Hi by lia; done]);
    (destruct (decide (j < 3)%nat);
     [|rewrite !lookup_insert_ne, lookup_empty in Hj by lia; done]);
    destruct i as [|[|[|i]]]; try lia; destruct j as [|[|[|j]]]; try lia;
    try done; vm_compute in Hi, Hj; congruence.
Qed.

Lemma mapM_first_error {A B} (f : A → result B) (l : list A) (e : exn) :
  Forall (fun x => (∃ y, f x = Ok y) ∨ f x = Raise e) l →
  Exists (fun x => f x = Raise e) l →
  mapM f l = Raise e.
Proof.
  induction 1 as [|x l Hx _ IH]; intros Hex; [by inversion Hex|].
  simpl. destruct Hx as [[y Hy] | Hx].
  - rewrite Hy. simpl. inversion Hex as [?? Hx'|?? Hex']; subst; [congruence|].
    by rewrite (IH Hex').
  - by rewrite Hx.
Qed.

(** X15.  With three cluster centres [train] gives the three cluster ids three
    different haptic values out of 0, 80 and 255 (ties between centres
    included); the flat map is built exactly when every label is one of
    those ids, and a label outside them is a [KeyError]. *)
Theorem train_maps_three_clusters (centers : list Q) :
  length centers = 3%nat →
  ∃ hv,
    haptic_values_of centers = Ok hv
    ∧ (∀ i j d, hv !! i = Some d → hv !! j = Some d → i = j)
    ∧ (∀ labels,
         Forall (fun label => (label < 3)%nat) labels →
         ∃ flat, haptic_map_flat hv labels = Ok flat
                 ∧ length flat = length labels
                 ∧ Forall (fun d => d = 0 ∨ d = 80 ∨ d = 255) flat)
    ∧ (∀ labels,
         Exists (fun label => (3 <= label)%nat) labels →
         haptic_map_flat hv labels = Raise KeyError).
Proof.
  destruct centers as [|a [|b [|c [|]]]]; try done. intros _.
  destruct (haptic_values_of_three_keys a b c) as (hv & Hhv & Hnone & Hsome & Hinj).
  exists hv. split; [done|]. split; [done|]. split.
  - intros labels Hlabels.
    destruct (mapM_total (py_dict_get hv) labels) as [flat Hflat].
    { intros label Hl.
      destruct (Hsome label (proj1 (Forall_forall _ _) Hlabels label Hl)) as (d & Hd & _).
      exists d. unfold py_dict_get. by rewrite Hd. }
    exists flat. split; [done|].
    apply mapM_Ok in Hflat. split; [symmetry; by eapply Forall2_length|].
    apply Forall_forall. intros d Hd.
    apply list_elem_of_lookup in Hd as [k Hk].
    destruct (Forall2_lookup_r _ _ _ _ _ Hflat Hk) as (label & Hlabel & Hget).
    unfold py_dict_get in Hget.
    destruct (hv !! label) as [d'|] eqn:Hl; [|done]. injection Hget as ->.
    destruct (decide (label < 3)%nat) as [Hlt|Hge].
    + destruct (Hsome label Hlt) as (d'' & Hd'' & Hlevel). congruence.
    + rewrite Hnone in Hl by lia. done.
  - intros labels Hex. apply mapM_first_error.
    + apply Forall_forall. intros label _. unfold py_dict_get.
      destruct (hv !! label) as [d|]; [left; by exists d | by right].
    + eapply Exists_impl; [exact Hex|]. simpl. intros label Hl.
      unfold py_dict_get. by rewrite Hnone.
Qed.

Lemma train_maps_three_clusters_witness :
  ∃ hv,
    haptic_values_of [240 # 1; 20 # 1; 20 # 1]%Q = Ok hv
    ∧ (∀ i j d, hv !! i = Some d → hv !! j = Some d → i = j)
    ∧ (∀ labels,
         Forall (fun label => (label < 3)%nat) labels →
         ∃ flat, haptic_map_flat hv labels = Ok flat
                 ∧ length flat = length labels
                 ∧ Forall (fun d => d = 0 ∨ d = 80 ∨ d = 255) flat)
    ∧ (∀ labels,
         Exists (fun label => (3 <= label)%nat) labels →
         haptic_map_flat hv labels = Raise KeyError).
Proof.
  apply (train_maps_three_clusters [240 # 1; 20 # 1; 20 # 1]%Q). reflexivity.
Defined.

(** X16.  With fewer than three cluster centres (a cluster count below 3)
    [train] fails with [IndexError] while building its value table. *)
Theorem train_needs_three_clusters (centers : list Q) :
  (length centers < 3)%nat → haptic_values_of centers = Raise IndexError.
Proof.
  destruct centers as [|a [|b [|c l]]]; simpl; try lia; intros _.
  - reflexivity.
  - reflexivity.
  - unfold haptic_values_of, argsort. cbn. unfold by_center. cbn [fst].
    by destruct (decide (a <= b)%Q).
Qed.

Lemma train_needs_three_clusters_witness :
  haptic_values_of [240 # 1; 20 # 1]%Q = Raise IndexError.
Proof. apply (train_needs_three_clusters [240 # 1; 20 # 1]%Q). simpl. lia. Defined.

(** ** The calibration tool *)

Lemma py_range_step_sweep (pwm_step : Z) :
  pwm_step ≠ 0 →
  ∃ values, py_range_step 0 256 pwm_step = Ok values
            ∧ Forall (fun v => 0 <= v <= 255) values.
Proof.
  intros Hstep. unfold py_range_step. rewrite decide_False by done.
  case_decide as Hpos; eexists; (split; [reflexivity|]).
  - apply Forall_fmap, Forall_forall. intros i Hi. apply elem_of_seqZ in Hi.
    simpl.
    pose proof (Z.mul_div_le (256 - 0 + pwm_step - 1) pwm_step Hpos). nia.
  - rewrite seqZ_nil; [constructor|].
    assert ((0 - 256 - pwm_step - 1) `div` (- pwm_step) < 1); [|lia].
    apply Z.div_lt_upper_bound; lia.
Qed.

Lemma cal_send_pwm_frames (s : Serial) (env env' : list bool) (value : Z)
    (r : result unit) (ser' : option Serial) :
  cal_send_pwm (Some s) env value = (r, ser', env') →
  (r = Ok tt
   ∧ ser' = Some (mkSerial true (written s ++ [density_frame value])))
  ∨ ((∃ e, r = Raise e) ∧ ser' = Some s).
Proof.
  unfold cal_send_pwm, send_pwm, Serial_write.
  destruct (next_ok env) as [ok env1].
  destruct (is_open s && ok); simpl; intros [= <- <- <-].
  - by left.
  - right. split; [by eexists | done].
Qed.

Lemma sweep_loop_frames (values : list Z) (s : Serial) (env env' : list bool)
    (r : result unit) (ser' : option Serial) :
  sweep_loop values (Some s) env = (r, ser', env') →
  ∃ s' sent, ser' = Some s'
             ∧ written s' = written s ++ (density_frame <$> sent)
             ∧ sent `prefix_of` values
             ∧ (r = Ok tt → sent = values).
Proof.
  revert s env. induction values as [|v values IH]; intros s env; cbn [sweep_loop].
  - intros [= <- <- <-]. exists s, []. by rewrite app_nil_r.
  - destruct (cal_send_pwm (Some s) env v) as [[r1 ser1] env1] eqn:Hsend.
    apply cal_send_pwm_frames in Hsend as [[-> ->] | [[e ->] ->]].
    + intros H. apply IH in H as (s' & sent & -> & Hw & Hpre & Hall).
      exists s', (v :: sent). split; [done|]. simpl in Hw.
      split; [by rewrite Hw, <- app_assoc|].
      split; [by apply prefix_cons | intros Hr; by rewrite Hall].
    + intros [= <- <- <-]. exists s, []. rewrite app_nil_r.
      split; [done|]. split; [done|]. split; [apply prefix_nil | done].
Qed.

Lemma run_sweep_frames (pwm_step : Z) (s : Serial) (env env' : list bool)
    (r : result unit) (ser' : option Serial) :
  run_sweep pwm_step (Some s) env = (r, ser', env') →
  ∃ s' sent, ser' = Some s'
             ∧ written s' = written s ++ (density_frame <$> sent)
             ∧ Forall (fun v => 0 <= v <= 255) sent
             ∧ (r = Ok tt → last sent = Some 0).
Proof.
  unfold run_sweep. destruct (decide (pwm_step = 0)) as [->|Hstep].
  - simpl. intros [= <- <- <-]. exists s, []. by rewrite app_nil_r.
  - destruct (py_range_step_sweep pwm_step Hstep) as (values & -> & Hrange).
    destruct (sweep_loop values (Some s) env) as [[r1 ser1] env1] eqn:Hloop.
    apply sweep_loop_frames in Hloop as (s1 & sent & -> & Hw & Hpre & Hall).
    assert (Forall (fun v => 0 <= v <= 255) sent) as Hsent.
    { destruct Hpre as [k ->]. by apply Forall_app in Hrange as [? _]. }
    destruct r1 as [[]|e].
    + intros Hsend. apply cal_send_pwm_frames in Hsend as [[-> ->] | [[e ->] ->]].
      * eexists _, (sent ++ [0]). split; [done|]. simpl.
        split; [by rewrite Hw, fmap_app, app_assoc|].
        split; [apply Forall_app; split; [done | by apply Forall_singleton]|].
        intros _. by rewrite last_snoc.
      * exists s1, sent. done.
    + intros [= <- <- <-]. exists s1, sent. done.
Qed.

(** X17.  A sweep on a healthy port writes the frames of 0, step, 2*step, ...
    below 256, every one of them a valid PWM value, and then the
    motor-off frame; a zero step is a [ValueError] before anything is
    written. *)
Theorem run_sweep_on_healthy_port (pwm_step : Z) (s : Serial) :
  is_open s = true →
  (pwm_step = 0 ∧ run_sweep pwm_step (Some s) [] = (Raise ValueError, Some s, []))
  ∨ (∃ values,
       py_range_step 0 256 pwm_step = Ok values
       ∧ Forall (fun v => 0 <= v <= 255) values
       ∧ (0 < pwm_step → values !! O = Some 0 ∧ ∀ i v, values !! i = Some v →
                                              v = Z.of_nat i * pwm_step)
       ∧ run_sweep pwm_step (Some s) []
         = (Ok tt,
            Some (mkSerial true
                    (written s ++ (density_frame <$> values) ++ [density_frame 0])),
            [])).
Proof.
  intros Hopen. destruct (decide (pwm_step = 0)) as [->|Hstep]; [by left|].
  right. destruct (py_range_step_sweep pwm_step Hstep) as (values & Hvalues & Hrange).
  exists values. split; [done|]. split; [done|]. split.
  - intros Hpos. unfold py_range_step in Hvalues.
    rewrite decide_False, decide_True in Hvalues by lia.
    injection Hvalues as <-. split.
    + rewrite list_lookup_fmap, lookup_seqZ_lt; [done|].
      apply Z.div_str_pos. lia.
    + intros i v. rewrite list_lookup_fmap.
      destruct (seqZ 0 _ !! i) as [k|] eqn:Hk; [|done].
      apply lookup_seqZ in Hk as [-> _]. intros [= <-]. lia.
  - unfold run_sweep. rewrite Hvalues.
    assert (∀ vs s0, is_open s0 = true →
              sweep_loop vs (Some s0) []
              = (Ok tt, Some (mkSerial true (written s0 ++ (density_frame <$> vs))), []))
      as Hloop.
    { induction vs as [|v vs IH]; intros s0 H0; simpl.
      - rewrite app_nil_r. by destruct s0 as [[] ?].
      - unfold Serial_write. rewrite H0. simpl. rewrite IH by done.
        simpl. by rewrite <- app_assoc. }
    rewrite Hloop by done. simpl. by rewrite <- app_assoc.
Qed.

Lemma run_sweep_on_healthy_port_witness :
  (100 = 0 ∧ run_sweep 100 (Some Serial_open) [] = (Raise ValueError, Some Serial_open, []))
  ∨ (∃ values,
       py_range_step 0 256 100 = Ok values
       ∧ Forall (fun v => 0 <= v <= 255) values
       ∧ (0 < 100 → values !! O = Some 0 ∧ ∀ i v, values !! i = Some v →
                                           v = Z.of_nat i * 100)
       ∧ run_sweep 100 (Some Serial_open) []
         = (Ok tt,
            Some (mkSerial true
                    (written Serial_open ++ (density_frame <$> values)
                     ++ [density_frame 0])),
            [])).
Proof. apply (run_sweep_on_healthy_port 100 Serial_open). reflexivity. Defined.

Example run_sweep_step_100 :
  run_sweep 100 (Some Serial_open) []
  = (Ok tt,
     Some (mkSerial true [density_frame 0; density_frame 100; density_frame 200;
                          density_frame 0]), []).
Proof. vm_compute. reflexivity. Qed.

Example run_sweep_fails_midway :
  run_sweep 100 (Some Serial_open) [true; false]
  = (Raise SerialException, Some (mkSerial true [density_frame 0]), []).
Proof. vm_compute. reflexivity. Qed.

(** X18.  The [finally] block of the calibration run never closes the
    port without the motor-off frame: on a connected tool it writes
    [D:0] and then closes the port, so that when it completes the last
    frame written is [D:0]; when that write fails, the exception leaves
    the block instead. *)
Theorem calibrator_finally_turns_motor_off (s : Serial) (wire_ok : bool) :
  calibrator_finally (Some s) wire_ok
  = (if is_open s && wire_ok
     then Ok (Some (mkSerial false (written s ++ [density_frame 0])))
     else Raise SerialException)
  ∧ (∀ out, calibrator_finally (Some s) wire_ok = Ok out →
            ∃ s', out = Some s' ∧ is_open s' = false
                  ∧ last (written s') = Some (density_frame 0)).
Proof.
  unfold calibrator_finally, send_pwm, Serial_write.
  destruct (is_open s && wire_ok); simpl.
  - split; [done|]. intros out [= <-].
    eexists. split; [done|]. split; [done|]. simpl. by rewrite last_snoc.
  - split; [done|]. by intros out.
Qed.

Lemma interactive_loop_frames (parse : string → result Z) (pwm_step : Z)
    (inputs : list user_input) (s : Serial) (env env' : list bool)
    (r : result unit) (ser' : option Serial) :
  interactive_loop parse pwm_step inputs (Some s) env = Some (r, ser', env') →
  ∃ s' sent, ser' = Some s'
             ∧ written s' = written s ++ (density_frame <$> sent)
             ∧ Forall (fun v => 0 <= v <= 255) sent.
Proof.
  revert s env. induction inputs as [|[l|] inputs IH]; intros s env;
    cbn [interactive_loop].
  - done.
  - assert (∀ s1 sent1,
              written s1 = written s ++ (density_frame <$> sent1) →
              Forall (fun v => 0 <= v <= 255) sent1 →
              ∀ env1,
                interactive_loop parse pwm_step inputs (Some s1) env1
                = Some (r, ser', env') →
                ∃ s' sent, ser' = Some s'
                           ∧ written s' = written s ++ (density_frame <$> sent)
                           ∧ Forall (fun v => 0 <= v <= 255) sent) as Hnext.
    { intros s1 sent1 Hw1 Hr1 env1 H.
      apply IH in H as (s' & sent & -> & Hw & Hr).
      exists s', (sent1 ++ sent). split; [done|].
      split; [by rewrite Hw, Hw1, fmap_app, app_assoc | by apply Forall_app]. }
    assert (∃ s' sent, Some s = Some s'
                       ∧ written s' = written s ++ (density_frame <$> sent)
                       ∧ Forall (fun v => 0 <= v <= 255) sent) as Hhere.
    { exists s, []. by rewrite app_nil_r. }
    case_decide; [by intros [= <- <- <-]|].
    case_decide.
    + destruct (run_sweep pwm_step (Some s) env) as [[r1 ser1] env1] eqn:Hsweep.
      apply run_sweep_frames in Hsweep as (s1 & sent1 & -> & Hw1 & Hr1 & _).
      destruct r1 as [[]|[]]; try (by apply (Hnext s1 sent1));
        intros [= <- <- <-]; by exists s1, sent1.
    + destruct (parse l) as [pwm|[]]; try (by apply (Hnext s []); rewrite ?app_nil_r);
        try (by intros [= <- <- <-]).
      case_decide as Hrange; [|by apply (Hnext s []); rewrite ?app_nil_r].
      destruct (cal_send_pwm (Some s) env pwm) as [[r1 ser1] env1] eqn:Hsend.
      apply cal_send_pwm_frames in Hsend as [[-> ->] | [[e ->] ->]].
      * apply (Hnext _ [pwm]); [done | by apply Forall_singleton].
      * by intros [= <- <- <-].
  - intros [= <- <- <-]. exists s, []. by rewrite app_nil_r.
Qed.

(** X19.  Whatever the user types, the interactive test writes only density
    frames of valid PWM values (0 to 255), out-of-range numbers and
    unparsable lines being skipped; and when it returns normally the last
    of them is the motor-off frame. *)
Theorem interactive_test_sends_valid_pwm (parse : string → result Z)
    (pwm_step : Z) (inputs : list user_input) (s : Serial) (env env' : list bool)
    (r : result unit) (ser' : option Serial) :
  interactive_test parse pwm_step inputs (Some s) env = Some (r, ser', env') →
  ∃ s' sent, ser' = Some s'
             ∧ written s' = written s ++ (density_frame <$> sent)
             ∧ Forall (fun v => 0 <= v <= 255) sent
             ∧ (r = Ok tt → last sent = Some 0).
Proof.
  unfold interactive_test.
  destruct (interactive_loop parse pwm_step inputs (Some s) env)
    as [[[r1 ser1] env1]|] eqn:Hloop; [|done].
  apply interactive_loop_frames in Hloop as (s1 & sent1 & -> & Hw1 & Hr1).
  destruct r1 as [[]|e].
  - intros [= Hsend].
    apply cal_send_pwm_frames in Hsend as [[-> ->] | [[e ->] ->]].
    + eexists _, (sent1 ++ [0]). split; [done|]. simpl.
      split; [by rewrite Hw1, fmap_app, app_assoc|].
      split; [apply Forall_app; split; [done | by apply Forall_singleton]|].
      intros _. by rewrite last_snoc.
    + by exists s1, sent1.
  - intros [= <- <- <-]. by exists s1, sent1.
Qed.

Lemma interactive_test_sends_valid_pwm_witness :
  let parse (l : string) :=
    if decide (l = "42") then Ok 42
    else if decide (l = "300") then Ok 300 else Raise ValueError in
  let inputs := [line "42"; line "300"; line "fast"; line "sweep"; line "q";
                 line "7"] in
  let port :=
    mkSerial true [density_frame 42; density_frame 0; density_frame 100;
                   density_frame 200; density_frame 0; density_frame 0] in
  interactive_test parse 100 inputs (Some Serial_open) []
  = Some (Ok tt, Some port, [])
  ∧ ∃ s' sent,
      Some port = Some s'
      ∧ written s' = written Serial_open ++ (density_frame <$> sent)
      ∧ Forall (fun v => 0 <= v <= 255) sent
      ∧ (Ok tt = Ok tt → last sent = Some 0).
Proof.
  intros parse inputs port. split; [by vm_compute|].
  apply (interactive_test_sends_valid_pwm parse 100 inputs Serial_open [] []).
  vm_compute. reflexivity.
Defined.

(** ** The test runner's exit code *)

Lemma length_filter_all {A} (P : A → Prop) `{∀ x, Decision (P x)} (l : list A) :
  length (filter P l) = length l ↔ Forall P l.
Proof.
  induction l as [|x l IH].
  - split; [constructor | done].
  - rewrite filter_cons. pose proof (length_filter P l) as Hle.
    case_decide as HP; simpl.
    + rewrite Forall_cons. split.
      * intros [= Hlen]. split; [done | by apply IH].
      * intros [_ Hall]. f_equal. by apply IH.
    + split; [lia|]. intros Hall. apply Forall_cons in Hall as [? _]. done.
Qed.

(** X20.  The test runner exits with 0 exactly when every test returned
    [True]; a test that returns [False], or that crashes, makes it exit
    with 1. *)
Theorem run_all_tests_exit_code (outcomes : list (string * result bool)) :
  (run_all_tests outcomes = 0 ↔ Forall (fun o => o.2 = Ok true) outcomes)
  ∧ (run_all_tests outcomes = 0 ∨ run_all_tests outcomes = 1).
Proof.
  unfold run_all_tests. split.
  - case_decide as Hpassed.
    + split; [intros _ | done].
      apply Nat2Z.inj, length_filter_all in Hpassed.
      unfold test_results in Hpassed. apply Forall_fmap in Hpassed.
      eapply Forall_impl; [exact Hpassed|].
      intros [name [[]|e]]; simpl; done.
    + split; [done|]. intros Hall. exfalso. apply Hpassed. f_equal.
      apply length_filter_all. unfold test_results. apply Forall_fmap.
      eapply Forall_impl; [exact Hall|].
      intros [name r]; simpl. by intros ->.
  - case_decide; auto.
Qed.

Example run_all_tests_crash_counts_as_failure :
  run_all_tests [("Package Imports", Ok true); ("K-Means Algorithm", Raise ValueError)]
  = 1
  ∧ run_all_tests [("Package Imports", Ok true); ("K-Means Algorithm", Ok true)] = 0
  ∧ run_all_tests [] = 0.
Proof. vm_compute. repeat split. Qed.

(** ** The first prototype's loop (scanner.py) *)

(** X21.  On a rectangular 8-bit image and with the cursor in the window, the
    prototype's pass computes a value between 0 and 255: the pixel under
    the cursor, or 255 when the pixel to its right differs by more than
    50 (never so in the last column).  Without a port nothing is sent;
    with one, that value's line is written, or the failed write
    propagates. *)
Theorem scanner_tick_sends_pixel_or_edge (img_cv : list (list Z))
    (ser : option Serial) (wire_ok : bool) (mouse_x mouse_y : Z) :
  rectangular img_cv →
  Forall (Forall (fun p => 0 <= p <= 255)) img_cv →
  0 <= mouse_x < (shape img_cv).2 → 0 <= mouse_y < (shape img_cv).1 →
  ∃ row pixel d,
    img_cv !! Z.to_nat mouse_y = Some row
    ∧ row !! Z.to_nat mouse_x = Some pixel
    ∧ scanner_density img_cv mouse_x mouse_y = Ok d
    ∧ 0 <= d <= 255
    ∧ (d = 255
       ↔ pixel = 255
         ∨ ∃ next_pixel, row !! Z.to_nat (mouse_x + 1) = Some next_pixel
                         ∧ 50 < Z.abs (pixel - next_pixel))
    ∧ (d ≠ 255 → d = pixel)
    ∧ scanner_tick img_cv ser wire_ok mouse_x mouse_y
      = match ser with
        | None => Ok None
        | Some s =>
            if is_open s && wire_ok
            then Ok (Some (mkSerial true (written s ++ [legacy_frame d])))
            else Raise SerialException
        end.
Proof.
  intros Hrect Hbytes Hx Hy.
  destruct (rectangular_cell img_cv mouse_x mouse_y Hrect Hy Hx)
    as (row & pixel & Hrow & Hpixel).
  pose proof (proj1 (Forall_lookup _ _) Hrect _ _ Hrow) as Hlen. cbv beta in Hlen.
  pose proof (proj1 (Forall_lookup _ _) Hbytes _ _ Hrow) as Hrow_bytes.
  pose proof (proj1 (Forall_lookup _ _) Hrow_bytes _ _ Hpixel) as Hp. cbv beta in Hp.
  exists row, pixel.
  assert (∃ d, scanner_density img_cv mouse_x mouse_y = Ok d
               ∧ 0 <= d <= 255
               ∧ (d = 255
                  ↔ pixel = 255
                    ∨ ∃ next_pixel,
                        row !! Z.to_nat (mouse_x + 1) = Some next_pixel
                        ∧ 50 < Z.abs (pixel - next_pixel))
               ∧ (d ≠ 255 → d = pixel)) as (d & Hd & Hd_range & Hd_edge & Hd_pixel).
  { unfold scanner_density. destruct (shape img_cv) as [h w] eqn:Hshape.
    simpl in Hx, Hy, Hlen.
    rewrite (py_getitem_Ok img_cv mouse_y row) by (lia || done). simpl.
    rewrite (py_getitem_Ok row mouse_x pixel) by (lia || done). simpl.
    case_decide as Hlast.
    - destruct (lookup_lt_is_Some_2 row (Z.to_nat (mouse_x + 1))) as [next Hnext];
        [lia|].
      rewrite (py_getitem_Ok row (mouse_x + 1) next) by (lia || done). simpl.
      case_decide as Hedge.
      + exists 255. split; [done|]. split; [lia|]. split; [|done].
        split; [|done]. intros _. right. by exists next.
      + exists pixel. split; [done|]. split; [done|]. split; [|done].
        split; [by left|]. intros [? | (next' & Hnext' & Hgrad)]; [done|].
        rewrite Hnext in Hnext'. injection Hnext' as <-. lia.
    - exists pixel. split; [done|]. split; [done|]. split; [|done].
      split; [by left|]. intros [? | (next' & Hnext' & _)]; [done|].
      apply lookup_lt_Some in Hnext'. lia. }
  exists d. repeat (split; [done|]).
  unfold scanner_tick. destruct (shape img_cv) as [h w]. simpl in Hx, Hy.
  rewrite decide_True by lia. rewrite Hd. simpl.
  destruct ser as [s|]; [|done]. unfold Serial_write.
  by destruct (is_open s && wire_ok).
Qed.

Lemma scanner_tick_sends_pixel_or_edge_witness :
  let img_cv := [[10; 90; 100]; [200; 180; 20]] in
  ∃ row pixel d,
    img_cv !! Z.to_nat 0 = Some row
    ∧ row !! Z.to_nat 0 = Some pixel
    ∧ scanner_density img_cv 0 0 = Ok d
    ∧ 0 <= d <= 255
    ∧ (d = 255
       ↔ pixel = 255
         ∨ ∃ next_pixel, row !! Z.to_nat (0 + 1) = Some next_pixel
                         ∧ 50 < Z.abs (pixel - next_pixel))
    ∧ (d ≠ 255 → d = pixel)
    ∧ scanner_tick img_cv (Some Serial_open) true 0 0
      = (if is_open Serial_open && true
         then Ok (Some (mkSerial true (written Serial_open ++ [legacy_frame d])))
         else Raise SerialException).
Proof.
  intros img_cv.
  apply (scanner_tick_sends_pixel_or_edge img_cv (Some Serial_open) true 0 0).
  - repeat constructor.
  - repeat constructor; lia.
  - simpl. lia.
  - simpl. lia.
Defined.

Example scanner_tick_edge_and_last_column :
  scanner_density [[10; 90; 100]; [200; 180; 20]] 0 0 = Ok 255
  ∧ scanner_density [[10; 90; 100]; [200; 180; 20]] 1 0 = Ok 90
  ∧ scanner_density [[10; 90; 100]; [200; 180; 20]] 2 1 = Ok 20
  ∧ scanner_tick [[10; 90; 100]; [200; 180; 20]] (Some Serial_open) true 3 0
    = Ok (Some Serial_open).
Proof. vm_compute. repeat split. Qed.

(** ** Retraining *)

Lemma fit_ignores_centroids (self self' : SimpleKMeans) (data : list Z) :
  n_clusters self = n_clusters self' → max_iters self = max_iters self' →
  (fit self data).2 = (fit self' data).2
  ∧ ((fit self data).2 = Ok tt → fit self data = fit self' data).
Proof.
  intros Hn Hi. unfold fit. rewrite Hn, Hi.
  destruct (_ ≫= _) as [[min_val step]|e]; [|done].
  by destruct (kmeans_rounds _ _ _ _) as [cs [[]|e]].
Qed.

(** X22.  A successful training replaces the analyzer wholesale: the
    analyzer it leaves depends on the image alone, not on what was
    trained or left behind before - and a refit of a model ignores the
    centroids it had. *)
Theorem retrain_replaces_everything (self analyzer : TissueAnalyzer) (img : Image) :
  load_and_train self (Ok img) = (analyzer, success) →
  (∀ self', load_and_train self' (Ok img) = (analyzer, success))
  ∧ (∀ km km' data,
       n_clusters km = n_clusters km' → max_iters km = max_iters km' →
       (fit km data).2 = Ok tt → fit km data = fit km' data).
Proof.
  intros Htrain. split.
  - intros self'. revert Htrain. unfold load_and_train.
    destruct (size img) as [w h].
    destruct (fit _ _) as [km [[]|e]]; [|done].
    destruct (haptic_rows _ _ _ _ _) as [rows [[]|e]]; [|done].
    by intros [= <-].
  - intros km km' data Hn Hi. by apply fit_ignores_centroids.
Qed.

Lemma retrain_replaces_everything_witness :
  let img := mkImage (2, 2) [10; 200; 100; 10] in
  let analyzer := (load_and_train TissueAnalyzer_init (Ok img)).1 in
  (∀ self', load_and_train self' (Ok img) = (analyzer, success))
  ∧ (∀ km km' data,
       n_clusters km = n_clusters km' → max_iters km = max_iters km' →
       (fit km data).2 = Ok tt → fit km data = fit km' data).
Proof.
  intros img analyzer.
  apply (retrain_replaces_everything TissueAnalyzer_init analyzer img).
  vm_compute. reflexivity.
Defined.
